(** * Cosmic Drifter: Frontier Systems -- the simulation core of GameEngine.tsx

    A shallow embedding of the frame loop, the weather controller, the enemy
    spawner and the map generator of [src/components/GameEngine.tsx], and the
    properties of the specification stated against it.

    Numbers.  A JavaScript [number] is modelled by an exact rational ([Q]):
    rounding error, [NaN] and the infinities of IEEE doubles are outside the
    model.  Rationals are compared with [==] ([Qeq]).  Counters that the code
    only ever increments by one (loop indices, [frameCount], [coresCollected])
    are integers ([Z]).

    Library functions.  [Math.sin], [Math.cos], [Math.atan2] and [Math.hypot]
    have no rational counterpart: they are taken as parameters ([MathLib]).
    [Math.random()] reads the next element of a stream of draws; the stream is
    a parameter and the read position is threaded through the code.

    Constants.  [PHYSICS], [ENTITY_SIZE], [ENEMY_STATS] and [WEAPONS] are
    imported from [../constants]: they are parameters ([Constants]), so that
    the theorems hold for every value of them; the values that the game
    ships are [Shipped.constants]. *)

From Stdlib Require Import QArith Qround Qabs Qminmax ZArith List Bool Lia Lqa.
From Stdlib Require String.
Import String.StringSyntax.
Delimit Scope string_scope with string.
Bind Scope string_scope with String.string.
Import ListNotations.

Local Open Scope Z_scope.
Local Open Scope Q_scope.

(** ** JavaScript arithmetic on rationals *)

Module JS.

(** [a < b], [a <= b], [a > b], [a >= b] and [a === b] on numbers. *)
Definition ltb (a b : Q) : bool := negb (Qle_bool b a).
Definition leb (a b : Q) : bool := Qle_bool a b.
Definition gtb (a b : Q) : bool := ltb b a.
Definition geb (a b : Q) : bool := leb b a.
Definition eqb (a b : Q) : bool := Qeq_bool a b.

(** [Math.floor] and [Math.ceil]. *)
Definition floor (a : Q) : Z := Qfloor a.
Definition ceil (a : Q) : Z := Qceiling a.

(** Rounding toward zero, as the [%] operator does. *)
Definition trunc (a : Q) : Z := if Qle_bool 0 a then Qfloor a else Qceiling a.

(** [a % m]: the remainder has the sign of the dividend. *)
Definition rem (a m : Q) : Q := a - m * inject_Z (trunc (a / m)).

(** [Math.abs], [Math.min], [Math.max]. *)
Definition abs (a : Q) : Q := Qabs a.
Definition min (a b : Q) : Q := Qmin a b.
Definition max (a b : Q) : Q := Qmax a b.

(** [a || d] on numbers: [0] is falsy (and so is a missing field, which the
    model stores as [0]). *)
Definition orElse (a d : Q) : Q := if Qeq_bool a 0 then d else a.

(** [arr[i]]: [undefined] outside the array. *)
Definition index {A : Type} (l : list A) (i : Z) : option A :=
  if (i <? 0)%Z then None else nth_error l (Z.to_nat i).

End JS.

(** ** Terrain sampling *)

(** [LOGICAL_HEIGHT]: the height of the logical screen. *)
Definition LOGICAL_HEIGHT : Q := 600.

(** The two sample indices [i1] and [i2] that [getGroundHeightAt] reads. *)
Definition sampleIndex1 (terrain : list Q) (x : Q) : Z :=
  let index := JS.floor (x / 50) in
  Z.max 0 (Z.min index (Z.of_nat (length terrain) - 1)).

Definition sampleIndex2 (terrain : list Q) (x : Q) : Z :=
  let index := JS.floor (x / 50) in
  Z.max 0 (Z.min (index + 1) (Z.of_nat (length terrain) - 1)).

(** The interpolation weight [t]. *)
Definition sampleWeight (x : Q) : Q := JS.rem x 50 / 50.

(** [getGroundHeightAt(x)].  A read outside the array would give [undefined]
    (and a [NaN] height): the model returns [None] there. *)
Definition getGroundHeightAt (terrain : list Q) (x : Q) : option Q :=
  if Nat.eqb (length terrain) 0 then Some LOGICAL_HEIGHT
  else
    let t := sampleWeight x in
    let i1 := sampleIndex1 terrain x in
    let i2 := sampleIndex2 terrain x in
    match JS.index terrain i1, JS.index terrain i2 with
    | Some h1, Some h2 => Some (h1 + (h2 - h1) * t)
    | _, _ => None
    end.

(** The height as the callers use it (a number). *)
Definition groundHeight (terrain : list Q) (x : Q) : Q :=
  match getGroundHeightAt terrain x with
  | Some h => h
  | None => 0
  end.

(** ** Data model ([types.ts]) *)

Inductive BiomeStyle : Type := dunes | crags | spire | plateau.

Inductive EnemyArchetype : Type :=
  crawler | sentinel | dasher | hornet | guardian | neutral | sandworm | shielder | spore.

Inductive WeaponType : Type := blaster | scatter | rapid | sniper | launcher.

Inductive HazardType : Type := lava | acid | spikes | ice | geyser | electric | none.

Inductive WeatherType : Type := clear | rain | acid_rain | snow | ash | sandstorm.

(** [weatherState]: ['clear' | 'buildup' | 'active' | 'fading']. *)
Inductive WeatherPhase : Type := ws_clear | ws_buildup | ws_active | ws_fading.

(** [aiState]. *)
Inductive AiState : Type := idle | alert | chase | attack | flee | charge | phase1 | phase2.

Inductive Rarity : Type := common | elite.

(** [lootType]: ['core' | 'weapon' | 'health']. *)
Inductive LootType : Type := loot_core | loot_weapon | loot_health.

(** [Entity.type]. *)
Inductive EntityType : Type :=
  T_player | T_enemy | T_projectile | T_enemy_projectile | T_loot | T_platform.

Inductive StemType : Type :=
  straight | twisted | segmented | cactus | shard | bulbous | vine | spiral | crystalline.

Inductive FoliageType : Type :=
  fol_none | canopy | fern | bulb | fol_spikes | weeping | pods | flower | luminescent
  | giant_leaf | tentacles.

Scheme Equality for BiomeStyle.
Scheme Equality for EnemyArchetype.
Scheme Equality for WeaponType.
Scheme Equality for HazardType.
Scheme Equality for WeatherType.
Scheme Equality for WeatherPhase.
Scheme Equality for AiState.
Scheme Equality for Rarity.

Record Vector2 : Type := mkVec { X : Q; Y : Q }.

Record Hazard : Type := mkHazard { hx : Q; width : Q; htype : HazardType }.

Record WeaponStats : Type := mkWeaponStats {
  damageMult : Q;
  fireRate : Q;
  speed : Q;
  count : Z;
  spread : Q;
  recoil : Q;
  w_isExplosive : bool;  (* a missing flag is [false] *)
  w_gravity : Q;         (* a missing value is [0] *)
  pierce : Z;            (* a missing value is [0] *)
  knockback : Q
}.

Record PlayerUpgrades : Type := mkUpgrades {
  hull : Q;
  weapon : Q;
  thrusters : Q;
  u_speed : Q
}.

Record PlanetData : Type := mkPlanet {
  name : String.string;
  gravity : Q;
  atmosphereColor : String.string;
  groundColor : String.string;
  enemyColor : String.string;
  floraColor : String.string;
  enemyDensity : Q;
  rareLootChance : Q;
  allowedBiomes : list BiomeStyle;
  weatherTraits : list WeatherType;
  vegetationDensity : Q;
  weatherVolatility : Q
}.

(** [str.includes(sub)]. *)
Fixpoint includes (str sub : String.string) : bool :=
  if String.prefix sub str then true
  else match str with
       | String.EmptyString => false
       | String.String _ rest => includes rest sub
       end.

(** ** Constants ([constants.ts]: parameters) *)

Record PhysicsT : Type := mkPhysics {
  GRAVITY : Q;
  PLAYER_SPEED : Q;
  MAX_SPEED : Q;
  FRICTION : Q;
  AIR_FRICTION : Q;
  COYOTE_FRAMES : Q;
  JUMP_FORCE : Q;
  JETPACK_FORCE : Q;
  JETPACK_FUEL_CONSUMPTION : Q;
  JETPACK_FUEL_RECHARGE : Q;
  INVULNERABILITY_FRAMES : Q;
  PROJECTILE_SPEED : Q
}.

(** The keys of [ENTITY_SIZE] that the engine reads. *)
Inductive SizeKey : Type :=
  SZ_PLAYER | SZ_CRAWLER | SZ_DASHER | SZ_SENTINEL | SZ_HORNET | SZ_NEUTRAL | SZ_SANDWORM
  | SZ_SHIELDER | SZ_SPORE | SZ_GUARDIAN | SZ_PROJECTILE | SZ_ENEMY_PROJECTILE | SZ_LOOT
  | SZ_WEAPON_DROP | SZ_HEALTH_DROP.

(** An entry of [ENEMY_STATS]; a field that an entry does not have is [0]
    (the code reads such fields through [||] only). *)
Record EnemyStat : Type := mkEnemyStat {
  hp : Q;
  e_score : Q;
  e_speed : Q;
  aggroRange : Q;
  range : Q;
  dashSpeed : Q
}.

Record Constants : Type := mkConstants {
  PHYSICS : PhysicsT;
  ENTITY_SIZE : SizeKey -> Vector2;
  ENEMY_STATS : EnemyArchetype -> EnemyStat;
  WEAPONS : WeaponType -> WeaponStats
}.

(** [Math.sin], [Math.cos], [Math.atan2(y, x)], [Math.hypot(x, y)], [Math.PI]. *)
Record MathLib : Type := mkMath {
  sin : Q -> Q;
  cos : Q -> Q;
  atan2 : Q -> Q -> Q;
  hypot : Q -> Q -> Q;
  PI : Q
}.
(** [Entity] of [types.ts], without the fields that only drawing reads
    ([id], [color], [variant]) and without [targetPos], which nothing reads. *)
Record Entity : Type := mkEntity {
  pos : Vector2;
  vel : Vector2;
  size : Vector2;
  type : EntityType;
  health : Q;
  maxHealth : Q;
  isGrounded : bool;
  markedForDeletion : bool;
  facingRight : bool;
  animOffset : Q;
  hitTimer : Q;
  fuel : option Q;
  maxFuel : option Q;
  coyoteTimer : option Q;
  archetype : option EnemyArchetype;
  aiState : option AiState;
  attackTimer : option Q;
  alertTimer : option Q;
  rarity : option Rarity;
  isBurrowed : bool;  (* a missing flag is [false] *)
  shieldHp : Q;  (* a missing value is [0] *)
  lootType : option LootType;
  coreTier : option Z;
  weaponType : option WeaponType;
  pierceCount : Z;  (* a missing count is [0] *)
  isExplosive : bool  (* a missing flag is [false] *)
}.

Definition set_pos (v : Vector2) (r : Entity) : Entity :=
  {| pos := v; vel := vel r; size := size r; type := type r; health := health r;
     maxHealth := maxHealth r; isGrounded := isGrounded r;
     markedForDeletion := markedForDeletion r; facingRight := facingRight r;
     animOffset := animOffset r; hitTimer := hitTimer r; fuel := fuel r; maxFuel := maxFuel r;
     coyoteTimer := coyoteTimer r; archetype := archetype r; aiState := aiState r;
     attackTimer := attackTimer r; alertTimer := alertTimer r; rarity := rarity r;
     isBurrowed := isBurrowed r; shieldHp := shieldHp r; lootType := lootType r;
     coreTier := coreTier r; weaponType := weaponType r; pierceCount := pierceCount r;
     isExplosive := isExplosive r |}.

Definition set_vel (v : Vector2) (r : Entity) : Entity :=
  {| pos := pos r; vel := v; size := size r; type := type r; health := health r;
     maxHealth := maxHealth r; isGrounded := isGrounded r;
     markedForDeletion := markedForDeletion r; facingRight := facingRight r;
     animOffset := animOffset r; hitTimer := hitTimer r; fuel := fuel r; maxFuel := maxFuel r;
     coyoteTimer := coyoteTimer r; archetype := archetype r; aiState := aiState r;
     attackTimer := attackTimer r; alertTimer := alertTimer r; rarity := rarity r;
     isBurrowed := isBurrowed r; shieldHp := shieldHp r; lootType := lootType r;
     coreTier := coreTier r; weaponType := weaponType r; pierceCount := pierceCount r;
     isExplosive := isExplosive r |}.

Definition set_health (v : Q) (r : Entity) : Entity :=
  {| pos := pos r; vel := vel r; size := size r; type := type r; health := v;
     maxHealth := maxHealth r; isGrounded := isGrounded r;
     markedForDeletion := markedForDeletion r; facingRight := facingRight r;
     animOffset := animOffset r; hitTimer := hitTimer r; fuel := fuel r; maxFuel := maxFuel r;
     coyoteTimer := coyoteTimer r; archetype := archetype r; aiState := aiState r;
     attackTimer := attackTimer r; alertTimer := alertTimer r; rarity := rarity r;
     isBurrowed := isBurrowed r; shieldHp := shieldHp r; lootType := lootType r;
     coreTier := coreTier r; weaponType := weaponType r; pierceCount := pierceCount r;
     isExplosive := isExplosive r |}.

Definition set_isGrounded (v : bool) (r : Entity) : Entity :=
  {| pos := pos r; vel := vel r; size := size r; type := type r; health := health r;
     maxHealth := maxHealth r; isGrounded := v; markedForDeletion := markedForDeletion r;
     facingRight := facingRight r; animOffset := animOffset r; hitTimer := hitTimer r;
     fuel := fuel r; maxFuel := maxFuel r; coyoteTimer := coyoteTimer r;
     archetype := archetype r; aiState := aiState r; attackTimer := attackTimer r;
     alertTimer := alertTimer r; rarity := rarity r; isBurrowed := isBurrowed r;
     shieldHp := shieldHp r; lootType := lootType r; coreTier := coreTier r;
     weaponType := weaponType r; pierceCount := pierceCount r; isExplosive := isExplosive r |}.

Definition set_markedForDeletion (v : bool) (r : Entity) : Entity :=
  {| pos := pos r; vel := vel r; size := size r; type := type r; health := health r;
     maxHealth := maxHealth r; isGrounded := isGrounded r; markedForDeletion := v;
     facingRight := facingRight r; animOffset := animOffset r; hitTimer := hitTimer r;
     fuel := fuel r; maxFuel := maxFuel r; coyoteTimer := coyoteTimer r;
     archetype := archetype r; aiState := aiState r; attackTimer := attackTimer r;
     alertTimer := alertTimer r; rarity := rarity r; isBurrowed := isBurrowed r;
     shieldHp := shieldHp r; lootType := lootType r; coreTier := coreTier r;
     weaponType := weaponType r; pierceCount := pierceCount r; isExplosive := isExplosive r |}.

Definition set_facingRight (v : bool) (r : Entity) : Entity :=
  {| pos := pos r; vel := vel r; size := size r; type := type r; health := health r;
     maxHealth := maxHealth r; isGrounded := isGrounded r;
     markedForDeletion := markedForDeletion r; facingRight := v; animOffset := animOffset r;
     hitTimer := hitTimer r; fuel := fuel r; maxFuel := maxFuel r;
     coyoteTimer := coyoteTimer r; archetype := archetype r; aiState := aiState r;
     attackTimer := attackTimer r; alertTimer := alertTimer r; rarity := rarity r;
     isBurrowed := isBurrowed r; shieldHp := shieldHp r; lootType := lootType r;
     coreTier := coreTier r; weaponType := weaponType r; pierceCount := pierceCount r;
     isExplosive := isExplosive r |}.

Definition set_hitTimer (v : Q) (r : Entity) : Entity :=
  {| pos := pos r; vel := vel r; size := size r; type := type r; health := health r;
     maxHealth := maxHealth r; isGrounded := isGrounded r;
     markedForDeletion := markedForDeletion r; facingRight := facingRight r;
     animOffset := animOffset r; hitTimer := v; fuel := fuel r; maxFuel := maxFuel r;
     coyoteTimer := coyoteTimer r; archetype := archetype r; aiState := aiState r;
     attackTimer := attackTimer r; alertTimer := alertTimer r; rarity := rarity r;
     isBurrowed := isBurrowed r; shieldHp := shieldHp r; lootType := lootType r;
     coreTier := coreTier r; weaponType := weaponType r; pierceCount := pierceCount r;
     isExplosive := isExplosive r |}.

Definition set_fuel (v : option Q) (r : Entity) : Entity :=
  {| pos := pos r; vel := vel r; size := size r; type := type r; health := health r;
     maxHealth := maxHealth r; isGrounded := isGrounded r;
     markedForDeletion := markedForDeletion r; facingRight := facingRight r;
     animOffset := animOffset r; hitTimer := hitTimer r; fuel := v; maxFuel := maxFuel r;
     coyoteTimer := coyoteTimer r; archetype := archetype r; aiState := aiState r;
     attackTimer := attackTimer r; alertTimer := alertTimer r; rarity := rarity r;
     isBurrowed := isBurrowed r; shieldHp := shieldHp r; lootType := lootType r;
     coreTier := coreTier r; weaponType := weaponType r; pierceCount := pierceCount r;
     isExplosive := isExplosive r |}.

Definition set_coyoteTimer (v : option Q) (r : Entity) : Entity :=
  {| pos := pos r; vel := vel r; size := size r; type := type r; health := health r;
     maxHealth := maxHealth r; isGrounded := isGrounded r;
     markedForDeletion := markedForDeletion r; facingRight := facingRight r;
     animOffset := animOffset r; hitTimer := hitTimer r; fuel := fuel r; maxFuel := maxFuel r;
     coyoteTimer := v; archetype := archetype r; aiState := aiState r;
     attackTimer := attackTimer r; alertTimer := alertTimer r; rarity := rarity r;
     isBurrowed := isBurrowed r; shieldHp := shieldHp r; lootType := lootType r;
     coreTier := coreTier r; weaponType := weaponType r; pierceCount := pierceCount r;
     isExplosive := isExplosive r |}.

Definition set_aiState (v : option AiState) (r : Entity) : Entity :=
  {| pos := pos r; vel := vel r; size := size r; type := type r; health := health r;
     maxHealth := maxHealth r; isGrounded := isGrounded r;
     markedForDeletion := markedForDeletion r; facingRight := facingRight r;
     animOffset := animOffset r; hitTimer := hitTimer r; fuel := fuel r; maxFuel := maxFuel r;
     coyoteTimer := coyoteTimer r; archetype := archetype r; aiState := v;
     attackTimer := attackTimer r; alertTimer := alertTimer r; rarity := rarity r;
     isBurrowed := isBurrowed r; shieldHp := shieldHp r; lootType := lootType r;
     coreTier := coreTier r; weaponType := weaponType r; pierceCount := pierceCount r;
     isExplosive := isExplosive r |}.

Definition set_attackTimer (v : option Q) (r : Entity) : Entity :=
  {| pos := pos r; vel := vel r; size := size r; type := type r; health := health r;
     maxHealth := maxHealth r; isGrounded := isGrounded r;
     markedForDeletion := markedForDeletion r; facingRight := facingRight r;
     animOffset := animOffset r; hitTimer := hitTimer r; fuel := fuel r; maxFuel := maxFuel r;
     coyoteTimer := coyoteTimer r; archetype := archetype r; aiState := aiState r;
     attackTimer := v; alertTimer := alertTimer r; rarity := rarity r;
     isBurrowed := isBurrowed r; shieldHp := shieldHp r; lootType := lootType r;
     coreTier := coreTier r; weaponType := weaponType r; pierceCount := pierceCount r;
     isExplosive := isExplosive r |}.

Definition set_alertTimer (v : option Q) (r : Entity) : Entity :=
  {| pos := pos r; vel := vel r; size := size r; type := type r; health := health r;
     maxHealth := maxHealth r; isGrounded := isGrounded r;
     markedForDeletion := markedForDeletion r; facingRight := facingRight r;
     animOffset := animOffset r; hitTimer := hitTimer r; fuel := fuel r; maxFuel := maxFuel r;
     coyoteTimer := coyoteTimer r; archetype := archetype r; aiState := aiState r;
     attackTimer := attackTimer r; alertTimer := v; rarity := rarity r;
     isBurrowed := isBurrowed r; shieldHp := shieldHp r; lootType := lootType r;
     coreTier := coreTier r; weaponType := weaponType r; pierceCount := pierceCount r;
     isExplosive := isExplosive r |}.

Definition set_pierceCount (v : Z) (r : Entity) : Entity :=
  {| pos := pos r; vel := vel r; size := size r; type := type r; health := health r;
     maxHealth := maxHealth r; isGrounded := isGrounded r;
     markedForDeletion := markedForDeletion r; facingRight := facingRight r;
     animOffset := animOffset r; hitTimer := hitTimer r; fuel := fuel r; maxFuel := maxFuel r;
     coyoteTimer := coyoteTimer r; archetype := archetype r; aiState := aiState r;
     attackTimer := attackTimer r; alertTimer := alertTimer r; rarity := rarity r;
     isBurrowed := isBurrowed r; shieldHp := shieldHp r; lootType := lootType r;
     coreTier := coreTier r; weaponType := weaponType r; pierceCount := v;
     isExplosive := isExplosive r |}.

(** One joystick of [touchInput]. *)
Record Stick : Type := mkStick { active : bool; vectorX : Q; vectorY : Q }.

Record TouchInput : Type := mkTouch { left : Stick; right : Stick; jump : bool }.

Record Mouse : Type := mkMouse { mouseX : Q; mouseY : Q; isDown : bool }.

(** What the engine tells the outside: the two callbacks of the component,
    and the spawn of the boss. *)
Inductive Event : Type :=
  | EvBossSpawn
  | EvVictory (score : Q) (cores : Z)
  | EvGameOver (score : Q) (cores : Z).

(** [camera]. *)
Record Camera : Type := mkCamera {
  camX : Q;  (* [camera.x] *)
  camY : Q;  (* [camera.y] *)
  shake : Q;
  lookOffset : Q
}.

Definition set_camX (v : Q) (r : Camera) : Camera :=
  {| camX := v; camY := camY r; shake := shake r; lookOffset := lookOffset r |}.

Definition set_camY (v : Q) (r : Camera) : Camera :=
  {| camX := camX r; camY := v; shake := shake r; lookOffset := lookOffset r |}.

Definition set_shake (v : Q) (r : Camera) : Camera :=
  {| camX := camX r; camY := camY r; shake := v; lookOffset := lookOffset r |}.

Definition set_lookOffset (v : Q) (r : Camera) : Camera :=
  {| camX := camX r; camY := camY r; shake := shake r; lookOffset := v |}.

(** The [gameState] of the component, without what only drawing and the radio
    read ([particles], [weatherParticles], [texts], [vegetation],
    [backgroundLayers], [celestialBodies], [stars], [decorations],
    [currentMessage], [lastTime], [scaleRatio]); [rngPos] and [events] are
    added by the model. *)
Record GameState : Type := mkGameState {
  player : Entity;
  currentWeapon : WeaponType;
  weaponCooldown : Q;
  enemies : list Entity;
  projectiles : list Entity;
  loot : list Entity;
  camera : Camera;
  hazards : list Hazard;
  keys : String.string -> bool;  (* a key that was never pressed reads [false] *)
  touchInput : TouchInput;
  mouse : Mouse;
  aimAngle : Q;
  score : Q;
  coresCollected : Z;
  totalCoresNeeded : Z;
  frameCount : Z;
  terrain : list Q;
  isPlaying : bool;
  bossActive : bool;
  jumpLock : bool;
  introTimer : Q;
  lookDownTimer : Z;
  logicalWidth : Q;
  logicalHeight : Q;
  messageQueue : list String.string;
  nextSquadSpawnX : Q;
  timeOfDay : Q;
  weatherState : WeatherPhase;
  currentWeather : WeatherType;
  weatherIntensity : Q;
  weatherTimer : Q;
  hitStop : Q;
  rngPos : nat;  (* position of the next [Math.random()] draw *)
  events : list Event  (* calls of [onVictory] and [onGameOver], and boss spawns, latest first *)
}.

Definition set_player (v : Entity) (r : GameState) : GameState :=
  {| player := v; currentWeapon := currentWeapon r; weaponCooldown := weaponCooldown r;
     enemies := enemies r; projectiles := projectiles r; loot := loot r; camera := camera r;
     hazards := hazards r; keys := keys r; touchInput := touchInput r; mouse := mouse r;
     aimAngle := aimAngle r; score := score r; coresCollected := coresCollected r;
     totalCoresNeeded := totalCoresNeeded r; frameCount := frameCount r; terrain := terrain r;
     isPlaying := isPlaying r; bossActive := bossActive r; jumpLock := jumpLock r;
     introTimer := introTimer r; lookDownTimer := lookDownTimer r;
     logicalWidth := logicalWidth r; logicalHeight := logicalHeight r;
     messageQueue := messageQueue r; nextSquadSpawnX := nextSquadSpawnX r;
     timeOfDay := timeOfDay r; weatherState := weatherState r;
     currentWeather := currentWeather r; weatherIntensity := weatherIntensity r;
     weatherTimer := weatherTimer r; hitStop := hitStop r; rngPos := rngPos r;
     events := events r |}.

Definition set_currentWeapon (v : WeaponType) (r : GameState) : GameState :=
  {| player := player r; currentWeapon := v; weaponCooldown := weaponCooldown r;
     enemies := enemies r; projectiles := projectiles r; loot := loot r; camera := camera r;
     hazards := hazards r; keys := keys r; touchInput := touchInput r; mouse := mouse r;
     aimAngle := aimAngle r; score := score r; coresCollected := coresCollected r;
     totalCoresNeeded := totalCoresNeeded r; frameCount := frameCount r; terrain := terrain r;
     isPlaying := isPlaying r; bossActive := bossActive r; jumpLock := jumpLock r;
     introTimer := introTimer r; lookDownTimer := lookDownTimer r;
     logicalWidth := logicalWidth r; logicalHeight := logicalHeight r;
     messageQueue := messageQueue r; nextSquadSpawnX := nextSquadSpawnX r;
     timeOfDay := timeOfDay r; weatherState := weatherState r;
     currentWeather := currentWeather r; weatherIntensity := weatherIntensity r;
     weatherTimer := weatherTimer r; hitStop := hitStop r; rngPos := rngPos r;
     events := events r |}.

Definition set_weaponCooldown (v : Q) (r : GameState) : GameState :=
  {| player := player r; currentWeapon := currentWeapon r; weaponCooldown := v;
     enemies := enemies r; projectiles := projectiles r; loot := loot r; camera := camera r;
     hazards := hazards r; keys := keys r; touchInput := touchInput r; mouse := mouse r;
     aimAngle := aimAngle r; score := score r; coresCollected := coresCollected r;
     totalCoresNeeded := totalCoresNeeded r; frameCount := frameCount r; terrain := terrain r;
     isPlaying := isPlaying r; bossActive := bossActive r; jumpLock := jumpLock r;
     introTimer := introTimer r; lookDownTimer := lookDownTimer r;
     logicalWidth := logicalWidth r; logicalHeight := logicalHeight r;
     messageQueue := messageQueue r; nextSquadSpawnX := nextSquadSpawnX r;
     timeOfDay := timeOfDay r; weatherState := weatherState r;
     currentWeather := currentWeather r; weatherIntensity := weatherIntensity r;
     weatherTimer := weatherTimer r; hitStop := hitStop r; rngPos := rngPos r;
     events := events r |}.

Definition set_enemies (v : list Entity) (r : GameState) : GameState :=
  {| player := player r; currentWeapon := currentWeapon r; weaponCooldown := weaponCooldown r;
     enemies := v; projectiles := projectiles r; loot := loot r; camera := camera r;
     hazards := hazards r; keys := keys r; touchInput := touchInput r; mouse := mouse r;
     aimAngle := aimAngle r; score := score r; coresCollected := coresCollected r;
     totalCoresNeeded := totalCoresNeeded r; frameCount := frameCount r; terrain := terrain r;
     isPlaying := isPlaying r; bossActive := bossActive r; jumpLock := jumpLock r;
     introTimer := introTimer r; lookDownTimer := lookDownTimer r;
     logicalWidth := logicalWidth r; logicalHeight := logicalHeight r;
     messageQueue := messageQueue r; nextSquadSpawnX := nextSquadSpawnX r;
     timeOfDay := timeOfDay r; weatherState := weatherState r;
     currentWeather := currentWeather r; weatherIntensity := weatherIntensity r;
     weatherTimer := weatherTimer r; hitStop := hitStop r; rngPos := rngPos r;
     events := events r |}.

Definition set_projectiles (v : list Entity) (r : GameState) : GameState :=
  {| player := player r; currentWeapon := currentWeapon r; weaponCooldown := weaponCooldown r;
     enemies := enemies r; projectiles := v; loot := loot r; camera := camera r;
     hazards := hazards r; keys := keys r; touchInput := touchInput r; mouse := mouse r;
     aimAngle := aimAngle r; score := score r; coresCollected := coresCollected r;
     totalCoresNeeded := totalCoresNeeded r; frameCount := frameCount r; terrain := terrain r;
     isPlaying := isPlaying r; bossActive := bossActive r; jumpLock := jumpLock r;
     introTimer := introTimer r; lookDownTimer := lookDownTimer r;
     logicalWidth := logicalWidth r; logicalHeight := logicalHeight r;
     messageQueue := messageQueue r; nextSquadSpawnX := nextSquadSpawnX r;
     timeOfDay := timeOfDay r; weatherState := weatherState r;
     currentWeather := currentWeather r; weatherIntensity := weatherIntensity r;
     weatherTimer := weatherTimer r; hitStop := hitStop r; rngPos := rngPos r;
     events := events r |}.

Definition set_loot (v : list Entity) (r : GameState) : GameState :=
  {| player := player r; currentWeapon := currentWeapon r; weaponCooldown := weaponCooldown r;
     enemies := enemies r; projectiles := projectiles r; loot := v; camera := camera r;
     hazards := hazards r; keys := keys r; touchInput := touchInput r; mouse := mouse r;
     aimAngle := aimAngle r; score := score r; coresCollected := coresCollected r;
     totalCoresNeeded := totalCoresNeeded r; frameCount := frameCount r; terrain := terrain r;
     isPlaying := isPlaying r; bossActive := bossActive r; jumpLock := jumpLock r;
     introTimer := introTimer r; lookDownTimer := lookDownTimer r;
     logicalWidth := logicalWidth r; logicalHeight := logicalHeight r;
     messageQueue := messageQueue r; nextSquadSpawnX := nextSquadSpawnX r;
     timeOfDay := timeOfDay r; weatherState := weatherState r;
     currentWeather := currentWeather r; weatherIntensity := weatherIntensity r;
     weatherTimer := weatherTimer r; hitStop := hitStop r; rngPos := rngPos r;
     events := events r |}.

Definition set_camera (v : Camera) (r : GameState) : GameState :=
  {| player := player r; currentWeapon := currentWeapon r; weaponCooldown := weaponCooldown r;
     enemies := enemies r; projectiles := projectiles r; loot := loot r; camera := v;
     hazards := hazards r; keys := keys r; touchInput := touchInput r; mouse := mouse r;
     aimAngle := aimAngle r; score := score r; coresCollected := coresCollected r;
     totalCoresNeeded := totalCoresNeeded r; frameCount := frameCount r; terrain := terrain r;
     isPlaying := isPlaying r; bossActive := bossActive r; jumpLock := jumpLock r;
     introTimer := introTimer r; lookDownTimer := lookDownTimer r;
     logicalWidth := logicalWidth r; logicalHeight := logicalHeight r;
     messageQueue := messageQueue r; nextSquadSpawnX := nextSquadSpawnX r;
     timeOfDay := timeOfDay r; weatherState := weatherState r;
     currentWeather := currentWeather r; weatherIntensity := weatherIntensity r;
     weatherTimer := weatherTimer r; hitStop := hitStop r; rngPos := rngPos r;
     events := events r |}.

Definition set_keys (v : String.string -> bool) (r : GameState) : GameState :=
  {| player := player r; currentWeapon := currentWeapon r; weaponCooldown := weaponCooldown r;
     enemies := enemies r; projectiles := projectiles r; loot := loot r; camera := camera r;
     hazards := hazards r; keys := v; touchInput := touchInput r; mouse := mouse r;
     aimAngle := aimAngle r; score := score r; coresCollected := coresCollected r;
     totalCoresNeeded := totalCoresNeeded r; frameCount := frameCount r; terrain := terrain r;
     isPlaying := isPlaying r; bossActive := bossActive r; jumpLock := jumpLock r;
     introTimer := introTimer r; lookDownTimer := lookDownTimer r;
     logicalWidth := logicalWidth r; logicalHeight := logicalHeight r;
     messageQueue := messageQueue r; nextSquadSpawnX := nextSquadSpawnX r;
     timeOfDay := timeOfDay r; weatherState := weatherState r;
     currentWeather := currentWeather r; weatherIntensity := weatherIntensity r;
     weatherTimer := weatherTimer r; hitStop := hitStop r; rngPos := rngPos r;
     events := events r |}.

Definition set_touchInput (v : TouchInput) (r : GameState) : GameState :=
  {| player := player r; currentWeapon := currentWeapon r; weaponCooldown := weaponCooldown r;
     enemies := enemies r; projectiles := projectiles r; loot := loot r; camera := camera r;
     hazards := hazards r; keys := keys r; touchInput := v; mouse := mouse r;
     aimAngle := aimAngle r; score := score r; coresCollected := coresCollected r;
     totalCoresNeeded := totalCoresNeeded r; frameCount := frameCount r; terrain := terrain r;
     isPlaying := isPlaying r; bossActive := bossActive r; jumpLock := jumpLock r;
     introTimer := introTimer r; lookDownTimer := lookDownTimer r;
     logicalWidth := logicalWidth r; logicalHeight := logicalHeight r;
     messageQueue := messageQueue r; nextSquadSpawnX := nextSquadSpawnX r;
     timeOfDay := timeOfDay r; weatherState := weatherState r;
     currentWeather := currentWeather r; weatherIntensity := weatherIntensity r;
     weatherTimer := weatherTimer r; hitStop := hitStop r; rngPos := rngPos r;
     events := events r |}.

Definition set_mouse (v : Mouse) (r : GameState) : GameState :=
  {| player := player r; currentWeapon := currentWeapon r; weaponCooldown := weaponCooldown r;
     enemies := enemies r; projectiles := projectiles r; loot := loot r; camera := camera r;
     hazards := hazards r; keys := keys r; touchInput := touchInput r; mouse := v;
     aimAngle := aimAngle r; score := score r; coresCollected := coresCollected r;
     totalCoresNeeded := totalCoresNeeded r; frameCount := frameCount r; terrain := terrain r;
     isPlaying := isPlaying r; bossActive := bossActive r; jumpLock := jumpLock r;
     introTimer := introTimer r; lookDownTimer := lookDownTimer r;
     logicalWidth := logicalWidth r; logicalHeight := logicalHeight r;
     messageQueue := messageQueue r; nextSquadSpawnX := nextSquadSpawnX r;
     timeOfDay := timeOfDay r; weatherState := weatherState r;
     currentWeather := currentWeather r; weatherIntensity := weatherIntensity r;
     weatherTimer := weatherTimer r; hitStop := hitStop r; rngPos := rngPos r;
     events := events r |}.

Definition set_aimAngle (v : Q) (r : GameState) : GameState :=
  {| player := player r; currentWeapon := currentWeapon r; weaponCooldown := weaponCooldown r;
     enemies := enemies r; projectiles := projectiles r; loot := loot r; camera := camera r;
     hazards := hazards r; keys := keys r; touchInput := touchInput r; mouse := mouse r;
     aimAngle := v; score := score r; coresCollected := coresCollected r;
     totalCoresNeeded := totalCoresNeeded r; frameCount := frameCount r; terrain := terrain r;
     isPlaying := isPlaying r; bossActive := bossActive r; jumpLock := jumpLock r;
     introTimer := introTimer r; lookDownTimer := lookDownTimer r;
     logicalWidth := logicalWidth r; logicalHeight := logicalHeight r;
     messageQueue := messageQueue r; nextSquadSpawnX := nextSquadSpawnX r;
     timeOfDay := timeOfDay r; weatherState := weatherState r;
     currentWeather := currentWeather r; weatherIntensity := weatherIntensity r;
     weatherTimer := weatherTimer r; hitStop := hitStop r; rngPos := rngPos r;
     events := events r |}.

Definition set_score (v : Q) (r : GameState) : GameState :=
  {| player := player r; currentWeapon := currentWeapon r; weaponCooldown := weaponCooldown r;
     enemies := enemies r; projectiles := projectiles r; loot := loot r; camera := camera r;
     hazards := hazards r; keys := keys r; touchInput := touchInput r; mouse := mouse r;
     aimAngle := aimAngle r; score := v; coresCollected := coresCollected r;
     totalCoresNeeded := totalCoresNeeded r; frameCount := frameCount r; terrain := terrain r;
     isPlaying := isPlaying r; bossActive := bossActive r; jumpLock := jumpLock r;
     introTimer := introTimer r; lookDownTimer := lookDownTimer r;
     logicalWidth := logicalWidth r; logicalHeight := logicalHeight r;
     messageQueue := messageQueue r; nextSquadSpawnX := nextSquadSpawnX r;
     timeOfDay := timeOfDay r; weatherState := weatherState r;
     currentWeather := currentWeather r; weatherIntensity := weatherIntensity r;
     weatherTimer := weatherTimer r; hitStop := hitStop r; rngPos := rngPos r;
     events := events r |}.

Definition set_coresCollected (v : Z) (r : GameState) : GameState :=
  {| player := player r; currentWeapon := currentWeapon r; weaponCooldown := weaponCooldown r;
     enemies := enemies r; projectiles := projectiles r; loot := loot r; camera := camera r;
     hazards := hazards r; keys := keys r; touchInput := touchInput r; mouse := mouse r;
     aimAngle := aimAngle r; score := score r; coresCollected := v;
     totalCoresNeeded := totalCoresNeeded r; frameCount := frameCount r; terrain := terrain r;
     isPlaying := isPlaying r; bossActive := bossActive r; jumpLock := jumpLock r;
     introTimer := introTimer r; lookDownTimer := lookDownTimer r;
     logicalWidth := logicalWidth r; logicalHeight := logicalHeight r;
     messageQueue := messageQueue r; nextSquadSpawnX := nextSquadSpawnX r;
     timeOfDay := timeOfDay r; weatherState := weatherState r;
     currentWeather := currentWeather r; weatherIntensity := weatherIntensity r;
     weatherTimer := weatherTimer r; hitStop := hitStop r; rngPos := rngPos r;
     events := events r |}.

Definition set_frameCount (v : Z) (r : GameState) : GameState :=
  {| player := player r; currentWeapon := currentWeapon r; weaponCooldown := weaponCooldown r;
     enemies := enemies r; projectiles := projectiles r; loot := loot r; camera := camera r;
     hazards := hazards r; keys := keys r; touchInput := touchInput r; mouse := mouse r;
     aimAngle := aimAngle r; score := score r; coresCollected := coresCollected r;
     totalCoresNeeded := totalCoresNeeded r; frameCount := v; terrain := terrain r;
     isPlaying := isPlaying r; bossActive := bossActive r; jumpLock := jumpLock r;
     introTimer := introTimer r; lookDownTimer := lookDownTimer r;
     logicalWidth := logicalWidth r; logicalHeight := logicalHeight r;
     messageQueue := messageQueue r; nextSquadSpawnX := nextSquadSpawnX r;
     timeOfDay := timeOfDay r; weatherState := weatherState r;
     currentWeather := currentWeather r; weatherIntensity := weatherIntensity r;
     weatherTimer := weatherTimer r; hitStop := hitStop r; rngPos := rngPos r;
     events := events r |}.

Definition set_isPlaying (v : bool) (r : GameState) : GameState :=
  {| player := player r; currentWeapon := currentWeapon r; weaponCooldown := weaponCooldown r;
     enemies := enemies r; projectiles := projectiles r; loot := loot r; camera := camera r;
     hazards := hazards r; keys := keys r; touchInput := touchInput r; mouse := mouse r;
     aimAngle := aimAngle r; score := score r; coresCollected := coresCollected r;
     totalCoresNeeded := totalCoresNeeded r; frameCount := frameCount r; terrain := terrain r;
     isPlaying := v; bossActive := bossActive r; jumpLock := jumpLock r;
     introTimer := introTimer r; lookDownTimer := lookDownTimer r;
     logicalWidth := logicalWidth r; logicalHeight := logicalHeight r;
     messageQueue := messageQueue r; nextSquadSpawnX := nextSquadSpawnX r;
     timeOfDay := timeOfDay r; weatherState := weatherState r;
     currentWeather := currentWeather r; weatherIntensity := weatherIntensity r;
     weatherTimer := weatherTimer r; hitStop := hitStop r; rngPos := rngPos r;
     events := events r |}.

Definition set_bossActive (v : bool) (r : GameState) : GameState :=
  {| player := player r; currentWeapon := currentWeapon r; weaponCooldown := weaponCooldown r;
     enemies := enemies r; projectiles := projectiles r; loot := loot r; camera := camera r;
     hazards := hazards r; keys := keys r; touchInput := touchInput r; mouse := mouse r;
     aimAngle := aimAngle r; score := score r; coresCollected := coresCollected r;
     totalCoresNeeded := totalCoresNeeded r; frameCount := frameCount r; terrain := terrain r;
     isPlaying := isPlaying r; bossActive := v; jumpLock := jumpLock r;
     introTimer := introTimer r; lookDownTimer := lookDownTimer r;
     logicalWidth := logicalWidth r; logicalHeight := logicalHeight r;
     messageQueue := messageQueue r; nextSquadSpawnX := nextSquadSpawnX r;
     timeOfDay := timeOfDay r; weatherState := weatherState r;
     currentWeather := currentWeather r; weatherIntensity := weatherIntensity r;
     weatherTimer := weatherTimer r; hitStop := hitStop r; rngPos := rngPos r;
     events := events r |}.

Definition set_jumpLock (v : bool) (r : GameState) : GameState :=
  {| player := player r; currentWeapon := currentWeapon r; weaponCooldown := weaponCooldown r;
     enemies := enemies r; projectiles := projectiles r; loot := loot r; camera := camera r;
     hazards := hazards r; keys := keys r; touchInput := touchInput r; mouse := mouse r;
     aimAngle := aimAngle r; score := score r; coresCollected := coresCollected r;
     totalCoresNeeded := totalCoresNeeded r; frameCount := frameCount r; terrain := terrain r;
     isPlaying := isPlaying r; bossActive := bossActive r; jumpLock := v;
     introTimer := introTimer r; lookDownTimer := lookDownTimer r;
     logicalWidth := logicalWidth r; logicalHeight := logicalHeight r;
     messageQueue := messageQueue r; nextSquadSpawnX := nextSquadSpawnX r;
     timeOfDay := timeOfDay r; weatherState := weatherState r;
     currentWeather := currentWeather r; weatherIntensity := weatherIntensity r;
     weatherTimer := weatherTimer r; hitStop := hitStop r; rngPos := rngPos r;
     events := events r |}.

Definition set_introTimer (v : Q) (r : GameState) : GameState :=
  {| player := player r; currentWeapon := currentWeapon r; weaponCooldown := weaponCooldown r;
     enemies := enemies r; projectiles := projectiles r; loot := loot r; camera := camera r;
     hazards := hazards r; keys := keys r; touchInput := touchInput r; mouse := mouse r;
     aimAngle := aimAngle r; score := score r; coresCollected := coresCollected r;
     totalCoresNeeded := totalCoresNeeded r; frameCount := frameCount r; terrain := terrain r;
     isPlaying := isPlaying r; bossActive := bossActive r; jumpLock := jumpLock r;
     introTimer := v; lookDownTimer := lookDownTimer r; logicalWidth := logicalWidth r;
     logicalHeight := logicalHeight r; messageQueue := messageQueue r;
     nextSquadSpawnX := nextSquadSpawnX r; timeOfDay := timeOfDay r;
     weatherState := weatherState r; currentWeather := currentWeather r;
     weatherIntensity := weatherIntensity r; weatherTimer := weatherTimer r;
     hitStop := hitStop r; rngPos := rngPos r; events := events r |}.

Definition set_lookDownTimer (v : Z) (r : GameState) : GameState :=
  {| player := player r; currentWeapon := currentWeapon r; weaponCooldown := weaponCooldown r;
     enemies := enemies r; projectiles := projectiles r; loot := loot r; camera := camera r;
     hazards := hazards r; keys := keys r; touchInput := touchInput r; mouse := mouse r;
     aimAngle := aimAngle r; score := score r; coresCollected := coresCollected r;
     totalCoresNeeded := totalCoresNeeded r; frameCount := frameCount r; terrain := terrain r;
     isPlaying := isPlaying r; bossActive := bossActive r; jumpLock := jumpLock r;
     introTimer := introTimer r; lookDownTimer := v; logicalWidth := logicalWidth r;
     logicalHeight := logicalHeight r; messageQueue := messageQueue r;
     nextSquadSpawnX := nextSquadSpawnX r; timeOfDay := timeOfDay r;
     weatherState := weatherState r; currentWeather := currentWeather r;
     weatherIntensity := weatherIntensity r; weatherTimer := weatherTimer r;
     hitStop := hitStop r; rngPos := rngPos r; events := events r |}.

Definition set_logicalWidth (v : Q) (r : GameState) : GameState :=
  {| player := player r; currentWeapon := currentWeapon r; weaponCooldown := weaponCooldown r;
     enemies := enemies r; projectiles := projectiles r; loot := loot r; camera := camera r;
     hazards := hazards r; keys := keys r; touchInput := touchInput r; mouse := mouse r;
     aimAngle := aimAngle r; score := score r; coresCollected := coresCollected r;
     totalCoresNeeded := totalCoresNeeded r; frameCount := frameCount r; terrain := terrain r;
     isPlaying := isPlaying r; bossActive := bossActive r; jumpLock := jumpLock r;
     introTimer := introTimer r; lookDownTimer := lookDownTimer r; logicalWidth := v;
     logicalHeight := logicalHeight r; messageQueue := messageQueue r;
     nextSquadSpawnX := nextSquadSpawnX r; timeOfDay := timeOfDay r;
     weatherState := weatherState r; currentWeather := currentWeather r;
     weatherIntensity := weatherIntensity r; weatherTimer := weatherTimer r;
     hitStop := hitStop r; rngPos := rngPos r; events := events r |}.

Definition set_logicalHeight (v : Q) (r : GameState) : GameState :=
  {| player := player r; currentWeapon := currentWeapon r; weaponCooldown := weaponCooldown r;
     enemies := enemies r; projectiles := projectiles r; loot := loot r; camera := camera r;
     hazards := hazards r; keys := keys r; touchInput := touchInput r; mouse := mouse r;
     aimAngle := aimAngle r; score := score r; coresCollected := coresCollected r;
     totalCoresNeeded := totalCoresNeeded r; frameCount := frameCount r; terrain := terrain r;
     isPlaying := isPlaying r; bossActive := bossActive r; jumpLock := jumpLock r;
     introTimer := introTimer r; lookDownTimer := lookDownTimer r;
     logicalWidth := logicalWidth r; logicalHeight := v; messageQueue := messageQueue r;
     nextSquadSpawnX := nextSquadSpawnX r; timeOfDay := timeOfDay r;
     weatherState := weatherState r; currentWeather := currentWeather r;
     weatherIntensity := weatherIntensity r; weatherTimer := weatherTimer r;
     hitStop := hitStop r; rngPos := rngPos r; events := events r |}.

Definition set_messageQueue (v : list String.string) (r : GameState) : GameState :=
  {| player := player r; currentWeapon := currentWeapon r; weaponCooldown := weaponCooldown r;
     enemies := enemies r; projectiles := projectiles r; loot := loot r; camera := camera r;
     hazards := hazards r; keys := keys r; touchInput := touchInput r; mouse := mouse r;
     aimAngle := aimAngle r; score := score r; coresCollected := coresCollected r;
     totalCoresNeeded := totalCoresNeeded r; frameCount := frameCount r; terrain := terrain r;
     isPlaying := isPlaying r; bossActive := bossActive r; jumpLock := jumpLock r;
     introTimer := introTimer r; lookDownTimer := lookDownTimer r;
     logicalWidth := logicalWidth r; logicalHeight := logicalHeight r; messageQueue := v;
     nextSquadSpawnX := nextSquadSpawnX r; timeOfDay := timeOfDay r;
     weatherState := weatherState r; currentWeather := currentWeather r;
     weatherIntensity := weatherIntensity r; weatherTimer := weatherTimer r;
     hitStop := hitStop r; rngPos := rngPos r; events := events r |}.

Definition set_nextSquadSpawnX (v : Q) (r : GameState) : GameState :=
  {| player := player r; currentWeapon := currentWeapon r; weaponCooldown := weaponCooldown r;
     enemies := enemies r; projectiles := projectiles r; loot := loot r; camera := camera r;
     hazards := hazards r; keys := keys r; touchInput := touchInput r; mouse := mouse r;
     aimAngle := aimAngle r; score := score r; coresCollected := coresCollected r;
     totalCoresNeeded := totalCoresNeeded r; frameCount := frameCount r; terrain := terrain r;
     isPlaying := isPlaying r; bossActive := bossActive r; jumpLock := jumpLock r;
     introTimer := introTimer r; lookDownTimer := lookDownTimer r;
     logicalWidth := logicalWidth r; logicalHeight := logicalHeight r;
     messageQueue := messageQueue r; nextSquadSpawnX := v; timeOfDay := timeOfDay r;
     weatherState := weatherState r; currentWeather := currentWeather r;
     weatherIntensity := weatherIntensity r; weatherTimer := weatherTimer r;
     hitStop := hitStop r; rngPos := rngPos r; events := events r |}.

Definition set_timeOfDay (v : Q) (r : GameState) : GameState :=
  {| player := player r; currentWeapon := currentWeapon r; weaponCooldown := weaponCooldown r;
     enemies := enemies r; projectiles := projectiles r; loot := loot r; camera := camera r;
     hazards := hazards r; keys := keys r; touchInput := touchInput r; mouse := mouse r;
     aimAngle := aimAngle r; score := score r; coresCollected := coresCollected r;
     totalCoresNeeded := totalCoresNeeded r; frameCount := frameCount r; terrain := terrain r;
     isPlaying := isPlaying r; bossActive := bossActive r; jumpLock := jumpLock r;
     introTimer := introTimer r; lookDownTimer := lookDownTimer r;
     logicalWidth := logicalWidth r; logicalHeight := logicalHeight r;
     messageQueue := messageQueue r; nextSquadSpawnX := nextSquadSpawnX r; timeOfDay := v;
     weatherState := weatherState r; currentWeather := currentWeather r;
     weatherIntensity := weatherIntensity r; weatherTimer := weatherTimer r;
     hitStop := hitStop r; rngPos := rngPos r; events := events r |}.

Definition set_weatherState (v : WeatherPhase) (r : GameState) : GameState :=
  {| player := player r; currentWeapon := currentWeapon r; weaponCooldown := weaponCooldown r;
     enemies := enemies r; projectiles := projectiles r; loot := loot r; camera := camera r;
     hazards := hazards r; keys := keys r; touchInput := touchInput r; mouse := mouse r;
     aimAngle := aimAngle r; score := score r; coresCollected := coresCollected r;
     totalCoresNeeded := totalCoresNeeded r; frameCount := frameCount r; terrain := terrain r;
     isPlaying := isPlaying r; bossActive := bossActive r; jumpLock := jumpLock r;
     introTimer := introTimer r; lookDownTimer := lookDownTimer r;
     logicalWidth := logicalWidth r; logicalHeight := logicalHeight r;
     messageQueue := messageQueue r; nextSquadSpawnX := nextSquadSpawnX r;
     timeOfDay := timeOfDay r; weatherState := v; currentWeather := currentWeather r;
     weatherIntensity := weatherIntensity r; weatherTimer := weatherTimer r;
     hitStop := hitStop r; rngPos := rngPos r; events := events r |}.

Definition set_currentWeather (v : WeatherType) (r : GameState) : GameState :=
  {| player := player r; currentWeapon := currentWeapon r; weaponCooldown := weaponCooldown r;
     enemies := enemies r; projectiles := projectiles r; loot := loot r; camera := camera r;
     hazards := hazards r; keys := keys r; touchInput := touchInput r; mouse := mouse r;
     aimAngle := aimAngle r; score := score r; coresCollected := coresCollected r;
     totalCoresNeeded := totalCoresNeeded r; frameCount := frameCount r; terrain := terrain r;
     isPlaying := isPlaying r; bossActive := bossActive r; jumpLock := jumpLock r;
     introTimer := introTimer r; lookDownTimer := lookDownTimer r;
     logicalWidth := logicalWidth r; logicalHeight := logicalHeight r;
     messageQueue := messageQueue r; nextSquadSpawnX := nextSquadSpawnX r;
     timeOfDay := timeOfDay r; weatherState := weatherState r; currentWeather := v;
     weatherIntensity := weatherIntensity r; weatherTimer := weatherTimer r;
     hitStop := hitStop r; rngPos := rngPos r; events := events r |}.

Definition set_weatherIntensity (v : Q) (r : GameState) : GameState :=
  {| player := player r; currentWeapon := currentWeapon r; weaponCooldown := weaponCooldown r;
     enemies := enemies r; projectiles := projectiles r; loot := loot r; camera := camera r;
     hazards := hazards r; keys := keys r; touchInput := touchInput r; mouse := mouse r;
     aimAngle := aimAngle r; score := score r; coresCollected := coresCollected r;
     totalCoresNeeded := totalCoresNeeded r; frameCount := frameCount r; terrain := terrain r;
     isPlaying := isPlaying r; bossActive := bossActive r; jumpLock := jumpLock r;
     introTimer := introTimer r; lookDownTimer := lookDownTimer r;
     logicalWidth := logicalWidth r; logicalHeight := logicalHeight r;
     messageQueue := messageQueue r; nextSquadSpawnX := nextSquadSpawnX r;
     timeOfDay := timeOfDay r; weatherState := weatherState r;
     currentWeather := currentWeather r; weatherIntensity := v; weatherTimer := weatherTimer r;
     hitStop := hitStop r; rngPos := rngPos r; events := events r |}.

Definition set_weatherTimer (v : Q) (r : GameState) : GameState :=
  {| player := player r; currentWeapon := currentWeapon r; weaponCooldown := weaponCooldown r;
     enemies := enemies r; projectiles := projectiles r; loot := loot r; camera := camera r;
     hazards := hazards r; keys := keys r; touchInput := touchInput r; mouse := mouse r;
     aimAngle := aimAngle r; score := score r; coresCollected := coresCollected r;
     totalCoresNeeded := totalCoresNeeded r; frameCount := frameCount r; terrain := terrain r;
     isPlaying := isPlaying r; bossActive := bossActive r; jumpLock := jumpLock r;
     introTimer := introTimer r; lookDownTimer := lookDownTimer r;
     logicalWidth := logicalWidth r; logicalHeight := logicalHeight r;
     messageQueue := messageQueue r; nextSquadSpawnX := nextSquadSpawnX r;
     timeOfDay := timeOfDay r; weatherState := weatherState r;
     currentWeather := currentWeather r; weatherIntensity := weatherIntensity r;
     weatherTimer := v; hitStop := hitStop r; rngPos := rngPos r; events := events r |}.

Definition set_hitStop (v : Q) (r : GameState) : GameState :=
  {| player := player r; currentWeapon := currentWeapon r; weaponCooldown := weaponCooldown r;
     enemies := enemies r; projectiles := projectiles r; loot := loot r; camera := camera r;
     hazards := hazards r; keys := keys r; touchInput := touchInput r; mouse := mouse r;
     aimAngle := aimAngle r; score := score r; coresCollected := coresCollected r;
     totalCoresNeeded := totalCoresNeeded r; frameCount := frameCount r; terrain := terrain r;
     isPlaying := isPlaying r; bossActive := bossActive r; jumpLock := jumpLock r;
     introTimer := introTimer r; lookDownTimer := lookDownTimer r;
     logicalWidth := logicalWidth r; logicalHeight := logicalHeight r;
     messageQueue := messageQueue r; nextSquadSpawnX := nextSquadSpawnX r;
     timeOfDay := timeOfDay r; weatherState := weatherState r;
     currentWeather := currentWeather r; weatherIntensity := weatherIntensity r;
     weatherTimer := weatherTimer r; hitStop := v; rngPos := rngPos r; events := events r |}.

Definition set_rngPos (v : nat) (r : GameState) : GameState :=
  {| player := player r; currentWeapon := currentWeapon r; weaponCooldown := weaponCooldown r;
     enemies := enemies r; projectiles := projectiles r; loot := loot r; camera := camera r;
     hazards := hazards r; keys := keys r; touchInput := touchInput r; mouse := mouse r;
     aimAngle := aimAngle r; score := score r; coresCollected := coresCollected r;
     totalCoresNeeded := totalCoresNeeded r; frameCount := frameCount r; terrain := terrain r;
     isPlaying := isPlaying r; bossActive := bossActive r; jumpLock := jumpLock r;
     introTimer := introTimer r; lookDownTimer := lookDownTimer r;
     logicalWidth := logicalWidth r; logicalHeight := logicalHeight r;
     messageQueue := messageQueue r; nextSquadSpawnX := nextSquadSpawnX r;
     timeOfDay := timeOfDay r; weatherState := weatherState r;
     currentWeather := currentWeather r; weatherIntensity := weatherIntensity r;
     weatherTimer := weatherTimer r; hitStop := hitStop r; rngPos := v; events := events r |}.

Definition set_events (v : list Event) (r : GameState) : GameState :=
  {| player := player r; currentWeapon := currentWeapon r; weaponCooldown := weaponCooldown r;
     enemies := enemies r; projectiles := projectiles r; loot := loot r; camera := camera r;
     hazards := hazards r; keys := keys r; touchInput := touchInput r; mouse := mouse r;
     aimAngle := aimAngle r; score := score r; coresCollected := coresCollected r;
     totalCoresNeeded := totalCoresNeeded r; frameCount := frameCount r; terrain := terrain r;
     isPlaying := isPlaying r; bossActive := bossActive r; jumpLock := jumpLock r;
     introTimer := introTimer r; lookDownTimer := lookDownTimer r;
     logicalWidth := logicalWidth r; logicalHeight := logicalHeight r;
     messageQueue := messageQueue r; nextSquadSpawnX := nextSquadSpawnX r;
     timeOfDay := timeOfDay r; weatherState := weatherState r;
     currentWeather := currentWeather r; weatherIntensity := weatherIntensity r;
     weatherTimer := weatherTimer r; hitStop := hitStop r; rngPos := rngPos r; events := v |}.


(** What the engine is closed over. *)
Record Env : Type := mkEnv {
  env_K : Constants;
  env_M : MathLib;
  env_rnd : nat -> Q;
  env_planet : PlanetData;
  env_upgrades : PlayerUpgrades
}.

(** A ground decoration. *)
Record Decoration : Type := mkDecoration {
  d_x : Q;
  d_y : Q;
  d_type : Z;
  d_size : Q
}.

(** [Vegetation] of [types.ts], without its three colours. *)
Record Vegetation : Type := mkVegetation {
  v_x : Q;
  v_y : Q;
  v_height : Q;
  v_width : Q;
  stemType : StemType;
  foliageType : FoliageType;
  swaySpeed : Q;
  swayAmount : Q;
  v_variant : Z;
  isTitan : bool;
  currentBend : Q
}.

(** The variables of the map generation loop: [height], [currentStyle]
    ([None] is [undefined]), the four arrays it fills, and the position of the
    next draw. *)
Record GenState : Type := mkGen {
  g_height : Q;
  g_style : option BiomeStyle;
  g_terrain : list Q;
  g_hazards : list Hazard;
  g_decorations : list Decoration;
  g_vegetation : list Vegetation;
  g_rng : nat
}.

(** ** The engine

  [planet] and [upgrades] are the properties of the component; [K], [M] and
  [rnd] are the constants, the mathematical library and the draws of
  [Math.random()]. *)

Section Engine.

Variable E : Env.

Local Abbreviation K := (env_K E).
Local Abbreviation M := (env_M E).
Local Abbreviation rnd := (env_rnd E).
Local Abbreviation planet := (env_planet E).
Local Abbreviation upgrades := (env_upgrades E).

(** [Math.random()]. *)
Definition random (st : GameState) : Q * GameState :=
  (rnd (rngPos st), set_rngPos (S (rngPos st)) st).

(** [arr[Math.floor(r * arr.length)]]; [d] stands for [undefined], which
    needs a draw outside of [0, 1) or an empty array. *)
Definition pickAt {A : Type} (d : A) (arr : list A) (r : Q) : A :=
  match JS.index arr (JS.floor (r * inject_Z (Z.of_nat (length arr)))) with
  | Some a => a
  | None => d
  end.

Definition queueMessage (text : String.string) (st : GameState) : GameState :=
  set_messageQueue (messageQueue st ++ [text]) st.

(** [w.toUpperCase()]. *)
Definition weatherUpper (w : WeatherType) : String.string :=
  match w with
  | clear => "CLEAR" | rain => "RAIN" | acid_rain => "ACID_RAIN"
  | snow => "SNOW" | ash => "ASH" | sandstorm => "SANDSTORM"
  end%string.

(** *** Weather and day-night controller *)

(** Step 1 of [updateWeather]: the time of day. *)
Definition weatherClock (dt : Q) (st : GameState) : GameState :=
  let st := set_timeOfDay (timeOfDay st + dt * (1 # 10000)) st in
  if JS.gtb (timeOfDay st) 1 then set_timeOfDay 0 st else st.

(** The phase change that [updateWeather] makes when the timer has run out. *)
Definition weatherTransition (st : GameState) : GameState :=
  match weatherState st with
  | ws_clear =>
      let triggerChance := (5 # 10) * weatherVolatility planet in
      let (r, st) := random st in
      if JS.ltb r triggerChance && (0 <? length (weatherTraits planet))%nat then
        let st := set_weatherState ws_buildup st in
        let badWeather :=
          filter (fun t => negb (WeatherType_beq t clear)) (weatherTraits planet) in
        if (0 <? length badWeather)%nat then
          let (r, st) := random st in
          let st := set_currentWeather (pickAt clear badWeather r) st in
          let st := set_weatherTimer 300 st in
          queueMessage
            (String.append "RILEVATA PERTURBAZIONE ATMOSFERICA: "
                           (weatherUpper (currentWeather st))) st
        else set_weatherTimer 500 st
      else
        let (r, st) := random st in
        set_weatherTimer (500 + r * 500) st
  | ws_buildup =>
      let st := set_weatherState ws_active st in
      let (r, st) := random st in
      set_weatherTimer (600 + r * 1000 * weatherVolatility planet) st
  | ws_active =>
      let st := set_weatherState ws_fading st in
      set_weatherTimer 300 st
  | ws_fading =>
      let st := set_weatherState ws_clear st in
      let st := set_currentWeather clear st in
      set_weatherTimer 500 st
  end.

(** Step 2 of [updateWeather]: the state machine. *)
Definition weatherMachine (dt : Q) (st : GameState) : GameState :=
  if JS.gtb (weatherVolatility planet) 0 then
    let st := set_weatherTimer (weatherTimer st - dt) st in
    if JS.leb (weatherTimer st) 0 then weatherTransition st else st
  else
    let st := set_weatherState ws_clear st in
    set_currentWeather clear st.

(** The intensity ramp and its clamp. *)
Definition weatherRamp (dt : Q) (st : GameState) : GameState :=
  let st :=
    match weatherState st with
    | ws_buildup => set_weatherIntensity (weatherIntensity st + (2 # 1000) * dt) st
    | ws_active => set_weatherIntensity (JS.min 1 (weatherIntensity st + (1 # 1000) * dt)) st
    | ws_fading => set_weatherIntensity (weatherIntensity st - (2 # 1000) * dt) st
    | ws_clear => set_weatherIntensity (JS.max 0 (weatherIntensity st - (5 # 1000) * dt)) st
    end in
  set_weatherIntensity (JS.max 0 (JS.min 1 (weatherIntensity st))) st.

(** [updateWeather(dt)].  The weather particles that it spawns and moves
    afterwards are read by drawing only and are not modelled. *)
Definition updateWeather (dt : Q) (st : GameState) : GameState :=
  weatherRamp dt (weatherMachine dt (weatherClock dt st)).

(** *** Derived stats *)

Definition maxHealthStat : Q := 100 + (hull upgrades - 1) * 25.
Definition moveSpeedMult : Q := 1 + (u_speed upgrades - 1) * (15 # 100).
Definition fuelCapacityMult : Q := 1 + (thrusters upgrades - 1) * (2 # 10).
Definition damageMultStat : Q := 1 + (weapon upgrades - 1) * (2 # 10).
Definition maxFuelBase : Q := 100 * fuelCapacityMult.

(** *** Helpers on entities *)

Definition setPosX (v : Q) (e : Entity) : Entity := set_pos (mkVec v (Y (pos e))) e.
Definition setPosY (v : Q) (e : Entity) : Entity := set_pos (mkVec (X (pos e)) v) e.
Definition setVelX (v : Q) (e : Entity) : Entity := set_vel (mkVec v (Y (vel e))) e.
Definition setVelY (v : Q) (e : Entity) : Entity := set_vel (mkVec (X (vel e)) v) e.

(** A timer that is missing or [0] is falsy. *)
Definition timerPositive (t : option Q) : bool :=
  match t with
  | Some v => JS.gtb v 0
  | None => false
  end.

(** [!t || t <= 0]. *)
Definition timerExpired (t : option Q) : bool :=
  match t with
  | Some v => Qeq_bool v 0 || JS.leb v 0
  | None => true
  end.

(** [t--] and [t -= d] on a timer that is there. *)
Definition timerSub (d : Q) (t : option Q) : option Q :=
  match t with
  | Some v => Some (v - d)
  | None => None
  end.

(** [arr[i] = e]. *)
Fixpoint replaceAt {A : Type} (i : nat) (e : A) (arr : list A) : list A :=
  match arr, i with
  | [], _ => []
  | _ :: tl, O => e :: tl
  | a :: tl, S i' => a :: replaceAt i' e tl
  end.

(** *** Collision tests *)

Definition checkCollision (r1 r2 : Entity) : bool :=
  JS.ltb (X (pos r1)) (X (pos r2) + X (size r2)) &&
  JS.gtb (X (pos r1) + X (size r1)) (X (pos r2)) &&
  JS.ltb (Y (pos r1)) (Y (pos r2) + Y (size r2)) &&
  JS.gtb (Y (pos r1) + Y (size r1)) (Y (pos r2)).

Definition checkCollisionInflated (proj target : Entity) (padding : Q) : bool :=
  JS.ltb (X (pos proj) - padding) (X (pos target) + X (size target)) &&
  JS.gtb (X (pos proj) + X (size proj) + padding) (X (pos target)) &&
  JS.ltb (Y (pos proj) - padding) (Y (pos target) + Y (size target)) &&
  JS.gtb (Y (pos proj) + Y (size proj) + padding) (Y (pos target)).

(** The ground below [x] in the current terrain. *)
Definition groundAt (st : GameState) (x : Q) : Q := groundHeight (terrain st) x.

(** *** Spawning

    Particles, floating texts and sounds are not modelled, nor are the draws
    that name an entity ([id]) or pick its [variant]. *)

Definition addScreenshake (amount : Q) (st : GameState) : GameState :=
  set_camera (set_shake amount (camera st)) st.

Definition spawnPlayerProjectileAt (x y angle : Q) (w : WeaponType) (st : GameState)
  : GameState :=
  let stats := WEAPONS K w in
  let baseSpeed := speed stats * (1 + (weapon upgrades - 1) * (5 # 100)) in
  let (r, st) := random st in
  let spreadAngle := angle + (r - (1 # 2)) * spread stats in
  set_projectiles
    (projectiles st ++
     [ {| pos := mkVec x y;
          vel := mkVec (cos M spreadAngle * baseSpeed) (sin M spreadAngle * baseSpeed);
          size := ENTITY_SIZE K SZ_PROJECTILE; type := T_projectile;
          health := 1; maxHealth := 1; isGrounded := false; markedForDeletion := false;
          facingRight := JS.ltb (JS.abs spreadAngle) (PI M / 2);
          animOffset := 0; hitTimer := 0;
          weaponType := Some w; pierceCount := pierce stats;
          isExplosive := w_isExplosive stats;
          fuel := None; maxFuel := None; coyoteTimer := None; archetype := None;
          aiState := None; attackTimer := None; alertTimer := None; rarity := None;
          isBurrowed := false; shieldHp := 0; lootType := None; coreTier := None |} ]) st.

(** [for (let i = 0; i < n; i++) body]. *)
Fixpoint repeatN (n : nat) (body : GameState -> GameState) (st : GameState) : GameState :=
  match n with
  | O => st
  | S n' => repeatN n' body (body st)
  end.

(** [spawnPlayerProjectile]: the projectiles of one shot; returns the recoil. *)
Definition spawnPlayerProjectile (x y angle : Q) (w : WeaponType) (st : GameState)
  : Q * GameState :=
  let stats := WEAPONS K w in
  (recoil stats,
   repeatN (Z.to_nat (count stats)) (spawnPlayerProjectileAt x y angle w) st).

Definition spawnEnemyProjectile (x y angle : Q) (st : GameState) : GameState :=
  let speed := PROJECTILE_SPEED (PHYSICS K) * (6 # 10) in
  set_projectiles
    (projectiles st ++
     [ {| pos := mkVec x y;
          vel := mkVec (cos M angle * speed) (sin M angle * speed);
          size := ENTITY_SIZE K SZ_ENEMY_PROJECTILE; type := T_enemy_projectile;
          health := 1; maxHealth := 1; isGrounded := false; markedForDeletion := false;
          facingRight := true; animOffset := 0; hitTimer := 0;
          fuel := None; maxFuel := None; coyoteTimer := None; archetype := None;
          aiState := None; attackTimer := None; alertTimer := None; rarity := None;
          isBurrowed := false; shieldHp := 0; lootType := None; coreTier := None;
          weaponType := None; pierceCount := 0; isExplosive := false |} ]) st.

(** What [spawnExplosion] does to one enemy. *)
Definition explodeOn (x y : Q) (e : Entity) : Entity :=
  let dist := hypot M (X (pos e) - x) (Y (pos e) - y) in
  if JS.ltb dist 100 then
    let e := set_health (health e - 50 * (1 + (weapon upgrades - 1) * (2 # 10))) e in
    let e := set_hitTimer 10 e in
    let angle := atan2 M (Y (pos e) - y) (X (pos e) - x) in
    let e := setVelX (X (vel e) + cos M angle * 10) e in
    setVelY (Y (vel e) + sin M angle * 10) e
  else e.

Definition spawnExplosion (x y : Q) (st : GameState) : GameState :=
  let st := addScreenshake 15 st in
  set_enemies (map (explodeOn x y) (enemies st)) st.

Definition spawnBoss (st : GameState) : GameState :=
  if bossActive st then st
  else
    let st := set_bossActive true st in
    let st := addScreenshake 30 st in
    let st := queueMessage "ATTENZIONE: SEGNALE SISMICO MASSICCIO." st in
    let st := queueMessage "GUARDIANO PLANETARIO RILEVATO. ELIMINARE." st in
    let spawnX := X (pos (player st)) + 400 in
    let spawnY := Y (pos (player st)) - 200 in
    let stats := ENEMY_STATS K guardian in
    let st := set_events (EvBossSpawn :: events st) st in
    set_enemies
      (enemies st ++
       [ {| pos := mkVec spawnX spawnY; vel := mkVec 0 0;
            size := ENTITY_SIZE K SZ_GUARDIAN; type := T_enemy;
            archetype := Some guardian; health := hp stats; maxHealth := hp stats;
            isGrounded := false; markedForDeletion := false; facingRight := false;
            animOffset := 0; hitTimer := 0; aiState := Some phase1;
            attackTimer := Some 100;
            fuel := None; maxFuel := None; coyoteTimer := None; alertTimer := None;
            rarity := None; isBurrowed := false; shieldHp := 0; lootType := None;
            coreTier := None; weaponType := None; pierceCount := 0;
            isExplosive := false |} ]) st.

(** The archetype roll of [spawnEnemy]. *)
Definition rollArchetype (rand : Q) : EnemyArchetype :=
  if JS.gtb rand (94 # 100) then neutral
  else if JS.gtb rand (84 # 100) then dasher
  else if JS.gtb rand (72 # 100) then sentinel
  else if JS.gtb rand (58 # 100) then hornet
  else if JS.gtb rand (48 # 100) then shielder
  else if JS.gtb rand (42 # 100) then sandworm
  else if JS.gtb rand (30 # 100) then spore
  else crawler.

(** [baseSize] and [stats] of [spawnEnemy]: the crawler's unless the
    archetype has a branch of its own. *)
Definition baseSizeOf (arch : EnemyArchetype) : Vector2 :=
  match arch with
  | neutral => ENTITY_SIZE K SZ_NEUTRAL
  | dasher => ENTITY_SIZE K SZ_DASHER
  | sentinel => ENTITY_SIZE K SZ_SENTINEL
  | hornet => ENTITY_SIZE K SZ_HORNET
  | sandworm => ENTITY_SIZE K SZ_SANDWORM
  | shielder => ENTITY_SIZE K SZ_SHIELDER
  | spore => ENTITY_SIZE K SZ_SPORE
  | crawler | guardian => ENTITY_SIZE K SZ_CRAWLER
  end.

Definition spawnStatsOf (arch : EnemyArchetype) : EnemyStat :=
  match arch with
  | neutral => ENEMY_STATS K neutral
  | dasher => ENEMY_STATS K dasher
  | sentinel => ENEMY_STATS K sentinel
  | hornet => ENEMY_STATS K hornet
  | sandworm => ENEMY_STATS K sandworm
  | shielder => ENEMY_STATS K shielder
  | spore => ENEMY_STATS K spore
  | crawler | guardian => ENEMY_STATS K crawler
  end.

Definition isHornetOrSpore (arch : EnemyArchetype) : bool :=
  match arch with
  | hornet | spore => true
  | _ => false
  end.

(** [spawnEnemy(x, groundY, forcedArch?, forcedRarity?)]. *)
Definition spawnEnemy (x groundY : Q) (forcedArch : option EnemyArchetype)
           (forcedRarity : option Rarity) (st : GameState) : GameState :=
  let (rand, st) := random st in
  let arch := match forcedArch with
              | Some a => a
              | None => rollArchetype rand
              end in
  let baseSize := baseSizeOf arch in
  let stats := spawnStatsOf arch in
  let y := groundY - Y baseSize in
  let '(y, st) :=
    if isHornetOrSpore arch
    then let (r, st) := random st in (groundY - 100 - r * 50, st)
    else (y, st) in
  let difficultyMult := 1 + enemyDensity planet * (5 # 100) in
  let scaledHP := JS.floor (hp stats * difficultyMult) in
  let rarity := match forcedRarity with
                | Some r => r
                | None => common
                end in
  let '(rarity, st) :=
    match forcedRarity with
    | Some _ => (rarity, st)
    | None =>
        if EnemyArchetype_beq arch neutral then (rarity, st)
        else let (r, st) := random st in
             if JS.gtb r (85 # 100) then (elite, st) else (rarity, st)
    end in
  let scaledHP := match rarity with
                  | elite => JS.floor (inject_Z scaledHP * 2)
                  | common => scaledHP
                  end in
  let (r, st) := random st in
  let sizeVariation := (85 # 100) + r * (3 # 10) in
  let eliteScale := match rarity with
                    | elite => 13 # 10
                    | common => 1
                    end in
  let finalSize := mkVec (X baseSize * eliteScale * sizeVariation)
                         (Y baseSize * eliteScale * sizeVariation) in
  let y := if isHornetOrSpore arch then y else groundY - Y finalSize in
  let '(isBurrowed, rarity, scaledHP) :=
    match arch with
    | sandworm => (true, elite, JS.floor (inject_Z scaledHP * (15 # 10)))
    | _ => (false, rarity, scaledHP)
    end in
  let (rAnim, st) := random st in
  let '(attackT, st) :=
    match arch with
    | shielder => (300, st)
    | _ => let (r, st) := random st in (r * 100, st)
    end in
  set_enemies
    (enemies st ++
     [ {| pos := mkVec x y; vel := mkVec 0 0; size := finalSize; type := T_enemy;
          health := inject_Z scaledHP; maxHealth := inject_Z scaledHP;
          isGrounded := false; markedForDeletion := false; facingRight := false;
          animOffset := rAnim * 100; archetype := Some arch; rarity := Some rarity;
          aiState := Some (match arch with shielder => chase | _ => idle end);
          attackTimer := Some attackT; alertTimer := Some 0; hitTimer := 0;
          isBurrowed := isBurrowed;
          shieldHp := match arch with shielder => 50 | _ => 0 end;
          fuel := None; maxFuel := None; coyoteTimer := None; lootType := None;
          coreTier := None; weaponType := None; pierceCount := 0;
          isExplosive := false |} ]) st.

(** *** Squads *)

Inductive SquadTheme : Type :=
  mixed | air_raid | heavy_ground | sniper_nest | swarm | minefield | phalanx.

Definition themes : list (SquadTheme * Q) :=
  [ (mixed, 3); (air_raid, 2); (heavy_ground, 2); (sniper_nest, 1); (swarm, 2);
    (minefield, 2); (phalanx, 2) ].

(** [themes.reduce((a, b) => a + b.weight, 0)]. *)
Definition totalWeight : Q := fold_left (fun a b => a + snd b) themes 0.

(** The loop that picks the theme: the first one whose weight exceeds what is
    left of [rand]; ['mixed'] when none does. *)
Fixpoint selectTheme (ts : list (SquadTheme * Q)) (rand : Q) : SquadTheme :=
  match ts with
  | [] => mixed
  | (t, w) :: rest => if JS.ltb rand w then t else selectTheme rest (rand - w)
  end.

Record SquadMember : Type := mkMember {
  arch : EnemyArchetype;
  offsetX : Q;
  offsetY : Q;
  isLeader : bool
}.

(** The index [i] of a [for] loop, as a number. *)
Definition ofNat (i : nat) : Q := inject_Z (Z.of_nat i).

(** The members of a swarm: each offset takes a draw. *)
Fixpoint swarmMembers (t : EnemyArchetype) (n i : nat) (st : GameState)
  : list SquadMember * GameState :=
  match n with
  | O => ([], st)
  | S n' =>
      let (r, st) := random st in
      let m := mkMember t (ofNat i * 30 + r * 20) 0 false in
      let (rest, st) := swarmMembers t n' (S i) st in
      (m :: rest, st)
  end.

Definition squadMembersOf (theme : SquadTheme) (st : GameState)
  : list SquadMember * GameState :=
  let densityBonus := JS.floor (enemyDensity planet / 3) in
  match theme with
  | air_raid =>
      let count := (3 + densityBonus)%Z in
      (map (fun i => mkMember hornet (ofNat i * 40)
                              (- (inject_Z (Z.rem (Z.of_nat i) 2)) * 50 - 50) false)
           (seq 0 (Z.to_nat count)), st)
  | heavy_ground =>
      let crawlers := (2 + densityBonus)%Z in
      (mkMember dasher 0 0 true
       :: map (fun i => mkMember crawler (80 + ofNat i * 40) 0 false)
              (seq 0 (Z.to_nat crawlers)), st)
  | sniper_nest =>
      ([ mkMember sentinel 0 0 true; mkMember sentinel 150 0 false;
         mkMember crawler 75 0 false ], st)
  | swarm =>
      let (r, st) := random st in
      let t := if JS.gtb r (1 # 2) then crawler else neutral in
      let count := (5 + densityBonus * 2)%Z in
      swarmMembers t (Z.to_nat count) 0 st
  | minefield =>
      ([ mkMember spore 0 (-(100)) false; mkMember spore 60 (-(50)) false;
         mkMember spore 120 (-(80)) false; mkMember sandworm 60 0 true ], st)
  | phalanx =>
      ([ mkMember shielder 0 0 true; mkMember sentinel 50 0 false;
         mkMember sentinel 100 0 false ], st)
  | mixed =>
      ([ mkMember sentinel 0 0 false; mkMember crawler 60 0 false;
         mkMember crawler 120 0 false ], st)
  end.

(** [members.findIndex(m => m.arch === a)]: [None] stands for [-1]. *)
Fixpoint findIndexArch (a : EnemyArchetype) (ms : list SquadMember) (i : nat)
  : option nat :=
  match ms with
  | [] => None
  | m :: rest => if EnemyArchetype_beq (arch m) a then Some i
                 else findIndexArch a rest (S i)
  end.

(** The promotion of one member to squad leader. *)
Definition promoteAlpha (ms : list SquadMember) : list SquadMember :=
  let leaderIdx :=
    match findIndexArch dasher ms 0, findIndexArch sentinel ms 0 with
    | Some d, _ => d
    | None, Some s => s
    | None, None => O
    end in
  match nth_error ms leaderIdx with
  | Some m => replaceAt leaderIdx (mkMember (arch m) (offsetX m) (offsetY m) true) ms
  | None => ms
  end.

Definition spawnMember (startX : Q) (mem : SquadMember) (st : GameState) : GameState :=
  let x := startX + offsetX mem in
  let gY := groundAt st x in
  let spawnY := if Qeq_bool (offsetY mem) 0 then gY else gY + offsetY mem in
  spawnEnemy x spawnY (Some (arch mem)) (Some (if isLeader mem then elite else common)) st.

Definition spawnSquad (startX : Q) (st : GameState) : GameState :=
  let (r, st) := random st in
  let selectedTheme := selectTheme themes (r * totalWeight) in
  let (squadMembers, st) := squadMembersOf selectedTheme st in
  let alphaChance := (15 # 100) + enemyDensity planet * (3 # 100) in
  let (r, st) := random st in
  let squadMembers :=
    if JS.ltb r alphaChance && (0 <? length squadMembers)%nat
    then promoteAlpha squadMembers else squadMembers in
  fold_left (fun st mem => spawnMember startX mem st) squadMembers st.

(** [spawnLoot(x, y, 'weapon')] and [spawnLoot(x, y, 'health')]. *)
Definition spawnLoot (x y : Q) (kind : LootType) (st : GameState) : GameState :=
  match kind with
  | loot_weapon =>
      let weaponTypes := [scatter; rapid; sniper; launcher] in
      let (r, st) := random st in
      let w := pickAt blaster weaponTypes r in
      let (r, st) := random st in
      set_loot
        (loot st ++
         [ {| pos := mkVec x y; vel := mkVec ((r - (1 # 2)) * 4) (-(5));
              size := ENTITY_SIZE K SZ_WEAPON_DROP; type := T_loot;
              lootType := Some loot_weapon; weaponType := Some w;
              health := 1; maxHealth := 1; isGrounded := false;
              markedForDeletion := false; facingRight := true; animOffset := 0;
              hitTimer := 0;
              fuel := None; maxFuel := None; coyoteTimer := None; archetype := None;
              aiState := None; attackTimer := None; alertTimer := None; rarity := None;
              isBurrowed := false; shieldHp := 0; coreTier := None; pierceCount := 0;
              isExplosive := false |} ]) st
  | _ =>
      let (r, st) := random st in
      set_loot
        (loot st ++
         [ {| pos := mkVec x y; vel := mkVec ((r - (1 # 2)) * 4) (-(5));
              size := ENTITY_SIZE K SZ_HEALTH_DROP; type := T_loot;
              lootType := Some loot_health;
              health := 1; maxHealth := 1; isGrounded := false;
              markedForDeletion := false; facingRight := true; animOffset := 0;
              hitTimer := 0;
              fuel := None; maxFuel := None; coyoteTimer := None; archetype := None;
              aiState := None; attackTimer := None; alertTimer := None; rarity := None;
              isBurrowed := false; shieldHp := 0; coreTier := None; weaponType := None;
              pierceCount := 0; isExplosive := false |} ]) st
  end.

(** *** The frame: timers, aim and the player *)

(** Camera shake decay and the countdown of the player's hit timer and of the
    weapon cooldown. *)
Definition tickTimers (dt : Q) (st : GameState) : GameState :=
  let cam := camera st in
  let cam := if JS.gtb (shake cam) 0 then set_shake (shake cam * (9 # 10)) cam else cam in
  let cam := if JS.ltb (shake cam) (5 # 10) then set_shake 0 cam else cam in
  let st := set_camera cam st in
  let p := player st in
  let p := if JS.gtb (hitTimer p) 0 then set_hitTimer (hitTimer p - dt) p else p in
  let st := set_player p st in
  if JS.gtb (weaponCooldown st) 0
  then set_weaponCooldown (weaponCooldown st - dt) st else st.

(** The aim angle and the side the player faces. *)
Definition updateAim (st : GameState) : GameState :=
  let p := player st in
  let st :=
    if active (right (touchInput st))
    then set_aimAngle (atan2 M (vectorY (right (touchInput st)))
                               (vectorX (right (touchInput st)))) st
    else
      let playerScreenX := (X (pos p) + X (size p) / 2) - camX (camera st) in
      let playerScreenY := (Y (pos p) + Y (size p) / 2) - camY (camera st) in
      set_aimAngle (atan2 M (mouseY (mouse st) - playerScreenY)
                            (mouseX (mouse st) - playerScreenX)) st in
  set_player (set_facingRight (JS.ltb (JS.abs (aimAngle st)) (PI M / 2)) p) st.

(** [state.hazards.find(...)]: the hazard strip under the player's feet. *)
Definition hazardUnder (st : GameState) : option Hazard :=
  let currentGroundIndex := JS.floor ((X (pos (player st)) + 16) / 50) in
  find (fun h => JS.geb (inject_Z currentGroundIndex * 50) (hx h) &&
                 JS.ltb (inject_Z currentGroundIndex * 50) (hx h + width h))
       (hazards st).

Definition isIce (hazard : option Hazard) : bool :=
  match hazard with
  | Some h => HazardType_beq (htype h) ice
  | None => false
  end.

(** The horizontal input: keys first, then the left joystick. *)
Definition inputXOf (st : GameState) : Q :=
  if keys st "ArrowRight" || keys st "KeyD" then 1
  else if keys st "ArrowLeft" || keys st "KeyA" then -(1)
  else vectorX (left (touchInput st)).

(** Wind, acceleration or friction, and the speed clamp. *)
Definition moveHorizontal (dt : Q) (hazard : option Hazard) (st : GameState)
  : GameState :=
  let p := player st in
  let currentSpeed := PLAYER_SPEED (PHYSICS K) * moveSpeedMult in
  let maxSpeed := MAX_SPEED (PHYSICS K) * moveSpeedMult in
  let friction := if isGrounded p then FRICTION (PHYSICS K)
                  else AIR_FRICTION (PHYSICS K) in
  let friction := if isIce hazard then 98 # 100 else friction in
  let windPush := match currentWeather st with
                  | sandstorm => (2 # 10) * weatherIntensity st
                  | _ => 0
                  end in
  let p := if negb (isGrounded p) then setVelX (X (vel p) + windPush) p else p in
  let inputX := inputXOf st in
  let p := if JS.gtb (JS.abs inputX) (1 # 10)
           then setVelX (X (vel p) + inputX * currentSpeed * dt) p
           else setVelX (X (vel p) * friction) p in
  let p := if JS.ltb (JS.abs (X (vel p))) (1 # 10) then setVelX 0 p else p in
  let p := setVelX (JS.max (JS.min (X (vel p)) maxSpeed) (- maxSpeed)) p in
  set_player p st.

(** Coyote time, jump, fuel recharge and jetpack. *)
Definition jumpAndJetpack (dt : Q) (st : GameState) : GameState :=
  let p := player st in
  let p := if isGrounded p then set_coyoteTimer (Some (COYOTE_FRAMES (PHYSICS K))) p
           else if timerPositive (coyoteTimer p)
                then set_coyoteTimer (timerSub dt (coyoteTimer p)) p
                else p in
  let isJumpPressed :=
    keys st "ArrowUp" || keys st "Space" || keys st "KeyW" || jump (touchInput st) in
  let isJetpackPressed :=
    keys st "ShiftLeft" ||
    (jump (touchInput st) && negb (isGrounded p) && JS.gtb (Y (vel p)) (-(5))) in
  let canJump := (isGrounded p || timerPositive (coyoteTimer p)) && negb (jumpLock st) in
  let '(p, st) :=
    if isJumpPressed && canJump then
      let p := setVelY (- JUMP_FORCE (PHYSICS K) * (1 / gravity planet)) p in
      let p := set_isGrounded false p in
      let p := set_coyoteTimer (Some 0) p in
      (p, set_jumpLock true st)
    else (p, st) in
  let st := if negb isJumpPressed then set_jumpLock false st else st in
  let p :=
    match fuel p, maxFuel p with
    | Some f, Some mf =>
        if isGrounded p && negb isJetpackPressed then
          if JS.ltb f mf
          then set_fuel (Some (JS.min mf (f + JETPACK_FUEL_RECHARGE (PHYSICS K) * dt))) p
          else p
        else p
    | _, _ => p
    end in
  let p :=
    match fuel p with
    | Some f =>
        if isJetpackPressed && JS.gtb f 0 then
          let p := setVelY (Y (vel p) - JETPACK_FORCE (PHYSICS K) * (1 / gravity planet) * dt) p in
          let p := set_fuel (Some (f - JETPACK_FUEL_CONSUMPTION (PHYSICS K) * dt)) p in
          set_isGrounded false p
        else p
    | None => p
    end in
  set_player p st.

(** Firing the current weapon. *)
Definition shoot (st : GameState) : GameState :=
  let isShooting :=
    isDown (mouse st) || keys st "KeyX" || keys st "KeyJ"
    || active (right (touchInput st)) in
  if isShooting && JS.leb (weaponCooldown st) 0 then
    let w := WEAPONS K (currentWeapon st) in
    let gunLen := 25 in
    let p := player st in
    let spawnX := (X (pos p) + X (size p) / 2) + cos M (aimAngle st) * gunLen in
    let spawnY := (Y (pos p) + Y (size p) / 2) + sin M (aimAngle st) * gunLen in
    let (recoilAmount, st) :=
      spawnPlayerProjectile spawnX spawnY (aimAngle st) (currentWeapon st) st in
    let p := player st in
    let p := setVelX (X (vel p) - cos M (aimAngle st) * recoilAmount) p in
    let p := setVelY (Y (vel p) - sin M (aimAngle st) * recoilAmount) p in
    let st := set_player p st in
    let st := addScreenshake (recoilAmount * (8 # 10)) st in
    let cam := camera st in
    let cam := set_camX (camX cam + cos M (aimAngle st) * recoilAmount * (5 # 10)) cam in
    let cam := set_camY (camY cam + sin M (aimAngle st) * recoilAmount * (5 # 10)) cam in
    let st := set_camera cam st in
    set_weaponCooldown (fireRate w) st
  else st.

(** Gravity and the move of the player by [vel * dt]. *)
Definition integratePlayer (dt : Q) (st : GameState) : GameState :=
  let p := player st in
  let p := setVelY (Y (vel p) + GRAVITY (PHYSICS K) * gravity planet * dt) p in
  let p := setPosX (X (pos p) + X (vel p) * dt) p in
  let p := setPosY (Y (pos p) + Y (vel p) * dt) p in
  set_player p st.

(** [state.frameCount % n === 0]. *)
Definition everyNth (n : Z) (st : GameState) : bool := (Z.rem (frameCount st) n =? 0)%Z.

(** One application of hazard damage to the player, with the hit-stop that
    goes with it (if any). *)
Definition hurtPlayer (amount : Q) (stop : option Q) (st : GameState) : GameState :=
  let p := player st in
  let p := set_health (health p - amount) p in
  let p := set_hitTimer (INVULNERABILITY_FRAMES (PHYSICS K)) p in
  let st := set_player p st in
  match stop with
  | Some n => set_hitStop n st
  | None => st
  end.

(** The effect of the hazard under the player. *)
Definition hazardEffects (hazard : option Hazard) (groundY : Q) (st : GameState)
  : GameState :=
  match hazard with
  | None => st
  | Some h =>
      let p := player st in
      let feet := Y (pos p) + Y (size p) in
      match htype h with
      | lava =>
          if JS.geb feet (groundY - 10) then
            let st := if everyNth 20 st && JS.leb (hitTimer p) 0
                      then hurtPlayer 5 (Some 4) st else st in
            let p := player st in
            let p := setVelX (X (vel p) * (5 # 10)) p in
            let p := setVelY (Y (vel p) * (8 # 10)) p in
            set_player p st
          else st
      | acid =>
          if JS.geb feet (groundY - 10) then
            if everyNth 30 st && JS.leb (hitTimer p) 0
            then hurtPlayer 2 None st else st
          else st
      | spikes =>
          if JS.geb feet (groundY - 20) then
            if JS.leb (hitTimer p) 0 then
              let st := set_player (set_health (health p - 15) p) st in
              let st := set_player (setVelY (-(8)) (player st)) st in
              let st := set_player
                          (set_hitTimer (INVULNERABILITY_FRAMES (PHYSICS K)) (player st))
                          st in
              set_hitStop 5 st
            else st
          else st
      | geyser =>
          let isErupting := JS.ltb (JS.rem (inject_Z (frameCount st) + hx h) 300) 100 in
          if isErupting && JS.geb feet (groundY - 150) then
            if JS.gtb (X (pos p) + X (size p)) (hx h) && JS.ltb (X (pos p)) (hx h + width h)
            then
              let st := set_player (setVelY (Y (vel p) - (15 # 10)) p) st in
              if everyNth 30 st && JS.leb (hitTimer (player st)) 0
              then hurtPlayer 5 None st else st
            else st
          else st
      | electric =>
          if JS.geb feet (groundY - 40) then
            let st := set_player (setVelX (X (vel p) * (6 # 10)) p) st in
            if everyNth 40 st && JS.leb (hitTimer (player st)) 0
            then hurtPlayer 8 None st else st
          else st
      | ice | none => st
      end
  end.

(** Landing on the ground, the left edge of the world and the fall out of it. *)
Definition resolveGround (groundY : Q) (st : GameState) : GameState :=
  let p := player st in
  let p :=
    if JS.geb (Y (pos p) + Y (size p)) groundY then
      let p := setPosY (groundY - Y (size p)) p in
      let p := setVelY 0 p in
      set_isGrounded true p
    else set_isGrounded false p in
  let p := if JS.ltb (X (pos p)) 0 then setPosX 0 p else p in
  let p := if JS.gtb (Y (pos p)) (logicalHeight st + 400) then set_health 0 p else p in
  set_player p st.

(** Camera tracking. *)
Definition trackCamera (st : GameState) : GameState :=
  let p := player st in
  let leftStick := left (touchInput st) in
  let lookTarget :=
    (if active leftStick then vectorX leftStick
     else if keys st "ArrowRight" || keys st "KeyD" then 1
     else if keys st "ArrowLeft" || keys st "KeyA" then -(1)
     else 0) * 150 in
  let cam := camera st in
  let cam := set_lookOffset (lookOffset cam + (lookTarget - lookOffset cam) * (5 # 100)) cam in
  let lookVertical :=
    if JS.gtb (vectorY leftStick) (5 # 10) then 200
    else (mouseY (mouse st) - logicalHeight st / 2) * (3 # 10) in
  let st :=
    if keys st "ArrowDown" || keys st "KeyS" || JS.gtb (vectorY leftStick) (7 # 10)
    then set_lookDownTimer (lookDownTimer st + 1)%Z st
    else set_lookDownTimer 0%Z st in
  let lookDownOffset := if (30 <? lookDownTimer st)%Z then 200 else 0 in
  let targetCamX := (X (pos p) + X (size p) / 2) - (logicalWidth st / 2) + lookOffset cam in
  let targetCamY := (Y (pos p) + Y (size p) / 2) - (logicalHeight st * (6 # 10))
                    + lookVertical + lookDownOffset in
  let targetCamY := if JS.gtb targetCamY 100 then 100 else targetCamY in
  let cam := set_camX (camX cam + (targetCamX - camX cam) * (8 # 100)) cam in
  let cam := set_camY (camY cam + (targetCamY - camY cam) * (8 # 100)) cam in
  let cam := if JS.ltb (camX cam) 0 then set_camX 0 cam else cam in
  set_camera cam st.

(** The squad that appears when the player passes [nextSquadSpawnX]. *)
Definition squadTrigger (st : GameState) : GameState :=
  if negb (bossActive st) then
    if JS.gtb (X (pos (player st))) (nextSquadSpawnX st) then
      let spawnX := camX (camera st) + logicalWidth st + 200 in
      let st := spawnSquad spawnX st in
      let (r, st) := random st in
      let gap := 2500 - (enemyDensity planet * 200) + (r * 800) in
      set_nextSquadSpawnX (X (pos (player st)) + JS.max 800 gap) st
    else st
  else st.

(** The player's part of the frame, from the timers to the squad trigger. *)
Definition playerPhase (dt : Q) (st : GameState) : GameState :=
  let st := tickTimers dt st in
  let st := updateAim st in
  let hazard := hazardUnder st in
  let st := moveHorizontal dt hazard st in
  let st := jumpAndJetpack dt st in
  let st := shoot st in
  let st := integratePlayer dt st in
  let groundY := groundAt st (X (pos (player st)) + 16) in
  let st := hazardEffects hazard groundY st in
  let st := resolveGround groundY st in
  let st := trackCamera st in
  squadTrigger st.

(** *** The frame: enemies *)

(** [ENEMY_STATS[ent.archetype?.toUpperCase()] || ENEMY_STATS.CRAWLER]. *)
Definition statsFor (a : option EnemyArchetype) : EnemyStat :=
  match a with
  | Some a => ENEMY_STATS K a
  | None => ENEMY_STATS K crawler
  end.

(** [ENEMY_STATS[ent.archetype?.toUpperCase()]?.speed || 2]. *)
Definition speedFor (a : option EnemyArchetype) : Q :=
  match a with
  | Some a => JS.orElse (e_speed (ENEMY_STATS K a)) 2
  | None => 2
  end.

(** [ENEMY_STATS[ent.archetype?.toUpperCase()]?.score || 50]. *)
Definition baseScoreFor (a : option EnemyArchetype) : Q :=
  match a with
  | Some a => JS.orElse (e_score (ENEMY_STATS K a)) 50
  | None => 50
  end.

(** [(isPlayerLeft ? -1 : 1)]. *)
Definition toward (isPlayerLeft : bool) : Q := if isPlayerLeft then -(1) else 1.

Definition isArch (a : EnemyArchetype) (e : Entity) : bool :=
  match archetype e with
  | Some b => EnemyArchetype_beq a b
  | None => false
  end.

Definition inState (s : AiState) (e : Entity) : bool :=
  match aiState e with
  | Some t => AiState_beq s t
  | None => false
  end.

(** The push away from the squad mates that stand too close. *)
Fixpoint separation (dt : Q) (index otherIdx : nat) (others : list Entity) (ent : Entity)
  : Entity :=
  match others with
  | [] => ent
  | other :: rest =>
      let ent :=
        if (index =? otherIdx)%nat || isArch guardian other then ent
        else
          let dist := hypot M (X (pos ent) - X (pos other)) (Y (pos ent) - Y (pos other)) in
          let minSpace := X (size ent) * (8 # 10) in
          if JS.ltb dist minSpace then
            let pushX := (X (pos ent) - X (pos other)) / (dist + (1 # 10)) in
            setVelX (X (vel ent) + pushX * (5 # 10) * dt) ent
          else ent in
      separation dt index (S otherIdx) rest ent
  end.

(** What the archetype code of one enemy reads about the frame. *)
Record Sight : Type := mkSight {
  distToPlayer : Q;
  isPlayerLeft : bool;
  gY : Q;
  stats : EnemyStat
}.

(** The generic aggro rule: idle, alert, chase and back. *)
Definition aggroRule (dt : Q) (see : Sight) (ent : Entity) (st : GameState)
  : Entity * GameState :=
  let aggroRange := JS.orElse (aggroRange (stats see)) 300 in
  let dropRange := aggroRange * (15 # 10) in
  if isArch neutral ent || isArch guardian ent then (ent, st)
  else
    match aiState ent with
    | Some idle =>
        let '(ent, st) :=
          if JS.ltb (JS.abs (X (vel ent))) (5 # 10) then
            let (r, st) := random st in
            if JS.ltb r (5 # 100) then
              let (r, st) := random st in
              (setVelX ((r - (1 # 2)) * 2) ent, st)
            else (ent, st)
          else (ent, st) in
        let ent :=
          if JS.ltb (distToPlayer see) aggroRange
          then set_alertTimer (Some 40) (set_aiState (Some alert) ent)
          else ent in
        (ent, st)
    | Some alert =>
        let ent := setVelX (X (vel ent) * (8 # 10)) ent in
        let ent :=
          match alertTimer ent with
          | Some t =>
              let ent := set_alertTimer (Some (t - dt)) ent in
              if JS.leb (t - dt) 0 then set_aiState (Some chase) ent else ent
          | None => set_aiState (Some chase) ent
          end in
        (ent, st)
    | Some chase | Some charge =>
        (if JS.gtb (distToPlayer see) dropRange then set_aiState (Some idle) ent else ent,
         st)
    | _ => (ent, st)
    end.

(** Snap to the ground, as the neutral archetype does for itself. *)
Definition landOn (groundY : Q) (ent : Entity) : Entity :=
  let ent := setPosY (groundY - Y (size ent)) ent in
  let ent := setVelY 0 ent in
  set_isGrounded true ent.

Definition aiNeutral (see : Sight) (ent : Entity) (st : GameState) : Entity * GameState :=
  let (r, st) := random st in
  let '(ent, st) :=
    if JS.ltb r (2 # 100) then
      let (r, st) := random st in
      let ent := setVelX ((r - (1 # 2)) * (15 # 10)) ent in
      (if isGrounded ent then setVelY (-(2)) ent else ent, st)
    else (ent, st) in
  (if JS.geb (Y (pos ent) + Y (size ent)) (gY see) then landOn (gY see) ent else ent, st).

Definition aiCrawler (dt : Q) (see : Sight) (ent : Entity) : Entity :=
  let ent :=
    if inState chase ent then
      if JS.ltb (JS.abs (X (vel ent))) 2
      then setVelX (X (vel ent) + toward (isPlayerLeft see) * ((2 # 10) * dt)) ent
      else ent
    else ent in
  if isGrounded ent && JS.gtb (JS.abs (gY see - (Y (pos ent) + Y (size ent)))) 20
  then setVelY (-(8)) ent else ent.

Definition aiHornet (dt : Q) (see : Sight) (ent : Entity) (st : GameState) : Entity :=
  let p := player st in
  let hoverY := Y (pos p) - 100
                + sin M (inject_Z (frameCount st) * (5 # 100) + animOffset ent) * 50 in
  let '(targetY, ent) :=
    if inState chase ent then
      (Y (pos p),
       if JS.ltb (JS.abs (X (vel ent))) 2
       then setVelX (X (vel ent) + toward (isPlayerLeft see) * ((1 # 10) * dt)) ent
       else ent)
    else
      (hoverY,
       setVelX (X (vel ent) + cos M (inject_Z (frameCount st) * (5 # 100)) * (5 # 100)) ent) in
  let ent := setVelY (Y (vel ent) + (targetY - Y (pos ent)) * (2 # 100) * dt) ent in
  setVelY (Y (vel ent) * (95 # 100)) ent.

Definition aiSentinel (dt : Q) (see : Sight) (ent : Entity) (st : GameState)
  : Entity * GameState :=
  if inState chase ent then
    let p := player st in
    let idealRange := JS.orElse (range (stats see)) 300 in
    let ent :=
      if JS.ltb (distToPlayer see) (idealRange - 50)
      then setVelX (X (vel ent) + (if isPlayerLeft see then 1 else -(1)) * ((15 # 100) * dt)) ent
      else if JS.gtb (distToPlayer see) (idealRange + 50)
           then setVelX (X (vel ent) + toward (isPlayerLeft see) * ((15 # 100) * dt)) ent
           else ent in
    let ent := if timerPositive (attackTimer ent)
               then set_attackTimer (timerSub 1 (attackTimer ent)) ent else ent in
    if JS.ltb (distToPlayer see) 500 && timerExpired (attackTimer ent) then
      let angle := atan2 M ((Y (pos p) + 16) - Y (pos ent)) ((X (pos p) + 16) - X (pos ent)) in
      let st := spawnEnemyProjectile (X (pos ent) + X (size ent) / 2) (Y (pos ent)) angle st in
      (set_attackTimer (Some 140) ent, st)
    else (ent, st)
  else (setVelX (X (vel ent) * (9 # 10)) ent, st).

Definition aiDasher (dt : Q) (see : Sight) (ent : Entity) (st : GameState)
  : Entity * GameState :=
  if inState chase ent then
    if JS.ltb (distToPlayer see) 300
    then (set_attackTimer (Some 30) (set_aiState (Some charge) ent), st)
    else
      (if JS.ltb (JS.abs (X (vel ent))) 2
       then setVelX (X (vel ent) + toward (isPlayerLeft see) * ((1 # 10) * dt)) ent
       else ent, st)
  else if inState charge ent then
    if timerPositive (attackTimer ent) then
      let ent := set_attackTimer (timerSub 1 (attackTimer ent)) ent in
      let (r, st) := random st in
      (setPosX (X (pos ent) + (r * 2 - 1)) ent, st)
    else
      let ent := setVelX (toward (isPlayerLeft see) * dashSpeed (ENEMY_STATS K dasher)) ent in
      (if JS.ltb (JS.abs (X (vel ent))) 1 || JS.gtb (distToPlayer see) 450
       then set_aiState (Some chase) ent else ent, st)
  else (ent, st).

(** The five-projectile spread of the guardian, [i] from [0]. *)
Fixpoint guardianSpread (n i : nat) (ent : Entity) (st : GameState) : GameState :=
  match n with
  | O => st
  | S n' =>
      let p := player st in
      let angle := atan2 M ((Y (pos p) + 16) - Y (pos ent)) ((X (pos p) + 16) - X (pos ent)) in
      let st := spawnEnemyProjectile (X (pos ent) + X (size ent) / 2)
                                     (Y (pos ent) + Y (size ent) / 2)
                                     (angle + (ofNat i - 2) * (2 # 10)) st in
      guardianSpread n' (S i) ent st
  end.

(** One enemy summoned by the guardian. *)
Definition guardianSummon (ent : Entity) (st : GameState) : GameState :=
  let (r, st) := random st in
  spawnEnemy (X (pos ent) + (r - (1 # 2)) * 100) (groundAt st (X (pos ent))) None None st.

Definition aiGuardian (dt : Q) (see : Sight) (ent : Entity) (st : GameState)
  : Entity * GameState :=
  let p := player st in
  let hoverY := Y (pos p) - 150 + sin M (inject_Z (frameCount st) * (3 # 100)) * 50 in
  let ent := setVelY (Y (vel ent) + (hoverY - Y (pos ent)) * (1 # 100) * dt) ent in
  let ent := setVelX (X (vel ent) + toward (isPlayerLeft see) * ((5 # 100) * dt)) ent in
  let ent := setVelY (Y (vel ent) * (95 # 100)) ent in
  let ent := setVelX (X (vel ent) * (95 # 100)) ent in
  let ent := if timerPositive (attackTimer ent)
             then set_attackTimer (timerSub 1 (attackTimer ent)) ent else ent in
  if timerExpired (attackTimer ent) then
    let (randAttack, st) := random st in
    if JS.ltb randAttack (6 # 10) then
      let st := guardianSpread 5 0 ent st in
      (set_attackTimer (Some 120) ent, st)
    else
      let st := repeatN 2 (guardianSummon ent) st in
      (set_attackTimer (Some 240) ent, st)
  else (ent, st).

(** The stance toggle of the shielder and what it does in each stance. *)
Definition aiShielder (dt : Q) (ent : Entity) (st : GameState) : Entity :=
  let ent := match attackTimer ent with
             | None => set_attackTimer (Some 0) ent
             | Some _ => ent
             end in
  let ent := set_attackTimer (timerSub dt (attackTimer ent)) ent in
  let ent :=
    if timerExpired (attackTimer ent) then
      if inState chase ent
      then set_attackTimer (Some 180) (set_aiState (Some idle) ent)
      else set_attackTimer (Some 300) (set_aiState (Some chase) ent)
    else ent in
  if inState chase ent then
    let dist := JS.abs (X (pos ent) - X (pos (player st))) in
    if JS.ltb dist 600 then
      if JS.ltb (JS.abs (X (vel ent))) (5 # 10)
      then setVelX (X (vel ent)
                    + (if JS.ltb (X (pos ent)) (X (pos (player st))) then 1 else -(1))
                      * ((5 # 100) * dt)) ent
      else ent
    else ent
  else setVelX (X (vel ent) * (8 # 10)) ent.

Definition aiSandworm (dt : Q) (ent : Entity) (st : GameState) : Entity * GameState :=
  if negb (isBurrowed ent) then
    if timerPositive (attackTimer ent)
    then (set_attackTimer (timerSub dt (attackTimer ent)) ent, st)
    else
      let ent := set_attackTimer (Some 100) ent in
      let p := player st in
      let angle := atan2 M (Y (pos p) - Y (pos ent)) (X (pos p) - X (pos ent)) in
      (ent, spawnEnemyProjectile (X (pos ent)) (Y (pos ent)) angle st)
  else (ent, st).

(** The behaviour of the archetype. *)
Definition archetypeAI (dt : Q) (see : Sight) (ent : Entity) (st : GameState)
  : Entity * GameState :=
  match archetype ent with
  | Some neutral => aiNeutral see ent st
  | Some crawler => (aiCrawler dt see ent, st)
  | Some hornet => (aiHornet dt see ent st, st)
  | Some sentinel => aiSentinel dt see ent st
  | Some dasher => aiDasher dt see ent st
  | Some guardian => aiGuardian dt see ent st
  | Some shielder => (aiShielder dt ent st, st)
  | Some spore => (setVelX 0 ent, st)
  | Some sandworm => aiSandworm dt ent st
  | None => (ent, st)
  end.

Definition fliesFreely (ent : Entity) : bool := isArch hornet ent || isArch guardian ent.

(** Gravity, the speed clamp, the move by [vel * dt] and the landing. *)
Definition enemyPhysics (dt : Q) (see : Sight) (ent : Entity) : Entity :=
  let ent := if negb (fliesFreely ent)
             then setVelY (Y (vel ent) + GRAVITY (PHYSICS K) * gravity planet * dt) ent
             else ent in
  let maxSpd := if isArch dasher ent && inState charge ent then 8
                else speedFor (archetype ent) in
  let ent :=
    if JS.gtb (JS.abs (X (vel ent))) maxSpd && JS.ltb (JS.abs (X (vel ent))) 15 then ent
    else setVelX (JS.max (JS.min (X (vel ent)) maxSpd) (- maxSpd)) ent in
  let ent := setPosX (X (pos ent) + X (vel ent) * dt) ent in
  let ent := setPosY (Y (pos ent) + Y (vel ent) * dt) ent in
  let ent := set_facingRight (JS.gtb (X (vel ent)) 0) ent in
  if negb (fliesFreely ent) then
    if JS.geb (Y (pos ent) + Y (size ent)) (gY see) then landOn (gY see) ent
    else set_isGrounded false ent
  else ent.

(** Contact damage: the player touches an enemy that is not neutral. *)
Definition contactDamage (ent : Entity) (st : GameState) : GameState :=
  let p := player st in
  if checkCollision p ent && negb (isArch neutral ent) then
    if JS.leb (hitTimer p) 0 then
      let p := set_health (health p - 15) p in
      let p := set_hitTimer (INVULNERABILITY_FRAMES (PHYSICS K)) p in
      let p := setVelX ((if JS.ltb (X (pos p)) (X (pos ent)) then -(1) else 1) * 10) p in
      let p := setVelY (-(5)) p in
      let st := set_player p st in
      let st := set_hitStop 5 st in
      addScreenshake 10 st
    else st
  else st.

Definition isElite (ent : Entity) : bool :=
  match rarity ent with
  | Some elite => true
  | _ => false
  end.

(** The score that the death of [ent] awards. *)
Definition scoreAward (ent : Entity) : Q :=
  let baseScore := baseScoreFor (archetype ent) in
  if isElite ent then baseScore * 2 else baseScore.

(** Death (or the fall out of the world): the mark, the score, the loot and
    the victory. *)
Definition deathCheck (ent : Entity) (st : GameState) : Entity * GameState :=
  if JS.gtb (Y (pos ent)) (LOGICAL_HEIGHT + 300) || JS.leb (health ent) 0 then
    let ent := set_markedForDeletion true ent in
    if JS.leb (health ent) 0 then
      let st := set_score (score st + scoreAward ent) st in
      let st := addScreenshake 5 st in
      let (rand, st) := random st in
      let dropChanceWeapon := if isElite ent then 4 # 10 else 1 # 10 in
      let dropChanceHealth := if isElite ent then 5 # 10 else 25 # 100 in
      let st :=
        if JS.ltb rand dropChanceWeapon
        then spawnLoot (X (pos ent)) (Y (pos ent)) loot_weapon st
        else if JS.ltb rand dropChanceHealth
             then spawnLoot (X (pos ent)) (Y (pos ent)) loot_health st
             else st in
      let st := if isArch guardian ent
                then set_events (EvVictory (score st) (coresCollected st) :: events st) st
                else st in
      (ent, set_hitStop 3 st)
    else (ent, st)
  else (ent, st).

(** The callback of [state.enemies.forEach] at [index].  The enemy is changed
    in place: the model reads it at the start and writes it back at the end;
    what the callback appends to [state.enemies] lands behind it. *)
Definition enemyStep (dt : Q) (index : nat) (st : GameState) : GameState :=
  match nth_error (enemies st) index with
  | None => st
  | Some ent =>
      let p := player st in
      let see :=
        {| distToPlayer := hypot M (X (pos p) - X (pos ent)) (Y (pos p) - Y (pos ent));
           isPlayerLeft := JS.ltb (X (pos p)) (X (pos ent));
           gY := groundAt st (X (pos ent) + X (size ent) / 2);
           stats := statsFor (archetype ent) |} in
      let ent := setVelX (X (vel ent) * (95 # 100)) ent in
      let ent := if negb (isArch guardian ent)
                 then separation dt index 0 (enemies st) ent else ent in
      let ent := if JS.gtb (hitTimer ent) 0
                 then set_hitTimer (hitTimer ent - dt) ent else ent in
      let (ent, st) := aggroRule dt see ent st in
      let (ent, st) := archetypeAI dt see ent st in
      let ent := enemyPhysics dt see ent in
      let st := contactDamage ent st in
      let (ent, st) := deathCheck ent st in
      set_enemies (replaceAt index ent (enemies st)) st
  end.

(** [state.enemies.forEach(...)]: the enemies that are there when the loop
    starts, in order. *)
Definition enemiesPhase (dt : Q) (st : GameState) : GameState :=
  fold_left (fun st index => enemyStep dt index st) (seq 0 (length (enemies st))) st.

(** *** The frame: projectiles *)

(** The shield test of the hit resolution: a shielder in its chase stance
    blocks what comes from the side it faces; a burrowed sandworm blocks
    everything. *)
Definition damageBlocked (proj enemy : Entity) : bool :=
  let blocked :=
    if isArch shielder enemy then
      if inState chase enemy then
        let hitFromFront :=
          (facingRight enemy && JS.ltb (X (vel proj)) 0)
          || (negb (facingRight enemy) && JS.gtb (X (vel proj)) 0) in
        hitFromFront
      else false
    else false in
  if isArch sandworm enemy && isBurrowed enemy then true else blocked.

(** [WEAPONS[proj.weaponType || 'blaster']]. *)
Definition weaponOf (proj : Entity) : WeaponStats :=
  match weaponType proj with
  | Some w => WEAPONS K w
  | None => WEAPONS K blaster
  end.

(** [finalDmg]: the damage of one hit. *)
Definition finalDmg (proj : Entity) : Z :=
  let wStats := weaponOf proj in
  let baseDmg := 10 * damageMult wStats in
  JS.ceil (baseDmg * damageMultStat).

(** What a hit that is not blocked and not explosive does to the enemy. *)
Definition applyHit (proj enemy : Entity) : Entity :=
  let wStats := weaponOf proj in
  let enemy := set_health (health enemy - inject_Z (finalDmg proj)) enemy in
  let enemy := set_hitTimer 5 enemy in
  let enemy := if inState idle enemy then set_aiState (Some chase) enemy else enemy in
  let kbStrength := JS.orElse (knockback wStats) 2 in
  let angle := atan2 M (Y (vel proj)) (X (vel proj)) in
  let enemy := setVelX (X (vel enemy) + cos M angle * kbStrength) enemy in
  let enemy := setVelY (Y (vel enemy) + sin M angle * (kbStrength * (5 # 10))) enemy in
  set_isGrounded false enemy.

(** The callback of the inner [state.enemies.forEach] for a player's
    projectile: the enemy at [index] against [proj]. *)
Definition resolveHit (index : nat) (proj : Entity) (st : GameState)
  : Entity * GameState :=
  match nth_error (enemies st) index with
  | None => (proj, st)
  | Some enemy =>
      if negb (markedForDeletion enemy) && negb (markedForDeletion proj)
         && checkCollisionInflated proj enemy 8
      then
        if damageBlocked proj enemy then (set_markedForDeletion true proj, st)
        else if isExplosive proj then
          let st := spawnExplosion (X (pos proj)) (Y (pos proj)) st in
          (set_markedForDeletion true proj, st)
        else
          let st := set_enemies (replaceAt index (applyHit proj enemy) (enemies st)) st in
          if (0 <? pierceCount proj)%Z
          then (set_pierceCount (pierceCount proj - 1)%Z proj, st)
          else (set_markedForDeletion true proj, st)
      else (proj, st)
  end.

(** An enemy's projectile against the player. *)
Definition hitPlayer (proj : Entity) (st : GameState) : Entity * GameState :=
  let p := player st in
  if checkCollision proj p then
    let st :=
      if JS.leb (hitTimer p) 0 then
        let p := set_health (health p - 10) p in
        let p := set_hitTimer (INVULNERABILITY_FRAMES (PHYSICS K)) p in
        let st := set_player p st in
        let st := set_hitStop 4 st in
        addScreenshake 5 st
      else st in
    (set_markedForDeletion true proj, st)
  else (proj, st).

(** The callback of [state.projectiles.forEach]. *)
Definition projectileStep (dt : Q) (proj : Entity) (st : GameState)
  : Entity * GameState :=
  let proj :=
    match weaponType proj with
    | Some w =>
        if negb (Qeq_bool (w_gravity (WEAPONS K w)) 0)
        then setVelY (Y (vel proj) + w_gravity (WEAPONS K w) * dt) proj
        else proj
    | None => proj
    end in
  let proj := setPosX (X (pos proj) + X (vel proj) * dt) proj in
  let proj := setPosY (Y (pos proj) + Y (vel proj) * dt) proj in
  let '(proj, st) :=
    match type proj with
    | T_projectile =>
        fold_left (fun ps index => resolveHit index (fst ps) (snd ps))
                  (seq 0 (length (enemies st))) (proj, st)
    | T_enemy_projectile => hitPlayer proj st
    | _ => (proj, st)
    end in
  let proj :=
    if JS.gtb (JS.abs (X (pos proj) - X (pos (player st)))) (logicalWidth st)
    then set_markedForDeletion true proj else proj in
  let groundY := groundAt st (X (pos proj)) in
  if JS.gtb (Y (pos proj)) groundY then
    let proj := set_markedForDeletion true proj in
    if isExplosive proj then (proj, spawnExplosion (X (pos proj)) groundY st)
    else (proj, st)
  else (proj, st).

(** [state.projectiles.forEach(...)]: nothing adds a projectile meanwhile. *)
Fixpoint projectilesLoop (dt : Q) (todo done : list Entity) (st : GameState)
  : GameState :=
  match todo with
  | [] => set_projectiles done st
  | proj :: rest =>
      let (proj, st) := projectileStep dt proj st in
      projectilesLoop dt rest (done ++ [proj]) st
  end.

Definition projectilesPhase (dt : Q) (st : GameState) : GameState :=
  projectilesLoop dt (projectiles st) [] st.

(** *** The frame: loot *)

(** What picking up [item] does. *)
Definition pickUp (item : Entity) (st : GameState) : GameState :=
  match lootType item with
  | Some loot_core =>
      let st := set_coresCollected (coresCollected st + 1)%Z st in
      let st := set_score (score st + 500) st in
      let st := if (coresCollected st =? 1)%Z
                then queueMessage "Ottimo lavoro. Procedi verso il segnale successivo." st
                else st in
      let st := if (coresCollected st =? JS.floor (inject_Z (totalCoresNeeded st) / 2))%Z
                then queueMessage
                       "Livelli energia al 50%. Rilevata attività nemica in aumento." st
                else st in
      if (totalCoresNeeded st <=? coresCollected st)%Z then spawnBoss st else st
  | Some loot_weapon =>
      match weaponType item with
      | Some w => set_currentWeapon w st
      | None => st
      end
  | Some loot_health =>
      let p := player st in
      set_player (set_health (JS.min (maxHealth p) (health p + 20)) p) st
  | None => st
  end.

(** The callback of [state.loot.forEach]. *)
Definition lootStep (dt : Q) (item : Entity) (st : GameState) : Entity * GameState :=
  let item := setVelY (Y (vel item) + GRAVITY (PHYSICS K) * gravity planet * dt) item in
  let item := setPosX (X (pos item) + X (vel item) * dt) item in
  let item := setPosY (Y (pos item) + Y (vel item) * dt) item in
  let gY := groundAt st (X (pos item) + X (size item) / 2) in
  let item :=
    if existsb (fun h => HazardType_beq (htype h) lava
                         && JS.gtb (X (pos item)) (hx h)
                         && JS.ltb (X (pos item)) (hx h + width h)
                         && JS.gtb (Y (pos item)) (gY - 10)) (hazards st)
    then set_markedForDeletion true item else item in
  let item :=
    if JS.geb (Y (pos item) + Y (size item)) gY
    then setVelY 0 (setPosY (gY - Y (size item)) item) else item in
  if checkCollision (player st) item
  then (set_markedForDeletion true item, pickUp item st)
  else (item, st).

(** [state.loot.forEach(...)]: nothing adds loot meanwhile. *)
Fixpoint lootLoop (dt : Q) (todo done : list Entity) (st : GameState) : GameState :=
  match todo with
  | [] => set_loot done st
  | item :: rest =>
      let (item, st) := lootStep dt item st in
      lootLoop dt rest (done ++ [item]) st
  end.

Definition lootPhase (dt : Q) (st : GameState) : GameState :=
  lootLoop dt (loot st) [] st.

(** *** The frame: its end *)

Definition alive (e : Entity) : bool := negb (markedForDeletion e).

(** The compaction of the three collections and the frame counter. *)
Definition compact (st : GameState) : GameState :=
  let st := set_enemies (filter alive (enemies st)) st in
  let st := set_projectiles (filter alive (projectiles st)) st in
  let st := set_loot (filter alive (loot st)) st in
  set_frameCount (frameCount st + 1)%Z st.

(** Defeat. *)
Definition checkGameOver (st : GameState) : GameState :=
  if JS.leb (health (player st)) 0 then
    let st := set_isPlaying false st in
    set_events (EvGameOver (score st) (coresCollected st) :: events st) st
  else st.

(** *** [update(dt)] *)

(** The landing sequence that opens a mission. *)
Definition introStep (dt : Q) (st : GameState) : GameState :=
  let st := set_introTimer (introTimer st - dt) st in
  let p := player st in
  let p := setVelY (Y (vel p) + GRAVITY (PHYSICS K) * gravity planet * dt * 2) p in
  let p := setPosY (Y (pos p) + Y (vel p) * dt) p in
  let st := set_player p st in
  let groundY := groundAt st (X (pos p) + 16) in
  let st :=
    if JS.geb (Y (pos p) + Y (size p)) groundY then
      let p := setPosY (groundY - Y (size p)) p in
      let p := setVelY 0 p in
      let p := setVelX 0 p in
      let st := set_player p st in
      if JS.gtb (introTimer st) 60
      then addScreenshake 20 (set_introTimer 60 st) else st
    else st in
  let p := player st in
  let cam := camera st in
  let cam := set_camX ((X (pos p) + X (size p) / 2) - (logicalWidth st / 2)) cam in
  let cam := set_camY ((Y (pos p) + Y (size p) / 2) - (logicalHeight st * (6 # 10))) cam in
  set_camera cam st.

(** The frame proper, once no hit-stop and no intro holds it. *)
Definition mainStep (dt : Q) (st : GameState) : GameState :=
  let st := updateWeather dt st in
  let st := playerPhase dt st in
  let st := enemiesPhase dt st in
  let st := projectilesPhase dt st in
  let st := lootPhase dt st in
  let st := compact st in
  checkGameOver st.

(** [update(dt)].  Vegetation bending, particles, floating texts, sounds and
    the HUD snapshot are left out: nothing in the state modelled here reads
    them. *)
Definition update (dt : Q) (st : GameState) : GameState :=
  if JS.gtb (hitStop st) 0 then set_hitStop (hitStop st - 1) st
  else if JS.gtb (introTimer st) 0 then introStep dt st
  else mainStep dt st.

(** *** Map generation (the mission effect) *)

Definition segments : nat := 350.
Definition segmentWidth : Q := 50.
Definition chunkLength : Z := 80.
Definition minH : Q := 100.
Definition maxH : Q := LOGICAL_HEIGHT - 50.

(** [Math.random()] inside the generation loop. *)
Definition draw (g : GenState) : Q * GenState :=
  (rnd (g_rng g),
   mkGen (g_height g) (g_style g) (g_terrain g) (g_hazards g) (g_decorations g)
         (g_vegetation g) (S (g_rng g))).

Definition withHeight (h : Q) (g : GenState) : GenState :=
  mkGen h (g_style g) (g_terrain g) (g_hazards g) (g_decorations g) (g_vegetation g)
        (g_rng g).

Definition withStyle (s : option BiomeStyle) (g : GenState) : GenState :=
  mkGen (g_height g) s (g_terrain g) (g_hazards g) (g_decorations g) (g_vegetation g)
        (g_rng g).

Definition pushTerrain (h : Q) (g : GenState) : GenState :=
  mkGen (g_height g) (g_style g) (g_terrain g ++ [h]) (g_hazards g) (g_decorations g)
        (g_vegetation g) (g_rng g).

Definition pushHazard (h : Hazard) (g : GenState) : GenState :=
  mkGen (g_height g) (g_style g) (g_terrain g) (g_hazards g ++ [h]) (g_decorations g)
        (g_vegetation g) (g_rng g).

Definition pushDecoration (d : Decoration) (g : GenState) : GenState :=
  mkGen (g_height g) (g_style g) (g_terrain g) (g_hazards g) (g_decorations g ++ [d])
        (g_vegetation g) (g_rng g).

Definition pushVegetation (v : Vegetation) (g : GenState) : GenState :=
  mkGen (g_height g) (g_style g) (g_terrain g) (g_hazards g) (g_decorations g)
        (g_vegetation g ++ [v]) (g_rng g).

Definition styleIs (s : BiomeStyle) (g : GenState) : bool :=
  match g_style g with
  | Some t => BiomeStyle_beq s t
  | None => false
  end.

(** The choice of the biome style at the start of a chunk. *)
Definition chooseStyle (i : nat) (g : GenState) : GenState :=
  if (Z.rem (Z.of_nat i) chunkLength =? 0)%Z then
    let (r, g) := draw g in
    let biomes := allowedBiomes planet in
    withStyle (JS.index biomes (JS.floor (r * inject_Z (Z.of_nat (length biomes))))) g
  else g.

(** The height change of segment [i] in the current style. *)
Definition styleDelta (i : nat) (g : GenState) : Q * GenState :=
  match g_style g with
  | Some dunes =>
      (sin M (ofNat i * (1 # 10)) * 5 + cos M (ofNat i * (5 # 100)) * 2, g)
  | Some crags =>
      let (r, g) := draw g in ((r - (1 # 2)) * 15, g)
  | Some plateau =>
      if (Z.rem (Z.of_nat i) 15 =? 0)%Z then
        let (r, g) := draw g in
        (inject_Z (JS.floor (r * 3) - 1) * 40, g)
      else (0, g)
  | Some spire =>
      if (Z.rem (Z.of_nat i) 5 =? 0)%Z then
        let (r, g) := draw g in ((r - (1 # 2)) * 30, g)
      else
        let (r, g) := draw g in ((r - (1 # 2)) * 5, g)
  | None => (0, g)
  end.

(** The band that the height is kept in, and the nudge near its edges. *)
Definition clampHeight (height : Q) : Q :=
  let height := if JS.ltb height minH then minH else height in
  let height := if JS.gtb height maxH then maxH else height in
  let height := if JS.ltb height 150 then height + 2 else height in
  if JS.gtb height (LOGICAL_HEIGHT - 150) then height - 2 else height.

(** The hazard kind that the style asks for. *)
Definition styleHazard (g : GenState) : HazardType * GenState :=
  match g_style g with
  | Some dunes => let (r, g) := draw g in (if JS.gtb r (7 # 10) then geyser else none, g)
  | Some plateau => let (r, g) := draw g in (if JS.gtb r (8 # 10) then electric else none, g)
  | Some crags => (lava, g)
  | Some spire => let (r, g) := draw g in (if JS.gtb r (5 # 10) then acid else electric, g)
  | None => (none, g)
  end.

(** The fallback on the colours of the planet. *)
Definition colourHazard (hType : HazardType) : HazardType :=
  match hType with
  | none =>
      if includes (groundColor planet) "441111" || includes (name planet) "Lava" then lava
      else if includes (atmosphereColor planet) "0a2a0a" then acid
      else none
  | _ => hType
  end.

(** The hazard roll of segment [i]: the pit and its strip.  Returns
    [isHazard]. *)
Definition hazardRoll (i : nat) (x : Q) (g : GenState) : bool * GenState :=
  if (10 <? i)%nat && (i <? segments - 10)%nat then
    let (rand, g) := draw g in
    if JS.ltb rand (6 # 100) then
      let height := g_height g + 40 in
      let height := if JS.gtb height maxH then maxH else height in
      let g := withHeight height g in
      let (hType, g) := styleHazard g in
      let hType := colourHazard hType in
      match hType with
      | none => (false, g)
      | _ => (true, pushHazard (mkHazard x segmentWidth hType) g)
      end
    else (false, g)
  else (false, g).

(** Floor spikes on crags and ice on the spires of a cold planet. *)
Definition extraHazards (isHazard : bool) (x : Q) (g : GenState) : GenState :=
  let g :=
    if negb isHazard && styleIs crags g then
      let (r, g) := draw g in
      if JS.ltb r (1 # 10) then pushHazard (mkHazard x segmentWidth spikes) g else g
    else g in
  if negb isHazard && styleIs spire g && includes (atmosphereColor planet) "001133"
  then pushHazard (mkHazard x segmentWidth ice) g else g.

Definition placeDecoration (isHazard : bool) (x : Q) (g : GenState) : GenState :=
  if negb isHazard then
    let (r, g) := draw g in
    if JS.gtb r (85 # 100) then
      let '(dtype, g) :=
        match g_style g with
        | Some dunes => (0%Z, g)
        | Some spire => (2%Z, g)
        | Some plateau => (4%Z, g)
        | _ => let (r, g) := draw g in (if JS.gtb r (1 # 2) then 1%Z else 0%Z, g)
        end in
      let (rx, g) := draw g in
      let (rs, g) := draw g in
      pushDecoration (mkDecoration (x + rx * 40) (g_height g) dtype (rs * 10 + 5)) g
    else g
  else g.

(** The stem and the foliage of a plant, from the style and a draw. *)
Definition plantShape (style : option BiomeStyle) (rand : Q) : StemType * FoliageType :=
  match style with
  | Some dunes =>
      if JS.gtb rand (8 # 10) then (crystalline, fol_none)
      else if JS.gtb rand (6 # 10) then (cactus, fol_spikes)
      else if JS.gtb rand (3 # 10) then (twisted, fol_none)
      else (bulbous, flower)
  | Some spire =>
      if JS.gtb rand (7 # 10) then (spiral, luminescent)
      else if JS.gtb rand (4 # 10) then (shard, bulb)
      else (vine, fol_none)
  | Some plateau =>
      if JS.gtb rand (8 # 10) then (straight, giant_leaf)
      else if JS.gtb rand (5 # 10) then (segmented, canopy)
      else (straight, pods)
  | _ =>
      if includes (atmosphereColor planet) "0a2a0a" && JS.gtb rand (6 # 10)
      then (twisted, tentacles)
      else if JS.gtb rand (5 # 10) then (bulbous, weeping)
      else (twisted, fern)
  end.

Definition vegDensityOf (style : option BiomeStyle) : Q :=
  match style with
  | Some dunes => 2 # 10
  | Some spire => 3 # 10
  | Some plateau => 7 # 10
  | _ => 5 # 10
  end.

Definition placeVegetation (isHazard : bool) (x : Q) (g : GenState) : GenState :=
  let effectiveVegDensity := vegDensityOf (g_style g) * (vegetationDensity planet * (15 # 10)) in
  if negb isHazard then
    let (r, g) := draw g in
    if JS.ltb r effectiveVegDensity then
      let (rTitan, g) := draw g in
      let titan := JS.ltb rTitan (8 # 100) in
      let (rand, g) := draw g in
      let '(stem, foliage) := plantShape (g_style g) rand in
      let scaleMult := (8 # 10) + (vegetationDensity planet * (4 # 10)) in
      let (rh, g) := draw g in
      let hBase := (rh * 120 + 40) * scaleMult in
      let (rw, g) := draw g in
      let wBase := (rw * 6 + 4) * scaleMult in
      let '(hBase, wBase, stem, g) :=
        if titan then
          let (rh, g) := draw g in
          let (rw, g) := draw g in
          let stem := match stem with
                      | vine => twisted
                      | shard => straight
                      | s => s
                      end in
          (250 + rh * 200, 15 + rw * 15, stem, g)
        else (hBase, wBase, stem, g) in
      let (_, g) := draw g in
      let (_, g) := draw g in
      let (rx, g) := draw g in
      let (rSpeed, g) := draw g in
      let (rAmount, g) := draw g in
      let (rVariant, g) := draw g in
      pushVegetation
        {| v_x := x + rx * segmentWidth; v_y := 0;
           v_height := hBase + (match foliage with canopy => 40 | _ => 0 end);
           v_width := wBase; stemType := stem; foliageType := foliage;
           swaySpeed := (rSpeed * (2 # 100) + (1 # 100)) * (if titan then 5 # 10 else 1);
           swayAmount := (rAmount * 5 + 2) * (if titan then 15 # 10 else 1);
           v_variant := JS.floor (rVariant * 100); isTitan := titan;
           currentBend := 0 |} g
    else g
  else g.

(** The body of the generation loop for segment [i].  Returns [isHazard]
    with the new state. *)
Definition genSegmentFlag (i : nat) (g : GenState) : bool * GenState :=
  let x := ofNat i * segmentWidth in
  let g := chooseStyle i g in
  let (delta, g) := styleDelta i g in
  let g := withHeight (clampHeight (g_height g + delta)) g in
  let (isHazard, g) := hazardRoll i x g in
  let g := extraHazards isHazard x g in
  let g := pushTerrain (g_height g) g in
  let g := placeDecoration isHazard x g in
  (isHazard, placeVegetation isHazard x g).

Definition genSegment (i : nat) (g : GenState) : GenState := snd (genSegmentFlag i g).

(** The state of the loop after its first [n] segments, from [g0]. *)
Fixpoint genLoop (n : nat) (g0 : GenState) : GenState :=
  match n with
  | O => g0
  | S n' => genSegment n' (genLoop n' g0)
  end.

(** The variables of the loop before its first segment, the draws starting
    at [cursor]. *)
Definition genStart (cursor : nat) : GenState :=
  {| g_height := LOGICAL_HEIGHT - 150; g_style := hd_error (allowedBiomes planet);
     g_terrain := []; g_hazards := []; g_decorations := []; g_vegetation := [];
     g_rng := cursor |}.

(** Map generation: all [segments] segments. *)
Definition generateMap (cursor : nat) : GenState := genLoop segments (genStart cursor).

(** *** Mission start (the rest of the mission effect) *)

(** [getY(xPos)] of the core placement. *)
Definition getY (terrain : list Q) (xPos : Q) : Q :=
  let index := JS.floor (JS.max 0 xPos / 50) in
  match JS.index terrain (Z.min index (Z.of_nat (length terrain) - 1)) with
  | Some h => h
  | None => 0
  end.

(** [ENEMY_STATS[guardArchetype.toUpperCase()]?.hp || 30) * 2]. *)
Definition guardHp (guardArchetype : EnemyArchetype) : Q :=
  JS.orElse (hp (ENEMY_STATS K guardArchetype)) 30 * 2.

(** Core [i] of the mission and, for the tiers 2 and 3, its guard. *)
Definition placeCore (i : nat) (st : GameState) : GameState :=
  let total := inject_Z (totalCoresNeeded st) in
  let progress := (ofNat i + 1) / (total + 1) in
  let xPos := (ofNat segments * segmentWidth) * progress in
  let groundY := getY (terrain st) xPos in
  let tier := if (Z.of_nat i =? totalCoresNeeded st - 1)%Z then 3%Z
              else if JS.gtb progress (5 # 10) then 2%Z else 1%Z in
  let (rAnim, st) := random st in
  let st :=
    set_loot
      (loot st ++
       [ {| pos := mkVec xPos (groundY - 50); vel := mkVec 0 0;
            size := ENTITY_SIZE K SZ_LOOT; type := T_loot; lootType := Some loot_core;
            coreTier := Some tier; health := 1; maxHealth := 1; isGrounded := false;
            markedForDeletion := false; facingRight := true; animOffset := rAnim * 100;
            hitTimer := 0;
            fuel := None; maxFuel := None; coyoteTimer := None; archetype := None;
            aiState := None; attackTimer := None; alertTimer := None; rarity := None;
            isBurrowed := false; shieldHp := 0; weaponType := None; pierceCount := 0;
            isExplosive := false |} ]) st in
  if (2 <=? tier)%Z then
    let (r, st) := random st in
    let guardArchetype := if JS.gtb r (5 # 10) then sentinel else dasher in
    let gsize := match guardArchetype with
                 | sentinel => ENTITY_SIZE K SZ_SENTINEL
                 | _ => ENTITY_SIZE K SZ_DASHER
                 end in
    let ghp := guardHp guardArchetype in
    set_enemies
      (enemies st ++
       [ {| pos := mkVec (xPos + 100) (groundY - 100); vel := mkVec 0 0;
            size := mkVec (X gsize * (13 # 10)) (Y gsize * (13 # 10)); type := T_enemy;
            health := ghp; maxHealth := ghp; isGrounded := false;
            markedForDeletion := false; facingRight := false; animOffset := 0;
            archetype := Some guardArchetype; rarity := Some elite;
            aiState := Some idle; alertTimer := Some 0; hitTimer := 0;
            fuel := None; maxFuel := None; coyoteTimer := None; attackTimer := None;
            isBurrowed := false; shieldHp := 0; lootType := None; coreTier := None;
            weaponType := None; pierceCount := 0; isExplosive := false |} ]) st
  else st.

(** The mission effect: the reset of the state, the map and the cores.  What
    the effect does not assign ([camera], [mouse], [aimAngle], [jumpLock], the
    logical size) stays as in [st]; the celestial bodies, the background
    layers and the stars are read by drawing only and are not modelled. *)
Definition startMission (st : GameState) : GameState :=
  let p := player st in
  let p := {| pos := mkVec 100 (-(200)); vel := mkVec 0 0; size := size p;
              type := type p; health := maxHealthStat; maxHealth := maxHealthStat;
              isGrounded := isGrounded p; markedForDeletion := markedForDeletion p;
              facingRight := facingRight p; animOffset := animOffset p;
              hitTimer := hitTimer p; fuel := Some maxFuelBase;
              maxFuel := Some maxFuelBase; coyoteTimer := Some 0;
              archetype := archetype p; aiState := aiState p;
              attackTimer := attackTimer p; alertTimer := alertTimer p;
              rarity := rarity p; isBurrowed := isBurrowed p; shieldHp := shieldHp p;
              lootType := lootType p; coreTier := coreTier p;
              weaponType := weaponType p; pierceCount := pierceCount p;
              isExplosive := isExplosive p |} in
  let g := generateMap (rngPos st) in
  let st :=
    {| player := p; currentWeapon := blaster; weaponCooldown := 0;
       enemies := []; projectiles := []; loot := []; camera := camera st;
       hazards := g_hazards g; keys := fun _ => false;
       touchInput := mkTouch (mkStick false 0 0) (mkStick false 0 0) false;
       mouse := mouse st; aimAngle := aimAngle st; score := 0; coresCollected := 0%Z;
       totalCoresNeeded := (4 + JS.floor (enemyDensity planet / (25 # 10)))%Z;
       frameCount := 0%Z; terrain := g_terrain g; isPlaying := true;
       bossActive := false; jumpLock := jumpLock st; introTimer := 180;
       lookDownTimer := 0%Z; logicalWidth := logicalWidth st;
       logicalHeight := logicalHeight st; messageQueue := [];
       nextSquadSpawnX := 800; timeOfDay := 15 # 100; weatherState := ws_clear;
       currentWeather := clear; weatherIntensity := 0; weatherTimer := 400;
       hitStop := 0; rngPos := g_rng g; events := events st |} in
  fold_left (fun st i => placeCore i st) (seq 0 (Z.to_nat (totalCoresNeeded st))) st.

(** The state that the component is mounted with (the argument of
    [useRef]). *)
Definition mountState : GameState :=
  {| player :=
       {| pos := mkVec 100 100; vel := mkVec 0 0; size := ENTITY_SIZE K SZ_PLAYER;
          type := T_player; health := maxHealthStat; maxHealth := maxHealthStat;
          fuel := Some maxFuelBase; maxFuel := Some maxFuelBase; isGrounded := false;
          markedForDeletion := false; facingRight := true; animOffset := 0;
          hitTimer := 0; coyoteTimer := Some 0;
          archetype := None; aiState := None; attackTimer := None; alertTimer := None;
          rarity := None; isBurrowed := false; shieldHp := 0; lootType := None;
          coreTier := None; weaponType := None; pierceCount := 0;
          isExplosive := false |};
     currentWeapon := blaster; weaponCooldown := 0; enemies := []; projectiles := [];
     loot := []; camera := mkCamera 0 0 0 0; hazards := []; keys := fun _ => false;
     touchInput := mkTouch (mkStick false 0 0) (mkStick false 0 0) false;
     mouse := mkMouse 400 300 false; aimAngle := 0; score := 0;
     coresCollected := 0%Z; totalCoresNeeded := 5%Z; frameCount := 0%Z; terrain := [];
     isPlaying := true; bossActive := false; jumpLock := false; introTimer := 200;
     lookDownTimer := 0%Z; logicalWidth := 800; logicalHeight := 600;
     messageQueue := []; nextSquadSpawnX := 800; timeOfDay := 1 # 10;
     weatherState := ws_clear; currentWeather := clear; weatherIntensity := 0;
     weatherTimer := 600; hitStop := 0; rngPos := O; events := [] |}.

(** The state at the start of the first mission. *)
Definition missionStart : GameState := startMission mountState.

(** *** The frame loop and what happens between two frames *)

(** [loop(time)]: one animation frame, [dt] being [(time - lastTime) / 16.66].
    The loop stops for good once [isPlaying] is off. *)
Definition loopFrame (dt : Q) (st : GameState) : GameState :=
  if isPlaying st then update (if JS.gtb dt 4 then 1 else dt) st else st.

(** What can happen to the state: a frame, the input handlers (keys, touch,
    mouse), the resize handler and the radio timer, which takes the first
    message off the queue. *)
Inductive Action : Type :=
  | Frame (dt : Q)
  | Keys (k : String.string -> bool)
  | Touch (t : TouchInput)
  | MouseInput (m : Mouse)
  | Resize (w h : Q)
  | Radio.

Definition act (st : GameState) (a : Action) : GameState :=
  match a with
  | Frame dt => loopFrame dt st
  | Keys k => set_keys k st
  | Touch t => set_touchInput t st
  | MouseInput m => set_mouse m st
  | Resize w h => set_logicalHeight h (set_logicalWidth w st)
  | Radio => set_messageQueue (tl (messageQueue st)) st
  end.

(** A mission: the actions in order, from the start of the mission. *)
Definition mission (actions : list Action) : GameState := fold_left act actions missionStart.

(** The order of the weather phases. *)
Definition nextPhase (p : WeatherPhase) : WeatherPhase :=
  match p with
  | ws_clear => ws_buildup
  | ws_buildup => ws_active
  | ws_active => ws_fading
  | ws_fading => ws_clear
  end.

(** How often the boss was spawned so far. *)
Definition bossSpawns (st : GameState) : nat :=
  length (filter (fun e => match e with EvBossSpawn => true | _ => false end) (events st)).

End Engine.

(** ** Observations that the properties are stated with *)

(** The style that segment [i] is generated in (the draws starting at
    [cursor]). *)
Definition styleOfSegment (E : Env) (cursor i : nat) : option BiomeStyle :=
  g_style (genLoop E (S i) (genStart E cursor)).

(** The largest height change that the delta rule of a style can ask for:
    [5 + 2] on dunes, [15 / 2] on crags, [40] on a plateau, [30 / 2] on
    spires, none without a style. *)
Definition styleMaxDelta (style : option BiomeStyle) : Q :=
  match style with
  | Some dunes => 7
  | Some crags => 15 # 2
  | Some plateau => 40
  | Some spire => 15
  | None => 0
  end.

(** The height stays in the band. *)
Definition inBand (h : Q) : Prop := minH <= h <= maxH.

(** A planet without weather volatility has a clear sky. *)
Definition calm (E : Env) (st : GameState) : Prop :=
  JS.gtb (weatherVolatility (env_planet E)) 0 = false -> weatherState st = ws_clear.

(** A clear sky: the phase and the kind of weather. *)
Definition clearSky (st : GameState) : Prop :=
  weatherState st = ws_clear /\ currentWeather st = clear.

(** [difficultyMult] of [spawnEnemy]. *)
Definition difficultyMult (E : Env) : Q := 1 + enemyDensity (env_planet E) * (5 # 100).

(** The health that [spawnEnemy] gives a common enemy of an archetype. *)
Definition commonHealth (E : Env) (a : EnemyArchetype) : Q :=
  inject_Z (JS.floor (hp (spawnStatsOf E a) * difficultyMult E)).

(** The score that a common enemy of an archetype awards. *)
Definition commonScore (E : Env) (a : EnemyArchetype) : Q := baseScoreFor E (Some a).


(** A shot comes from the side that the enemy faces. *)
Definition frontal (proj enemy : Entity) : Prop :=
  (facingRight enemy = true /\ X (vel proj) < 0) \/
  (facingRight enemy = false /\ 0 < X (vel proj)).


(** What the boss trigger depends on. *)
Definition bossView (E : Env) (st : GameState) : bool * Z * Z * nat :=
  (bossActive st, coresCollected st, totalCoresNeeded st, bossSpawns st).

(** The boss is active exactly when it was spawned, which was once and when
    the cores were complete. *)
Definition bossInvOf (v : bool * Z * Z * nat) : Prop :=
  let '(bossActive, cores, total, spawns) := v in
  (0 <= cores)%Z /\
  ((bossActive = false /\ spawns = 0%nat /\ (cores < total \/ cores = 0)%Z) \/
   (bossActive = true /\ spawns = 1%nat /\ (total <= cores)%Z /\ (1 <= cores)%Z)).

Definition bossInv (E : Env) (st : GameState) : Prop := bossInvOf (bossView E st).

(** *** The properties as the specification words them *)

(** "Consecutive height samples differ by at most the style-specific maximum
    delta", for the samples [i] and [i + 1]. *)
Definition WithinStyleDelta (E : Env) (cursor i : nat) : Prop :=
  let T := g_terrain (generateMap E cursor) in
  Qabs (nth (S i) T 0 - nth i T 0) <= styleMaxDelta (styleOfSegment E cursor (S i)).

(** "Placing a hazard strip of any kind on a segment short-circuits vegetation
    placement for that segment." *)
Definition HazardExcludesVegetation (E : Env) (i : nat) (g : GenState) : Prop :=
  g_hazards (genSegment E i g) <> g_hazards g ->
  g_vegetation (genSegment E i g) = g_vegetation g.

(** "World generation falls back to a default biome set": segment [i] is
    generated in some biome. *)
Definition UsesSomeBiome (E : Env) (cursor i : nat) : Prop :=
  exists b, styleOfSegment E cursor i = Some b.

(** "An elite enemy has at least 2 times the health and at least 2 times the
    score award of a common enemy of the same archetype at the same
    density." *)
Definition EliteAtLeastDouble (E : Env) (e : Entity) : Prop :=
  forall a, archetype e = Some a -> rarity e = Some elite ->
            2 * commonHealth E a <= health e /\ 2 * commonScore E a <= scoreAward E e.

(** "A frontal hit is blocked while the shielder is in its stationary,
    non-chase stance, and takes full damage in its chase stance", for the
    enemy at [index]. *)
Definition StationaryStanceBlocks (E : Env) (index : nat) (proj : Entity) (st : GameState)
  : Prop :=
  forall enemy, nth_error (enemies st) index = Some enemy ->
    (aiState enemy <> Some chase ->
     markedForDeletion (fst (resolveHit E index proj st)) = true /\
     enemies (snd (resolveHit E index proj st)) = enemies st) /\
    (aiState enemy = Some chase ->
     exists enemy', nth_error (enemies (snd (resolveHit E index proj st))) index
                    = Some enemy' /\
                    health enemy' == health enemy - inject_Z (finalDmg E proj)).


(** *** A frame of zero length *)

(** Where the player is and how large. *)
Definition body (st : GameState) : Vector2 * Vector2 := (pos (player st), size (player st)).

(** The player's feet are on the ground or above it. *)
Definition onOrAboveGround (st : GameState) : Prop :=
  Y (pos (player st)) + Y (size (player st)) <= groundAt st (X (pos (player st)) + 16).

(** Equality of two vectors, of two entities in position and velocity, and of
    two collections entity by entity. *)
Definition sameVec (a b : Vector2) : Prop := X a == X b /\ Y a == Y b.

Definition sameMotion (a b : Entity) : Prop :=
  sameVec (pos a) (pos b) /\ sameVec (vel a) (vel b) /\ hitTimer a == hitTimer b.

(** "Calling update with dt = 0 leaves all entity positions, all entity
    velocities and all timers unchanged." *)
Definition UnchangedByZeroStep (E : Env) (st : GameState) : Prop :=
  let st' := update E 0 st in
  hitStop st' == hitStop st /\
  introTimer st' == introTimer st /\
  weaponCooldown st' == weaponCooldown st /\
  weatherTimer st' == weatherTimer st /\
  sameMotion (player st') (player st) /\
  Forall2 sameMotion (enemies st') (enemies st) /\
  Forall2 sameMotion (projectiles st') (projectiles st) /\
  Forall2 sameMotion (loot st') (loot st).
(** ** Worked examples: an environment

    The theorems hold for every environment.  The examples below need one:
    the emergency planet of the planet service (its [catch] branch), sample
    values for the constants, an angle of [0] for every direction, and
    constant streams of draws. *)

Definition samplePhysics : PhysicsT :=
  {| GRAVITY := 1 # 2; PLAYER_SPEED := 1; MAX_SPEED := 6; FRICTION := 8 # 10;
     AIR_FRICTION := 95 # 100; COYOTE_FRAMES := 6; JUMP_FORCE := 12;
     JETPACK_FORCE := 1; JETPACK_FUEL_CONSUMPTION := 1;
     JETPACK_FUEL_RECHARGE := 1 # 2; INVULNERABILITY_FRAMES := 60;
     PROJECTILE_SPEED := 12 |}.

Definition sampleSize (k : SizeKey) : Vector2 :=
  match k with
  | SZ_GUARDIAN => mkVec 96 96
  | SZ_PROJECTILE | SZ_ENEMY_PROJECTILE => mkVec 8 8
  | SZ_LOOT | SZ_WEAPON_DROP | SZ_HEALTH_DROP => mkVec 24 24
  | _ => mkVec 32 32
  end.

Definition sampleEnemyStats (a : EnemyArchetype) : EnemyStat :=
  match a with
  | crawler => mkEnemyStat 30 100 2 300 0 0
  | sentinel => mkEnemyStat 40 200 (3 # 2) 400 300 0
  | dasher => mkEnemyStat 50 250 2 350 0 8
  | hornet => mkEnemyStat 20 150 3 350 0 0
  | guardian => mkEnemyStat 1000 5000 1 0 0 0
  | neutral => mkEnemyStat 10 0 1 0 0 0
  | sandworm => mkEnemyStat 100 500 0 400 0 0
  | shielder => mkEnemyStat 80 300 1 400 0 0
  | spore => mkEnemyStat 15 50 0 200 0 0
  end.

Definition sampleWeapons (w : WeaponType) : WeaponStats :=
  match w with
  | blaster => mkWeaponStats 1 15 12 1 0 1 false 0 0 2
  | scatter => mkWeaponStats (6 # 10) 40 10 5 (1 # 2) 4 false 0 0 3
  | rapid => mkWeaponStats (4 # 10) 5 14 1 (1 # 10) (1 # 2) false 0 0 1
  | sniper => mkWeaponStats 4 60 25 1 0 6 false 0 3 8
  | launcher => mkWeaponStats 3 70 8 1 0 5 true (2 # 10) 0 10
  end.

Definition sampleConstants : Constants :=
  mkConstants samplePhysics sampleSize sampleEnemyStats sampleWeapons.

(** Every direction is the angle [0]; the distance is the larger of the two
    offsets. *)
Definition sampleMath : MathLib :=
  {| sin := fun _ => 0; cos := fun _ => 1; atan2 := fun _ _ => 0;
     hypot := fun a b => Qmax (Qabs a) (Qabs b); PI := 355 # 113 |}.

(** The planet that [generatePlanet] returns when the request fails. *)
Definition emergencyPlanet : PlanetData :=
  {| name := "LV-426 (Simulation)"; gravity := 8 # 10; atmosphereColor := "#1a1a2e";
     groundColor := "#4e4e50"; enemyColor := "#e94560"; floraColor := "#00ff00";
     enemyDensity := 5; rareLootChance := 2 # 10; allowedBiomes := [crags];
     weatherTraits := [acid_rain; clear]; vegetationDensity := 3 # 10;
     weatherVolatility := 5 # 10 |}.

(** The same planet with no biome and no weather trait. *)
Definition barePlanet : PlanetData :=
  {| name := "LV-426 (Simulation)"; gravity := 8 # 10; atmosphereColor := "#1a1a2e";
     groundColor := "#4e4e50"; enemyColor := "#e94560"; floraColor := "#00ff00";
     enemyDensity := 5; rareLootChance := 2 # 10; allowedBiomes := [];
     weatherTraits := []; vegetationDensity := 3 # 10;
     weatherVolatility := 5 # 10 |}.

Definition baseUpgrades : PlayerUpgrades := mkUpgrades 1 1 1 1.

(** The environment with every draw equal to [r]. *)
Definition sampleEnv (p : PlanetData) (r : Q) : Env :=
  mkEnv sampleConstants sampleMath (fun _ => r) p baseUpgrades.

(** An enemy of an archetype in a stance, 32 by 32, facing left. *)
Definition sampleEnemy (a : EnemyArchetype) (s : AiState) (x y hitPoints : Q) : Entity :=
  {| pos := mkVec x y; vel := mkVec 0 0; size := mkVec 32 32; type := T_enemy;
     health := hitPoints; maxHealth := hitPoints; isGrounded := true;
     markedForDeletion := false; facingRight := false; animOffset := 0; hitTimer := 0;
     fuel := None; maxFuel := None; coyoteTimer := None; archetype := Some a;
     aiState := Some s; attackTimer := Some 100; alertTimer := Some 0;
     rarity := Some common; isBurrowed := false; shieldHp := 0; lootType := None;
     coreTier := None; weaponType := None; pierceCount := 0; isExplosive := false |}.

(** A blaster shot that flies to the right. *)
Definition sampleShot (x y : Q) : Entity :=
  {| pos := mkVec x y; vel := mkVec 12 0; size := mkVec 8 8; type := T_projectile;
     health := 1; maxHealth := 1; isGrounded := false; markedForDeletion := false;
     facingRight := true; animOffset := 0; hitTimer := 0;
     fuel := None; maxFuel := None; coyoteTimer := None; archetype := None;
     aiState := None; attackTimer := None; alertTimer := None; rarity := None;
     isBurrowed := false; shieldHp := 0; lootType := None; coreTier := None;
     weaponType := Some blaster; pierceCount := 0; isExplosive := false |}.

(** The mounted state with one enemy in it. *)
Definition arena (E : Env) (e : Entity) : GameState := set_enemies [e] (mountState E).


(** A mission on the emergency planet, every draw equal to 1/2 (flat ground
    at 450, no hazard): ten frames of fall, fifteen more to the end of the
    intro, then the mouse button goes down. *)
Definition landedAndFiring : GameState :=
  mission (sampleEnv emergencyPlanet (1 # 2))
          (repeat (Frame 4) 25 ++ [MouseInput (mkMouse 400 300 true)]).
(** *** The score and the player *)

(** What the combat of a frame works on besides the collections. *)
Definition tally (st : GameState) : Q * Entity := (score st, player st).

(** The [dt] that [loop] hands to [update]. *)
Definition frameLength (dt : Q) : Q := if JS.gtb dt 4 then 1 else dt.

(** The frames of a list of actions have a length with the property [ok]. *)
Definition framesAre (ok : Q -> Prop) (actions : list Action) : Prop :=
  Forall (fun a => match a with Frame dt => ok (frameLength dt) | _ => True end) actions.

(** The health of the player is within the maximum that the hull upgrade
    gives. *)
Definition withinMaxHealth (E : Env) (p : Entity) : Prop :=
  maxHealth p = maxHealthStat E /\ health p <= maxHealthStat E.

(** The health and the maximum health of the player. *)
Definition vitals (st : GameState) : Q * Q := (health (player st), maxHealth (player st)).

(** *** Observations of a run *)

(** How often the defeat was reported so far. *)
Definition gameOvers (st : GameState) : nat :=
  length (filter (fun e => match e with EvGameOver _ _ => true | _ => false end)
                 (events st)).

(** Everything that a frame can change. *)
Definition world (st : GameState)
  : Entity * list Entity * list Entity * list Entity * Q * Z * Z * list Event :=
  (player st, enemies st, projectiles st, loot st, score st, coresCollected st,
   frameCount st, events st).

(** No entity of the three collections is marked for deletion. *)
Definition noneMarked (st : GameState) : Prop :=
  Forall (fun e => markedForDeletion e = false) (enemies st) /\
  Forall (fun e => markedForDeletion e = false) (projectiles st) /\
  Forall (fun e => markedForDeletion e = false) (loot st).

(** The three collections. *)
Definition collections (st : GameState) : list Entity * list Entity * list Entity :=
  (enemies st, projectiles st, loot st).

(** The number of frames in a list of actions. *)
Definition frameCountOf (actions : list Action) : nat :=
  length (filter (fun a => match a with Frame _ => true | _ => false end) actions).

(** Whether the loop runs and how often the defeat was reported. *)
Definition verdict (st : GameState) : bool * nat := (isPlaying st, gameOvers st).

(** The loop runs and no defeat was reported, or the loop has stopped on the
    one defeat that was reported, with the player at no health. *)
Definition defeatInv (st : GameState) : Prop :=
  (isPlaying st = true /\ gameOvers st = 0%nat) \/
  (isPlaying st = false /\ gameOvers st = 1%nat /\ health (player st) <= 0).

(** What the landing sequence leaves alone: the collections, the score, the
    cores, the frame counter, the weapon and its cooldown, the weather, the
    draws, and the health and the abscissa of the player. *)
Definition beyondLanding (st : GameState) :=
  (enemies st, projectiles st, loot st, score st, coresCollected st, frameCount st,
   (currentWeapon st, weaponCooldown st, weatherState st, currentWeather st,
    weatherTimer st, rngPos st, isPlaying st, hitStop st),
   (health (player st), X (pos (player st)))).

(** The landing is on and the loop runs it. *)
Definition landingRuns (st : GameState) : Prop :=
  0 < introTimer st -> hitStop st <= 0 /\ isPlaying st = true.

(** The phase and the kind of the weather. *)
Definition sky (st : GameState) : WeatherPhase * WeatherType :=
  (weatherState st, currentWeather st).

(** The kind of weather is one that the planet lists, or clear; and it is
    clear while the phase is. *)
Definition skyOf (p : PlanetData) (s : WeatherPhase * WeatherType) : Prop :=
  (snd s = clear \/ In (snd s) (weatherTraits p)) /\ (fst s = ws_clear -> snd s = clear).

(** An environment for a mission that is lost at once: a hull level of -3
    gives a maximum health of 0 (the engine takes the level as it comes). *)
Definition noHullEnv : Env :=
  mkEnv sampleConstants sampleMath (fun _ => 1 # 2) emergencyPlanet
        (mkUpgrades (-(3)) 1 1 1).

(** *** The enemies of a run *)

(** What nothing assigns once an entity is made. *)
Definition identity (e : Entity)
  : option EnemyArchetype * bool * option Rarity * Q * Vector2 * EntityType :=
  (archetype e, isBurrowed e, rarity e, maxHealth e, size e, type e).

(** How often the victory was reported so far. *)
Definition victories (st : GameState) : nat :=
  length (filter (fun e => match e with EvVictory _ _ => true | _ => false end)
                 (events st)).

(** A sandworm is burrowed. *)
Definition burrowedIfSandworm (e : Entity) : Prop :=
  archetype e = Some sandworm -> isBurrowed e = true.

(** An enemy other than the guardian. *)
Definition notGuardian (e : Entity) : Prop := archetype e <> Some guardian.

(** The guardian is active, or no enemy is a guardian and no victory was
    reported. *)
Definition beforeBoss (st : GameState) : Prop :=
  bossActive st = true \/
  (Forall notGuardian (enemies st) /\ victories st = 0%nat).

(** ** The planet generator ([services/planetGenerator.ts])

    The generator draws from [Math.random()] many times in a row: the draws
    are threaded through a small state monad over the read position of the
    stream.  The [description] of a planet is a text that only the hangar
    shows: it takes no draw and is not modelled. *)

Module PlanetGenerator.

(** A computation that reads draws from the stream [rnd], from a position
    on, and returns the position behind its last draw. *)
Definition Draws (A : Type) : Type := (nat -> Q) -> nat -> A * nat.

Definition ret {A : Type} (a : A) : Draws A := fun _ n => (a, n).

Definition bind {A B : Type} (m : Draws A) (k : A -> Draws B) : Draws B :=
  fun rnd n => let (a, n') := m rnd n in k a rnd n'.

Notation "x <- m ;; k" := (bind m (fun x => k))
  (at level 61, m at next level, right associativity).

(** [Math.random()]. *)
Definition random : Draws Q := fun rnd n => (rnd n, S n).

Definition PREFIXES : list String.string :=
  ["Xen"; "Kry"; "Vor"; "Zan"; "Glar"; "Iso"; "Neo"; "Proxi"; "Vex"; "Tar"]%string.

Definition SUFFIXES : list String.string :=
  ["os"; "on"; "ia"; "us"; "prime"; "terra"; "9"; "IV"; "X"; "V"]%string.

(** The third part of a planet's name. *)
Definition EPITHETS : list String.string :=
  ["Alpha"; "Beta"; "Gamma"; "Omicron"; ""]%string.

(** [BiomeTemplate], without its [description]. *)
Record BiomeTemplate : Type := mkTemplate {
  t_type : String.string;
  t_atmosphere : list String.string;
  t_ground : list String.string;
  t_enemy : String.string;
  t_flora : list String.string;
  allowedStyles : list BiomeStyle;
  probableWeather : list WeatherType;
  baseVegDensity : Q;
  baseWeatherVol : Q
}.

Definition BIOMES : list BiomeTemplate :=
  [ mkTemplate "Volcanic" ["#330000"; "#550000"; "#2a1a1a"]%string
      ["#441111"; "#220000"; "#552200"]%string "#ffaa00"
      ["#880000"; "#333333"; "#ff5500"]%string
      [crags; plateau] [ash; clear] (1 # 10) (7 # 10);
    mkTemplate "Toxic" ["#0a2a0a"; "#001100"; "#1a331a"]%string
      ["#2a4a2a"; "#1a2a1a"; "#335533"]%string "#00ff00"
      ["#ccff00"; "#aa00ff"; "#00ffcc"]%string
      [plateau; spire; dunes] [acid_rain; clear] (4 # 10) (6 # 10);
    mkTemplate "Ice" ["#001133"; "#002244"; "#aaeeff"]%string
      ["#ccffff"; "#aaddff"; "#eeffff"]%string "#0099ff"
      ["#ffffff"; "#aaddff"; "#88aaff"]%string
      [spire; crags; plateau] [snow; clear] (2 # 10) (5 # 10);
    mkTemplate "Desert" ["#443311"; "#664422"; "#ffeecc"]%string
      ["#ccaa66"; "#aa8844"; "#eedd99"]%string "#aa4400"
      ["#665533"; "#446622"; "#aa8822"]%string
      [dunes; plateau; crags] [sandstorm; clear] (15 # 100) (4 # 10);
    mkTemplate "Void" ["#000000"; "#110022"; "#220033"]%string
      ["#333333"; "#222222"; "#440044"]%string "#ff00ff"
      ["#4400aa"; "#222222"; "#ff0088"]%string
      [spire; plateau] [rain; clear] (3 # 10) (3 # 10) ].

(** What a read outside an array of templates gives ([undefined]). *)
Definition noTemplate : BiomeTemplate := mkTemplate "" [] [] "" [] [] [] 0 0.

(** [randInt(min, max)]. *)
Definition randInt (min max : Z) : Draws Z :=
  r <- random ;; ret (JS.floor (r * inject_Z (max - min + 1)) + min)%Z.

(** [pick(arr)]; [d] stands for [undefined]. *)
Definition pick {A : Type} (d : A) (arr : list A) : Draws A :=
  r <- random ;; ret (pickAt d arr r).

(** [clamp(num, min, max)]. *)
Definition clamp (num min max : Q) : Q := JS.min (JS.max num min) max.

(** [parseFloat(x.toFixed(2))]: the nearest multiple of a hundredth, the
    larger one of two that are equally near. *)
Definition toFixed2 (x : Q) : Q := inject_Z (JS.floor (x * 100 + (1 # 2))) / 100.

(** [s.toLowerCase()] on the letters A to Z. *)
Definition lowerChar (c : Ascii.ascii) : Ascii.ascii :=
  let n := Ascii.nat_of_ascii c in
  if ((65 <=? n) && (n <=? 90))%nat then Ascii.ascii_of_nat (n + 32) else c.

Fixpoint toLowerCase (s : String.string) : String.string :=
  match s with
  | String.EmptyString => String.EmptyString
  | String.String c rest => String.String (lowerChar c) (toLowerCase rest)
  end.

(** [s.trim()] for the blank that can end (or open) a name. *)
Definition isBlank (c : Ascii.ascii) : bool := Ascii.eqb c (Ascii.ascii_of_nat 32).

Fixpoint trimStart (s : String.string) : String.string :=
  match s with
  | String.String c rest => if isBlank c then trimStart rest else s
  | String.EmptyString => s
  end.

Fixpoint trimEnd (s : String.string) : String.string :=
  match s with
  | String.EmptyString => String.EmptyString
  | String.String c rest =>
      match trimEnd rest with
      | String.EmptyString => if isBlank c then String.EmptyString
                              else String.String c String.EmptyString
      | rest' => String.String c rest'
      end
  end.

Definition trim (s : String.string) : String.string := trimEnd (trimStart s).

(** [Array.from(new Set(arr))]: the first occurrence of each element, in
    order. *)
Fixpoint uniqueFrom (seen arr : list WeatherType) : list WeatherType :=
  match arr with
  | [] => []
  | w :: rest =>
      if existsb (WeatherType_beq w) seen then uniqueFrom seen rest
      else w :: uniqueFrom (w :: seen) rest
  end.

Definition unique (arr : list WeatherType) : list WeatherType := uniqueFrom [] arr.

Definition isType (a b : String.string) (t : BiomeTemplate) : bool :=
  String.eqb (t_type t) a || String.eqb (t_type t) b.

(** The templates that a planet at [indexInSystem] can have: hot ones next to
    the star, cold ones far out. *)
Definition validTemplatesFor (indexInSystem : Z) : list BiomeTemplate :=
  let validTemplates :=
    if (indexInSystem =? 0)%Z then filter (isType "Volcanic" "Desert") BIOMES
    else if (2 <? indexInSystem)%Z then filter (isType "Ice" "Void") BIOMES
    else BIOMES in
  if (length validTemplates =? 0)%nat then BIOMES else validTemplates.

(** A planet with the properties that the star map reads. *)
Record SystemPlanet : Type := mkSystemPlanet {
  planetData : PlanetData;
  template : BiomeTemplate;
  orbitRadius : Q;
  orbitSpeed : Q;
  mapSize : Q
}.

(** [generateSinglePlanet(indexInSystem)]. *)
Definition generateSinglePlanet (indexInSystem : Z) : Draws SystemPlanet :=
  prefix <- pick ""%string PREFIXES ;;
  suffix <- pick ""%string SUFFIXES ;;
  epithet <- pick ""%string EPITHETS ;;
  let name :=
    trim (String.append prefix
            (String.append (toLowerCase suffix) (String.append " " epithet))) in
  template <- pick noTemplate (validTemplatesFor indexInSystem) ;;
  rGravity <- random ;;
  let gravity := toFixed2 (rGravity * (55 # 100) + (85 # 100)) in
  enemyDensity <- randInt 2 9 ;;
  rLoot <- random ;;
  let rareLootChance := toFixed2 rLoot in
  rVeg <- random ;;
  let vegDensity := clamp (baseVegDensity template + (rVeg * (4 # 10) - (2 # 10))) 0 1 in
  rLush <- random ;;
  let vegDensity := if JS.ltb rLush (15 # 100) then JS.min 1 (vegDensity + (5 # 10))
                    else vegDensity in
  rVol <- random ;;
  let weatherVol := clamp (baseWeatherVol template + (rVol * (4 # 10) - (2 # 10))) 0 1 in
  rCalm <- random ;;
  let weatherVol := if JS.ltb rCalm (2 # 10) then 0 else weatherVol in
  rClear <- random ;;
  let weatherTraits :=
    if JS.ltb rClear (3 # 10) then probableWeather template ++ [clear]
    else probableWeather template in
  atmosphereColor <- pick ""%string (t_atmosphere template) ;;
  groundColor <- pick ""%string (t_ground template) ;;
  floraColor <- pick ""%string (t_flora template) ;;
  rSpeed <- random ;;
  rSize <- random ;;
  ret {| planetData :=
           {| name := name; gravity := gravity; atmosphereColor := atmosphereColor;
              groundColor := groundColor; enemyColor := t_enemy template;
              floraColor := floraColor; enemyDensity := inject_Z enemyDensity;
              rareLootChance := rareLootChance;
              allowedBiomes := allowedStyles template;
              weatherTraits := unique weatherTraits;
              vegetationDensity := toFixed2 vegDensity;
              weatherVolatility := toFixed2 weatherVol |};
         template := template;
         orbitRadius := 60 + inject_Z indexInSystem * 40;
         orbitSpeed := (5 # 10000) + rSpeed * (1 # 1000) - inject_Z indexInSystem * (1 # 10000);
         mapSize := 10 + rSize * 10 |}.

(** The loop of [generateStarSystem]: the planets [i], [i + 1], ... *)
Fixpoint planetsFrom (i : Z) (count : nat) : Draws (list SystemPlanet) :=
  match count with
  | O => ret []
  | S count' =>
      p <- generateSinglePlanet i ;;
      rest <- planetsFrom (i + 1) count' ;;
      ret (p :: rest)
  end.

(** [generateStarSystem()], without the delay of the scan. *)
Definition generateStarSystem : Draws (list SystemPlanet) :=
  count <- randInt 3 5 ;; planetsFrom 0 (Z.to_nat count).

(** [generatePlanet()]: one planet, anywhere in a system. *)
Definition generatePlanet : Draws SystemPlanet :=
  i <- randInt 0 4 ;; generateSinglePlanet i.

(** What the templates have in common: some style, and a weather list of
    one kind of bad weather and clear. *)
Definition templateOk (t : BiomeTemplate) : Prop :=
  allowedStyles t <> [] /\
  t_atmosphere t <> [] /\ t_ground t <> [] /\ t_flora t <> [] /\
  0 <= baseVegDensity t <= 1 /\ 0 <= baseWeatherVol t <= 1 /\
  unique (probableWeather t) = probableWeather t /\
  unique (probableWeather t ++ [clear]) = probableWeather t /\
  In clear (probableWeather t) /\ NoDup (probableWeather t).

(** What the engine needs of a planet: a style to generate in, clear among
    the weather traits and no trait twice, and numbers within their
    ranges. *)
Definition wellFormed (p : PlanetData) : Prop :=
  allowedBiomes p <> [] /\
  In clear (weatherTraits p) /\ NoDup (weatherTraits p) /\
  (exists d : Z, enemyDensity p = inject_Z d /\ (2 <= d <= 9)%Z) /\
  (85 # 100) <= gravity p <= (140 # 100) /\
  0 <= rareLootChance p <= 1 /\
  0 <= vegetationDensity p <= 1 /\
  0 <= weatherVolatility p <= 1.

End PlanetGenerator.

(** *** The start of a mission *)

(** The current style of the generator is one of the planet's. *)
Definition styled (E : Env) (g : GenState) : Prop :=
  exists b, g_style g = Some b /\ In b (allowedBiomes (env_planet E)).

(** The width of the map: 350 segments of 50. *)
Definition mapWidth : Q := ofNat segments * segmentWidth.

(** A core that waits inside the map. *)
Definition coreInMap (item : Entity) : Prop :=
  lootType item = Some loot_core /\ markedForDeletion item = false /\
  0 < X (pos item) < mapWidth.

(** ** The hangar ([App.tsx])

    The state of the application that the game reads and writes between two
    missions: the status, the chosen planet, the wallet of cores and the
    upgrades.  A handler is a step on that state; what a handler does to the
    screen only (sounds, the hangar mode, the warp animation, the messages)
    is not modelled, and the star system that a jump scans is the generator's
    ([PlanetGenerator.generateStarSystem]).  A handler reads the state of the
    render that it was created in: the model takes each event to be handled
    after the render that follows the event before it, so that a handler
    reads the current state. *)

Module App.

Inductive GameStatus : Type := MENU | HANGAR | LOADING_PLANET | PLAYING | GAME_OVER | VICTORY.

(** [keyof PlayerUpgrades]. *)
Inductive UpgradeKey : Type := k_hull | k_weapon | k_thrusters | k_speed.

Definition INITIAL_UPGRADES : PlayerUpgrades := mkUpgrades 1 1 1 1.

Definition UPGRADE_COSTS (k : UpgradeKey) : Q :=
  match k with
  | k_hull => 5
  | k_weapon => 8
  | k_thrusters => 6
  | k_speed => 4
  end.

(** [upgrades[type]] and [{ ...prev, [type]: v }]. *)
Definition level (u : PlayerUpgrades) (k : UpgradeKey) : Q :=
  match k with
  | k_hull => hull u
  | k_weapon => weapon u
  | k_thrusters => thrusters u
  | k_speed => u_speed u
  end.

Definition withLevel (k : UpgradeKey) (v : Q) (u : PlayerUpgrades) : PlayerUpgrades :=
  match k with
  | k_hull => mkUpgrades v (weapon u) (thrusters u) (u_speed u)
  | k_weapon => mkUpgrades (hull u) v (thrusters u) (u_speed u)
  | k_thrusters => mkUpgrades (hull u) (weapon u) v (u_speed u)
  | k_speed => mkUpgrades (hull u) (weapon u) (thrusters u) v
  end.

Record State : Type := mkState {
  status : GameStatus;
  planetChosen : bool;       (* [planet !== null] *)
  finalScore : Q;
  totalCores : Q;
  upgrades : PlayerUpgrades
}.

(** The state that the application starts with. *)
Definition initial : State := mkState MENU false 0 5 INITIAL_UPGRADES.

Definition handleHyperspaceJump (s : State) : State :=
  if JS.ltb (totalCores s) 1 then s
  else mkState (status s) false (finalScore s) (totalCores s - 1) (upgrades s).

Definition handleStartMission (s : State) : State :=
  if negb (planetChosen s) then s
  else mkState PLAYING (planetChosen s) (finalScore s) (totalCores s) (upgrades s).

Definition handleGameOver (score : Q) (coresCollected : Z) (s : State) : State :=
  let savedCores := JS.floor (inject_Z coresCollected * (5 # 10)) in
  mkState GAME_OVER (planetChosen s) score (totalCores s + inject_Z savedCores)
          (upgrades s).

Definition handleVictory (score : Q) (collectedCores : Z) (s : State) : State :=
  let victoryBonus := 3 in
  mkState VICTORY (planetChosen s) (score + 1000)
          (totalCores s + inject_Z collectedCores + victoryBonus) (upgrades s).

Definition buyUpgrade (k : UpgradeKey) (s : State) : State :=
  let cost := UPGRADE_COSTS k * level (upgrades s) k in
  if JS.geb (totalCores s) cost then
    mkState (status s) (planetChosen s) (finalScore s) (totalCores s - cost)
            (withLevel k (level (upgrades s) k + 1) (upgrades s))
  else s.

(** What can happen in the hangar and at the end of a mission. *)
Inductive Event : Type :=
  | EnterShip
  | HyperspaceJump
  | SelectPlanet
  | StartMission
  | GameOver (score : Q) (coresCollected : Z)
  | Victory (score : Q) (collectedCores : Z)
  | BuyUpgrade (k : UpgradeKey)
  | BackToHangar.

Definition handle (s : State) (e : Event) : State :=
  match e with
  | EnterShip => mkState HANGAR (planetChosen s) (finalScore s) (totalCores s) (upgrades s)
  | HyperspaceJump => handleHyperspaceJump s
  | SelectPlanet => mkState (status s) true (finalScore s) (totalCores s) (upgrades s)
  | StartMission => handleStartMission s
  | GameOver score cores => handleGameOver score cores s
  | Victory score cores => handleVictory score cores s
  | BuyUpgrade k => buyUpgrade k s
  | BackToHangar => mkState HANGAR (planetChosen s) (finalScore s) (totalCores s) (upgrades s)
  end.

(** The state after a list of events. *)
Definition run (events : list Event) : State := fold_left handle events initial.

(** The cores that a report brings: none are negative. *)
Definition honest (e : Event) : Prop :=
  match e with
  | GameOver _ cores | Victory _ cores => (0 <= cores)%Z
  | _ => True
  end.

(** The cores that were spent to reach a level, at [base] per level held. *)
Definition spentOn (base lvl : Q) : Q := base * (lvl * (lvl - 1) / 2).

(** The wallet and what the upgrades have cost. *)
Definition worth (s : State) : Q :=
  totalCores s
  + spentOn (UPGRADE_COSTS k_hull) (hull (upgrades s))
  + spentOn (UPGRADE_COSTS k_weapon) (weapon (upgrades s))
  + spentOn (UPGRADE_COSTS k_thrusters) (thrusters (upgrades s))
  + spentOn (UPGRADE_COSTS k_speed) (u_speed (upgrades s)).

(** No level is below the first. *)
Definition levelsFromOne (u : PlayerUpgrades) : Prop :=
  1 <= hull u /\ 1 <= weapon u /\ 1 <= thrusters u /\ 1 <= u_speed u.

End App.

(** The fuel and the capacity of the jetpack of the player. *)
Definition tank (st : GameState) : option Q * option Q :=
  (fuel (player st), maxFuel (player st)).

(** The capacity is the one that the thrusters upgrade gives; the fuel is at
    most the capacity and at least minus what four units of time burn. *)
Definition fuelWithin (E : Env) (p : Entity) : Prop :=
  exists f,
    fuel p = Some f /\ maxFuel p = Some (maxFuelBase E) /\
    - (4 * JETPACK_FUEL_CONSUMPTION (PHYSICS (env_K E))) <= f /\ f <= maxFuelBase E.

(** ** The constants that the game ships ([constants.ts]) *)

Module Shipped.

Definition PHYSICS : PhysicsT :=
  {| GRAVITY := 5 # 10; FRICTION := 92 # 100; AIR_FRICTION := 88 # 100;
     PLAYER_SPEED := 8 # 10; JUMP_FORCE := 10; JETPACK_FORCE := 6 # 10;
     JETPACK_FUEL_CONSUMPTION := 15 # 10; JETPACK_FUEL_RECHARGE := 3;
     MAX_SPEED := 6; PROJECTILE_SPEED := 10; COYOTE_FRAMES := 8;
     INVULNERABILITY_FRAMES := 60 |}.

Definition ENTITY_SIZE (k : SizeKey) : Vector2 :=
  match k with
  | SZ_PLAYER => mkVec 32 32
  | SZ_CRAWLER => mkVec 32 24
  | SZ_SENTINEL => mkVec 28 40
  | SZ_DASHER => mkVec 48 32
  | SZ_HORNET => mkVec 24 24
  | SZ_NEUTRAL => mkVec 20 16
  | SZ_GUARDIAN => mkVec 80 80
  | SZ_SANDWORM => mkVec 40 80
  | SZ_SHIELDER => mkVec 32 40
  | SZ_SPORE => mkVec 24 24
  | SZ_PROJECTILE => mkVec 8 4
  | SZ_ENEMY_PROJECTILE => mkVec 6 6
  | SZ_LOOT => mkVec 16 16
  | SZ_WEAPON_DROP => mkVec 24 24
  | SZ_HEALTH_DROP => mkVec 16 16
  end.

Definition ENEMY_STATS (a : EnemyArchetype) : EnemyStat :=
  match a with
  | crawler => {| hp := 20; e_speed := 15 # 10; e_score := 30; aggroRange := 300;
                  range := 0; dashSpeed := 0 |}
  | sentinel => {| hp := 15; e_speed := 1; e_score := 60; range := 400;
                   aggroRange := 500; dashSpeed := 0 |}
  | dasher => {| hp := 35; e_speed := 8 # 10; dashSpeed := 8; e_score := 100;
                 aggroRange := 350; range := 0 |}
  | hornet => {| hp := 10; e_speed := 22 # 10; e_score := 40; aggroRange := 400;
                 range := 0; dashSpeed := 0 |}
  | neutral => {| hp := 5; e_speed := 5 # 10; e_score := 5; aggroRange := 0;
                  range := 0; dashSpeed := 0 |}
  | guardian => {| hp := 500; e_speed := 15 # 10; e_score := 5000; aggroRange := 9999;
                   range := 0; dashSpeed := 0 |}
  | sandworm => {| hp := 60; e_speed := 0; e_score := 150; aggroRange := 300;
                   range := 0; dashSpeed := 0 |}
  | shielder => {| hp := 40; e_speed := 8 # 10; e_score := 80; aggroRange := 400;
                   range := 0; dashSpeed := 0 |}
  | spore => {| hp := 10; e_speed := 0; e_score := 20; aggroRange := 150;
                range := 0; dashSpeed := 0 |}
  end.

Definition WEAPONS (w : WeaponType) : WeaponStats :=
  match w with
  | blaster => {| damageMult := 1; fireRate := 11; speed := 12; count := 1;
                  spread := 5 # 100; recoil := 2; knockback := 2;
                  w_isExplosive := false; w_gravity := 0; pierce := 0 |}
  | scatter => {| damageMult := 6 # 10; fireRate := 45; speed := 10; count := 5;
                  spread := 3 # 10; recoil := 8; knockback := 6;
                  w_isExplosive := false; w_gravity := 0; pierce := 0 |}
  | rapid => {| damageMult := 4 # 10; fireRate := 5; speed := 14; count := 1;
                spread := 15 # 100; recoil := 5 # 10; knockback := 5 # 10;
                w_isExplosive := false; w_gravity := 0; pierce := 0 |}
  | sniper => {| damageMult := 35 # 10; fireRate := 70; speed := 25; count := 1;
                 spread := 0; recoil := 5; pierce := 3; knockback := 8;
                 w_isExplosive := false; w_gravity := 0 |}
  | launcher => {| damageMult := 25 # 10; fireRate := 50; speed := 8; count := 1;
                   spread := 1 # 10; recoil := 4; w_gravity := 2 # 10;
                   w_isExplosive := true; knockback := 10; pierce := 0 |}
  end.

Definition constants : Constants := mkConstants PHYSICS ENTITY_SIZE ENEMY_STATS WEAPONS.

(** The environment of a mission with the shipped constants. *)
Definition env (M : MathLib) (rnd : nat -> Q) (planet : PlanetData)
  (upgrades : PlayerUpgrades) : Env :=
  mkEnv constants M rnd planet upgrades.

End Shipped.

(** ** Facts about the arithmetic *)

Module JSFacts.

Lemma ltb_lt a b : JS.ltb a b = true <-> a < b.
Proof.
  unfold JS.ltb. rewrite negb_true_iff. split; intro H.
  - apply Qnot_le_lt. intro L. apply Qle_bool_iff in L. congruence.
  - destruct (Qle_bool b a) eqn:E; [|reflexivity].
    apply Qle_bool_iff in E. exfalso. apply (Qlt_not_le _ _ H E).
Qed.

Lemma ltb_ge a b : JS.ltb a b = false <-> b <= a.
Proof.
  unfold JS.ltb. rewrite negb_false_iff. apply Qle_bool_iff.
Qed.

Lemma leb_le a b : JS.leb a b = true <-> a <= b.
Proof. apply Qle_bool_iff. Qed.

Lemma leb_gt a b : JS.leb a b = false <-> b < a.
Proof.
  unfold JS.leb. split; intro H.
  - apply Qnot_le_lt. intro L. apply Qle_bool_iff in L. congruence.
  - destruct (Qle_bool a b) eqn:E; [|reflexivity].
    apply Qle_bool_iff in E. exfalso. apply (Qlt_not_le _ _ H E).
Qed.

Lemma gtb_gt a b : JS.gtb a b = true <-> b < a.
Proof. apply ltb_lt. Qed.

Lemma gtb_le a b : JS.gtb a b = false <-> a <= b.
Proof. apply ltb_ge. Qed.

Lemma geb_ge a b : JS.geb a b = true <-> b <= a.
Proof. apply leb_le. Qed.

Lemma geb_lt a b : JS.geb a b = false <-> a < b.
Proof. apply leb_gt. Qed.

Lemma index_Some {A : Type} (l : list A) (i : Z) :
  (0 <= i < Z.of_nat (length l))%Z -> exists a, JS.index l i = Some a.
Proof.
  intros [H0 H1]. unfold JS.index.
  destruct (i <? 0)%Z eqn:E; [apply Z.ltb_lt in E; lia|].
  destruct (nth_error l (Z.to_nat i)) eqn:N; [eauto|].
  apply nth_error_None in N. lia.
Qed.

End JSFacts.

(** ** Properties of terrain sampling *)

Section GroundHeight.

Variable terrain : list Q.

Let len : Z := Z.of_nat (length terrain).

Lemma sampleIndex1_bounds x :
  terrain <> [] -> (0 <= sampleIndex1 terrain x <= len - 1)%Z.
Proof.
  intro Hne. unfold sampleIndex1, len.
  destruct terrain as [|h tl]; [congruence|]. simpl length. lia.
Qed.

Lemma sampleIndex2_bounds x :
  terrain <> [] -> (0 <= sampleIndex2 terrain x <= len - 1)%Z.
Proof.
  intro Hne. unfold sampleIndex2, len.
  destruct terrain as [|h tl]; [congruence|]. simpl length. lia.
Qed.

Lemma getGroundHeightAt_unfold x :
  terrain <> [] ->
  exists h1 h2,
    JS.index terrain (sampleIndex1 terrain x) = Some h1 /\
    JS.index terrain (sampleIndex2 terrain x) = Some h2 /\
    getGroundHeightAt terrain x = Some (h1 + (h2 - h1) * sampleWeight x).
Proof.
  intro Hne.
  destruct (JSFacts.index_Some terrain (sampleIndex1 terrain x)) as [h1 E1].
  { pose proof (sampleIndex1_bounds x Hne). unfold len in *. lia. }
  destruct (JSFacts.index_Some terrain (sampleIndex2 terrain x)) as [h2 E2].
  { pose proof (sampleIndex2_bounds x Hne). unfold len in *. lia. }
  exists h1, h2. repeat split; trivial.
  unfold getGroundHeightAt.
  destruct terrain as [|a tl]; [congruence|].
  simpl Nat.eqb. cbv iota. cbv zeta. rewrite E1, E2. reflexivity.
Qed.

Lemma floor_neg x : x < 0 -> (JS.floor (x / 50) <= -1)%Z.
Proof.
  intro Hx. unfold JS.floor.
  assert (L : x / 50 < 0).
  { apply Qlt_shift_div_r; [reflexivity | lra]. }
  pose proof (Qfloor_le (x / 50)) as F.
  assert (H : inject_Z (Qfloor (x / 50)) < inject_Z 0).
  { apply Qle_lt_trans with (x / 50); trivial. }
  rewrite <- Zlt_Qlt in H. lia.
Qed.

Lemma floor_right x :
  inject_Z (50 * (len - 1)) <= x -> (len - 1 <= JS.floor (x / 50))%Z.
Proof.
  intro Hx. unfold JS.floor.
  rewrite <- (Qfloor_Z (len - 1)).
  apply Qfloor_resp_le.
  apply Qle_shift_div_l; [reflexivity|].
  rewrite inject_Z_mult in Hx. change (inject_Z 50) with 50 in Hx.
  rewrite Qmult_comm. exact Hx.
Qed.

Lemma left_edge x :
  terrain <> [] -> x < 0 ->
  sampleIndex1 terrain x = 0%Z /\ sampleIndex2 terrain x = 0%Z.
Proof.
  intros Hne Hx. pose proof (floor_neg x Hx) as F.
  unfold sampleIndex1, sampleIndex2.
  destruct terrain as [|a tl]; [congruence|]. simpl length. lia.
Qed.

Lemma right_edge x :
  terrain <> [] -> inject_Z (50 * (len - 1)) <= x ->
  sampleIndex1 terrain x = (len - 1)%Z /\ sampleIndex2 terrain x = (len - 1)%Z.
Proof.
  intros Hne Hx. pose proof (floor_right x Hx) as F.
  unfold sampleIndex1, sampleIndex2. fold len.
  assert (0 <= len - 1)%Z.
  { unfold len. destruct terrain; [congruence|]. simpl length. lia. }
  lia.
Qed.

End GroundHeight.

(** C10.  [getGroundHeightAt] is total and reads in bounds: on an empty
  terrain it returns the logical height 600; otherwise both indices lie in
  [0, length - 1], both reads succeed and the result is the interpolated
  height; left of the first sample it is (equal to) the first sample, at or
  right of the last sample it is the last sample. *)
Theorem getGroundHeightAt_total_in_bounds (terrain : list Q) (x : Q) :
(exists h, getGroundHeightAt terrain x = Some h) /\
(terrain = [] -> getGroundHeightAt terrain x = Some 600) /\
(terrain <> [] ->
   (0 <= sampleIndex1 terrain x <= Z.of_nat (length terrain) - 1)%Z /\
   (0 <= sampleIndex2 terrain x <= Z.of_nat (length terrain) - 1)%Z /\
   exists h1 h2,
     JS.index terrain (sampleIndex1 terrain x) = Some h1 /\
     JS.index terrain (sampleIndex2 terrain x) = Some h2 /\
     getGroundHeightAt terrain x = Some (h1 + (h2 - h1) * sampleWeight x)) /\
(terrain <> [] -> x < 0 ->
   exists h first, getGroundHeightAt terrain x = Some h /\
     JS.index terrain 0 = Some first /\ h == first) /\
(terrain <> [] -> inject_Z (50 * (Z.of_nat (length terrain) - 1)) <= x ->
   exists h last, getGroundHeightAt terrain x = Some h /\
     JS.index terrain (Z.of_nat (length terrain) - 1) = Some last /\ h == last).
Proof.
split; [|split; [|split; [|split]]].
- destruct terrain as [|a tl] eqn:E.
  + exists LOGICAL_HEIGHT. reflexivity.
  + destruct (getGroundHeightAt_unfold (a :: tl) x) as (h1 & h2 & _ & _ & G);
      [discriminate|]. eauto.
- intros ->. reflexivity.
- intro Hne. split; [apply sampleIndex1_bounds; trivial|].
  split; [apply sampleIndex2_bounds; trivial|].
  apply getGroundHeightAt_unfold; trivial.
- intros Hne Hx.
  destruct (getGroundHeightAt_unfold terrain x Hne) as (h1 & h2 & E1 & E2 & G).
  destruct (left_edge terrain x Hne Hx) as [I1 I2].
  rewrite I1 in E1. rewrite I2 in E2.
  exists (h1 + (h2 - h1) * sampleWeight x), h1.
  repeat split; trivial.
  assert (h2 = h1) by congruence. subst h2. ring.
- intros Hne Hx.
  destruct (getGroundHeightAt_unfold terrain x Hne) as (h1 & h2 & E1 & E2 & G).
  destruct (right_edge terrain x Hne Hx) as [I1 I2].
  rewrite I1 in E1. rewrite I2 in E2.
  exists (h1 + (h2 - h1) * sampleWeight x), h1.
  repeat split; trivial.
  assert (h2 = h1) by congruence. subst h2. ring.
Qed.

(** The theorem at a three-sample terrain, left of the first sample. *)
Lemma getGroundHeightAt_total_in_bounds_witness :
exists h first,
  getGroundHeightAt [450; 440; 430] (-(75 # 1)) = Some h /\
  JS.index [450; 440; 430] 0 = Some first /\ h == first.
Proof.
destruct (getGroundHeightAt_total_in_bounds [450; 440; 430] (-(75 # 1)))
  as (_ & _ & _ & L & _).
apply L; [discriminate | reflexivity].
Defined.

(** ** What the parts of a frame leave alone

    [proj] is any observation of the state.  Each lemma says that a function
    of the engine does not change the observation, provided the assignments
    that the function makes do not; a lemma depends on those hypotheses only
    that its function needs. *)

Create Rewrite HintDb frame.

Section Frame.

Variable E : Env.
Variable A : Type.
Variable proj : GameState -> A.

Hypothesis H_rngPos : forall v s, proj (set_rngPos v s) = proj s.
Hypothesis H_enemies : forall v s, proj (set_enemies v s) = proj s.
Hypothesis H_projectiles : forall v s, proj (set_projectiles v s) = proj s.
Hypothesis H_loot : forall v s, proj (set_loot v s) = proj s.
Hypothesis H_camera : forall v s, proj (set_camera v s) = proj s.
Hypothesis H_score : forall v s, proj (set_score v s) = proj s.
Hypothesis H_hitStop : forall v s, proj (set_hitStop v s) = proj s.
Hypothesis H_aimAngle : forall v s, proj (set_aimAngle v s) = proj s.
Hypothesis H_weaponCooldown : forall v s, proj (set_weaponCooldown v s) = proj s.
Hypothesis H_jumpLock : forall v s, proj (set_jumpLock v s) = proj s.
Hypothesis H_lookDownTimer : forall v s, proj (set_lookDownTimer v s) = proj s.
Hypothesis H_nextSquadSpawnX : forall v s, proj (set_nextSquadSpawnX v s) = proj s.
Hypothesis H_messageQueue : forall v s, proj (set_messageQueue v s) = proj s.
Hypothesis H_currentWeapon : forall v s, proj (set_currentWeapon v s) = proj s.
Hypothesis H_frameCount : forall v s, proj (set_frameCount v s) = proj s.
Hypothesis H_isPlaying : forall v s, proj (set_isPlaying v s) = proj s.
Hypothesis H_introTimer : forall v s, proj (set_introTimer v s) = proj s.
Hypothesis H_bossActive : forall v s, proj (set_bossActive v s) = proj s.
Hypothesis H_coresCollected : forall v s, proj (set_coresCollected v s) = proj s.
Hypothesis H_timeOfDay : forall v s, proj (set_timeOfDay v s) = proj s.
Hypothesis H_weatherState : forall v s, proj (set_weatherState v s) = proj s.
Hypothesis H_currentWeather : forall v s, proj (set_currentWeather v s) = proj s.
Hypothesis H_weatherIntensity : forall v s, proj (set_weatherIntensity v s) = proj s.
Hypothesis H_weatherTimer : forall v s, proj (set_weatherTimer v s) = proj s.
Hypothesis H_keys : forall v s, proj (set_keys v s) = proj s.
Hypothesis H_touchInput : forall v s, proj (set_touchInput v s) = proj s.
Hypothesis H_mouse : forall v s, proj (set_mouse v s) = proj s.
Hypothesis H_logicalWidth : forall v s, proj (set_logicalWidth v s) = proj s.
Hypothesis H_logicalHeight : forall v s, proj (set_logicalHeight v s) = proj s.
Hypothesis H_player : forall v s, proj (set_player v s) = proj s.
Hypothesis H_playerSameBody :
  forall v s, pos v = pos (player s) -> size v = size (player s) ->
              proj (set_player v s) = proj s.
Hypothesis H_victory :
  forall a b s, proj (set_events (EvVictory a b :: events s) s) = proj s.
Hypothesis H_gameOver :
  forall a b s, proj (set_events (EvGameOver a b :: events s) s) = proj s.
Hypothesis H_bossSpawn :
  forall s, proj (set_events (EvBossSpawn :: events s) s) = proj s.

(** The new player has the position and the size of the old one, whatever
    the tests on the way. *)
Ltac same_body :=
  repeat (cbv beta iota zeta;
          match goal with
          | |- context [match ?x with _ => _ end] =>
              lazymatch x with
              | context [match _ with _ => _ end] => fail
              | _ => destruct x
              end
          end);
  reflexivity.

Ltac setters :=
  repeat first
    [ rewrite H_rngPos
    | rewrite H_enemies
    | rewrite H_projectiles
    | rewrite H_loot
    | rewrite H_camera
    | rewrite H_score
    | rewrite H_hitStop
    | rewrite H_aimAngle
    | rewrite H_weaponCooldown
    | rewrite H_jumpLock
    | rewrite H_lookDownTimer
    | rewrite H_nextSquadSpawnX
    | rewrite H_messageQueue
    | rewrite H_currentWeapon
    | rewrite H_frameCount
    | rewrite H_isPlaying
    | rewrite H_introTimer
    | rewrite H_bossActive
    | rewrite H_coresCollected
    | rewrite H_timeOfDay
    | rewrite H_weatherState
    | rewrite H_currentWeather
    | rewrite H_weatherIntensity
    | rewrite H_weatherTimer
    | rewrite H_keys
    | rewrite H_touchInput
    | rewrite H_mouse
    | rewrite H_logicalWidth
    | rewrite H_logicalHeight
    | rewrite H_playerSameBody by same_body
    | rewrite H_player
    | rewrite H_victory
    | rewrite H_gameOver
    | rewrite H_bossSpawn ].

(** The scrutinee that decides the head of a term; a call that returns a pair
    is named by its second component. *)
Ltac scrut x :=
  lazymatch x with
  | (if ?c then _ else _) => scrut c
  | (match ?y with _ => _ end) => scrut y
  | _ =>
      let H := fresh "Hs" in
      destruct x eqn:H;
      try (apply (f_equal snd) in H; cbn [snd] in H; subst)
  end.

Ltac frame_head :=
  lazymatch goal with
  | |- proj (if ?c then _ else _) = _ => scrut c
  | |- proj (match ?x with _ => _ end) = _ => scrut x
  | |- proj (snd (if ?c then _ else _)) = _ => scrut c
  | |- proj (snd (match ?x with _ => _ end)) = _ => scrut x
  end.

Ltac frame :=
  repeat (cbv beta iota zeta; unfold random; cbn [fst snd];
          setters; autorewrite with frame;
          try frame_head);
  try reflexivity.

Lemma addScreenshake_keeps a st : proj (addScreenshake a st) = proj st.
Proof. unfold addScreenshake. frame. Qed.
#[local] Hint Rewrite addScreenshake_keeps : frame.

Lemma queueMessage_keeps t st : proj (queueMessage t st) = proj st.
Proof. unfold queueMessage. frame. Qed.
#[local] Hint Rewrite queueMessage_keeps : frame.

Lemma spawnPlayerProjectileAt_keeps x y a w st : proj (spawnPlayerProjectileAt E x y a w st) = proj st.
Proof. unfold spawnPlayerProjectileAt. frame. Qed.
#[local] Hint Rewrite spawnPlayerProjectileAt_keeps : frame.

Lemma repeatN_keeps n body st :
  (forall s, proj (body s) = proj s) -> proj (repeatN n body st) = proj st.
Proof.
  intro Hb. revert st. induction n as [|n IH]; intro st; simpl; [reflexivity|].
  rewrite IH. apply Hb.
Qed.

Lemma fold_left_keeps {B : Type} (f : GameState -> B -> GameState) l st :
  (forall s b, proj (f s b) = proj s) -> proj (fold_left f l st) = proj st.
Proof.
  intro Hf. revert st. induction l as [|b l IH]; intro st; simpl; [reflexivity|].
  rewrite IH. apply Hf.
Qed.

Lemma spawnPlayerProjectile_keeps x y a w st :
  proj (snd (spawnPlayerProjectile E x y a w st)) = proj st.
Proof.
  unfold spawnPlayerProjectile. cbn [snd].
  apply repeatN_keeps. intro s. apply spawnPlayerProjectileAt_keeps.
Qed.
#[local] Hint Rewrite spawnPlayerProjectile_keeps : frame.

Lemma spawnEnemyProjectile_keeps x y a st : proj (spawnEnemyProjectile E x y a st) = proj st.
Proof. unfold spawnEnemyProjectile. frame. Qed.
#[local] Hint Rewrite spawnEnemyProjectile_keeps : frame.

Lemma spawnExplosion_keeps x y st : proj (spawnExplosion E x y st) = proj st.
Proof. unfold spawnExplosion. frame. Qed.
#[local] Hint Rewrite spawnExplosion_keeps : frame.

Lemma spawnBoss_keeps st : proj (spawnBoss E st) = proj st.
Proof. unfold spawnBoss. frame. Qed.
#[local] Hint Rewrite spawnBoss_keeps : frame.

Lemma spawnEnemy_keeps x y fa fr st : proj (spawnEnemy E x y fa fr st) = proj st.
Proof. unfold spawnEnemy. frame. Qed.
#[local] Hint Rewrite spawnEnemy_keeps : frame.

Lemma swarmMembers_keeps t n i st : proj (snd (swarmMembers E t n i st)) = proj st.
Proof.
  revert i st. induction n as [|n IH]; intros i st; simpl; [reflexivity|].
  unfold random. cbv beta iota zeta.
  specialize (IH (S i) (set_rngPos (S (rngPos st)) st)).
  destruct (swarmMembers E t n (S i) (set_rngPos (S (rngPos st)) st)) as [ms g].
  cbn [snd] in *. rewrite IH. setters. reflexivity.
Qed.
#[local] Hint Rewrite swarmMembers_keeps : frame.

Lemma squadMembersOf_keeps th st : proj (snd (squadMembersOf E th st)) = proj st.
Proof. unfold squadMembersOf. frame. Qed.
#[local] Hint Rewrite squadMembersOf_keeps : frame.

Lemma spawnMember_keeps x m st : proj (spawnMember E x m st) = proj st.
Proof. unfold spawnMember. frame. Qed.
#[local] Hint Rewrite spawnMember_keeps : frame.

Lemma spawnSquad_keeps x st : proj (spawnSquad E x st) = proj st.
Proof.
  unfold spawnSquad. unfold random. cbv beta iota zeta.
  destruct (squadMembersOf E _ _) as [ms g] eqn:Hs.
  apply (f_equal snd) in Hs. cbn [snd] in Hs. subst g.
  rewrite fold_left_keeps by (intros; apply spawnMember_keeps).
  frame.
Qed.
#[local] Hint Rewrite spawnSquad_keeps : frame.

Lemma spawnLoot_keeps x y k st : proj (spawnLoot E x y k st) = proj st.
Proof. unfold spawnLoot. frame. Qed.
#[local] Hint Rewrite spawnLoot_keeps : frame.

Lemma tickTimers_keeps dt st : proj (tickTimers dt st) = proj st.
Proof. unfold tickTimers. frame. Qed.
#[local] Hint Rewrite tickTimers_keeps : frame.

Lemma updateAim_keeps st : proj (updateAim E st) = proj st.
Proof. unfold updateAim. frame. Qed.
#[local] Hint Rewrite updateAim_keeps : frame.

Lemma moveHorizontal_keeps dt h st : proj (moveHorizontal E dt h st) = proj st.
Proof. unfold moveHorizontal. frame. Qed.
#[local] Hint Rewrite moveHorizontal_keeps : frame.

Lemma jumpAndJetpack_keeps dt st : proj (jumpAndJetpack E dt st) = proj st.
Proof. unfold jumpAndJetpack. frame. Qed.
#[local] Hint Rewrite jumpAndJetpack_keeps : frame.

Lemma shoot_keeps st : proj (shoot E st) = proj st.
Proof. unfold shoot. frame. Qed.
#[local] Hint Rewrite shoot_keeps : frame.

Lemma integratePlayer_keeps dt st : proj (integratePlayer E dt st) = proj st.
Proof. unfold integratePlayer. frame. Qed.
#[local] Hint Rewrite integratePlayer_keeps : frame.

Lemma hurtPlayer_keeps a s st : proj (hurtPlayer E a s st) = proj st.
Proof. unfold hurtPlayer. frame. Qed.
#[local] Hint Rewrite hurtPlayer_keeps : frame.

Lemma hazardEffects_keeps h g st : proj (hazardEffects E h g st) = proj st.
Proof. unfold hazardEffects. frame. Qed.
#[local] Hint Rewrite hazardEffects_keeps : frame.

Lemma resolveGround_keeps g st : proj (resolveGround g st) = proj st.
Proof. unfold resolveGround. frame. Qed.
#[local] Hint Rewrite resolveGround_keeps : frame.

Lemma trackCamera_keeps st : proj (trackCamera st) = proj st.
Proof. unfold trackCamera. frame. Qed.
#[local] Hint Rewrite trackCamera_keeps : frame.

Lemma squadTrigger_keeps st : proj (squadTrigger E st) = proj st.
Proof. unfold squadTrigger. frame. Qed.
#[local] Hint Rewrite squadTrigger_keeps : frame.

Lemma playerPhase_keeps dt st : proj (playerPhase E dt st) = proj st.
Proof. unfold playerPhase. frame. Qed.
#[local] Hint Rewrite playerPhase_keeps : frame.

Lemma aggroRule_keeps dt see ent st : proj (snd (aggroRule E dt see ent st)) = proj st.
Proof. unfold aggroRule. frame. Qed.
#[local] Hint Rewrite aggroRule_keeps : frame.

Lemma aiNeutral_keeps see ent st : proj (snd (aiNeutral E see ent st)) = proj st.
Proof. unfold aiNeutral. frame. Qed.
#[local] Hint Rewrite aiNeutral_keeps : frame.

Lemma aiSentinel_keeps dt see ent st : proj (snd (aiSentinel E dt see ent st)) = proj st.
Proof. unfold aiSentinel. frame. Qed.
#[local] Hint Rewrite aiSentinel_keeps : frame.

Lemma aiDasher_keeps dt see ent st : proj (snd (aiDasher E dt see ent st)) = proj st.
Proof. unfold aiDasher. frame. Qed.
#[local] Hint Rewrite aiDasher_keeps : frame.

Lemma guardianSpread_keeps n i ent st : proj (guardianSpread E n i ent st) = proj st.
Proof.
  revert i st. induction n as [|n IH]; intros i st; simpl; [reflexivity|].
  rewrite IH. apply spawnEnemyProjectile_keeps.
Qed.
#[local] Hint Rewrite guardianSpread_keeps : frame.

Lemma guardianSummon_keeps ent st : proj (guardianSummon E ent st) = proj st.
Proof. unfold guardianSummon. frame. Qed.
#[local] Hint Rewrite guardianSummon_keeps : frame.

Lemma aiGuardian_keeps dt see ent st : proj (snd (aiGuardian E dt see ent st)) = proj st.
Proof.
  unfold aiGuardian. frame.
  rewrite repeatN_keeps by (intro; apply guardianSummon_keeps). frame.
Qed.
#[local] Hint Rewrite aiGuardian_keeps : frame.

Lemma aiSandworm_keeps dt ent st : proj (snd (aiSandworm E dt ent st)) = proj st.
Proof. unfold aiSandworm. frame. Qed.
#[local] Hint Rewrite aiSandworm_keeps : frame.

Lemma archetypeAI_keeps dt see ent st : proj (snd (archetypeAI E dt see ent st)) = proj st.
Proof. unfold archetypeAI. frame. Qed.
#[local] Hint Rewrite archetypeAI_keeps : frame.

Lemma contactDamage_keeps ent st : proj (contactDamage E ent st) = proj st.
Proof. unfold contactDamage. frame. Qed.
#[local] Hint Rewrite contactDamage_keeps : frame.

Lemma deathCheck_keeps ent st : proj (snd (deathCheck E ent st)) = proj st.
Proof. unfold deathCheck. frame. Qed.
#[local] Hint Rewrite deathCheck_keeps : frame.

Lemma enemyStep_keeps dt i st : proj (enemyStep E dt i st) = proj st.
Proof. unfold enemyStep. frame. Qed.
#[local] Hint Rewrite enemyStep_keeps : frame.

Lemma enemiesPhase_keeps dt st : proj (enemiesPhase E dt st) = proj st.
Proof.
  unfold enemiesPhase. apply fold_left_keeps. intros; apply enemyStep_keeps.
Qed.
#[local] Hint Rewrite enemiesPhase_keeps : frame.

Lemma resolveHit_keeps i p st : proj (snd (resolveHit E i p st)) = proj st.
Proof. unfold resolveHit. frame. Qed.
#[local] Hint Rewrite resolveHit_keeps : frame.

Lemma hitPlayer_keeps p st : proj (snd (hitPlayer E p st)) = proj st.
Proof. unfold hitPlayer. frame. Qed.
#[local] Hint Rewrite hitPlayer_keeps : frame.

Lemma resolveHits_keeps l p st :
  proj (snd (fold_left (fun ps index => resolveHit E index (fst ps) (snd ps)) l (p, st)))
  = proj st.
Proof.
  revert p st. induction l as [|i l IH]; intros p st; simpl; [reflexivity|].
  destruct (resolveHit E i p st) as [p' st'] eqn:Hr.
  rewrite IH. apply (f_equal snd) in Hr. cbn [snd] in Hr. subst st'.
  apply resolveHit_keeps.
Qed.
#[local] Hint Rewrite resolveHits_keeps : frame.

Lemma projectileStep_keeps dt p st : proj (snd (projectileStep E dt p st)) = proj st.
Proof. unfold projectileStep. frame. Qed.
#[local] Hint Rewrite projectileStep_keeps : frame.

Lemma projectilesLoop_keeps dt todo done st :
  proj (projectilesLoop E dt todo done st) = proj st.
Proof.
  revert done st. induction todo as [|p todo IH]; intros done st; simpl.
  - setters. reflexivity.
  - destruct (projectileStep E dt p st) as [p' st'] eqn:Hp.
    rewrite IH. apply (f_equal snd) in Hp. cbn [snd] in Hp. subst st'.
    apply projectileStep_keeps.
Qed.

Lemma projectilesPhase_keeps dt st : proj (projectilesPhase E dt st) = proj st.
Proof. apply projectilesLoop_keeps. Qed.
#[local] Hint Rewrite projectilesPhase_keeps : frame.

Lemma pickUp_keeps item st : proj (pickUp E item st) = proj st.
Proof. unfold pickUp. frame. Qed.
#[local] Hint Rewrite pickUp_keeps : frame.

Lemma lootStep_keeps dt item st : proj (snd (lootStep E dt item st)) = proj st.
Proof. unfold lootStep. frame. Qed.
#[local] Hint Rewrite lootStep_keeps : frame.

Lemma lootLoop_keeps dt todo done st : proj (lootLoop E dt todo done st) = proj st.
Proof.
  revert done st. induction todo as [|p todo IH]; intros done st; simpl.
  - setters. reflexivity.
  - destruct (lootStep E dt p st) as [p' st'] eqn:Hp.
    rewrite IH. apply (f_equal snd) in Hp. cbn [snd] in Hp. subst st'.
    apply lootStep_keeps.
Qed.

Lemma lootPhase_keeps dt st : proj (lootPhase E dt st) = proj st.
Proof. apply lootLoop_keeps. Qed.
#[local] Hint Rewrite lootPhase_keeps : frame.

Lemma compact_keeps st : proj (compact st) = proj st.
Proof. unfold compact. frame. Qed.
#[local] Hint Rewrite compact_keeps : frame.

Lemma checkGameOver_keeps st : proj (checkGameOver st) = proj st.
Proof. unfold checkGameOver. frame. Qed.
#[local] Hint Rewrite checkGameOver_keeps : frame.

Lemma introStep_keeps dt st : proj (introStep E dt st) = proj st.
Proof. unfold introStep. frame. Qed.
#[local] Hint Rewrite introStep_keeps : frame.

Lemma weatherClock_keeps dt st : proj (weatherClock dt st) = proj st.
Proof. unfold weatherClock. frame. Qed.
#[local] Hint Rewrite weatherClock_keeps : frame.

Lemma weatherTransition_keeps st : proj (weatherTransition E st) = proj st.
Proof. unfold weatherTransition. frame. Qed.
#[local] Hint Rewrite weatherTransition_keeps : frame.

Lemma weatherMachine_keeps dt st : proj (weatherMachine E dt st) = proj st.
Proof. unfold weatherMachine. frame. Qed.
#[local] Hint Rewrite weatherMachine_keeps : frame.

Lemma weatherRamp_keeps dt st : proj (weatherRamp dt st) = proj st.
Proof. unfold weatherRamp. frame. Qed.
#[local] Hint Rewrite weatherRamp_keeps : frame.

Lemma updateWeather_keeps dt st : proj (updateWeather E dt st) = proj st.
Proof. unfold updateWeather. frame. Qed.
#[local] Hint Rewrite updateWeather_keeps : frame.

(** The frame after the weather update. *)
Lemma afterWeather_keeps dt st :
  proj (checkGameOver
          (compact (lootPhase E dt (projectilesPhase E dt (enemiesPhase E dt
             (playerPhase E dt st))))))
  = proj st.
Proof. frame. Qed.

Lemma mainStep_keeps dt st : proj (mainStep E dt st) = proj st.
Proof. unfold mainStep. frame. Qed.
#[local] Hint Rewrite mainStep_keeps : frame.

Lemma update_keeps dt st : proj (update E dt st) = proj st.
Proof. unfold update. frame. Qed.
#[local] Hint Rewrite update_keeps : frame.

Lemma loopFrame_keeps dt st : proj (loopFrame E dt st) = proj st.
Proof. unfold loopFrame. frame. Qed.
#[local] Hint Rewrite loopFrame_keeps : frame.

Lemma placeCore_keeps i st : proj (placeCore E i st) = proj st.
Proof. unfold placeCore. frame. Qed.

Lemma act_keeps st a : proj (act E st a) = proj st.
Proof. destruct a; cbn [act]; frame. Qed.

End Frame.

(** ** The weather controller *)

Section Weather.

Variable E : Env.

Local Abbreviation planet := (env_planet E).

Lemma clamp01 x : 0 <= JS.max 0 (JS.min 1 x) <= 1.
Proof.
  unfold JS.max, JS.min. split.
  - apply Q.le_max_l.
  - apply Q.max_lub; [lra | apply Q.le_min_l].
Qed.

Lemma updateWeather_intensity dt st :
  0 <= weatherIntensity (updateWeather E dt st) <= 1.
Proof.
  unfold updateWeather, weatherRamp. cbv zeta. cbn [weatherIntensity set_weatherIntensity].
  apply clamp01.
Qed.

Lemma weatherRamp_state dt st : weatherState (weatherRamp dt st) = weatherState st.
Proof. apply weatherRamp_keeps; reflexivity. Qed.

Lemma weatherClock_state dt st : weatherState (weatherClock dt st) = weatherState st.
Proof. apply weatherClock_keeps; reflexivity. Qed.

Lemma weatherClock_timer dt st : weatherTimer (weatherClock dt st) = weatherTimer st.
Proof. apply weatherClock_keeps; reflexivity. Qed.

(** The phase after the transition is the same phase (a clear sky that stays
    clear) or the next one. *)
Lemma weatherTransition_state st :
  weatherState (weatherTransition E st) = weatherState st \/
  weatherState (weatherTransition E st) = nextPhase (weatherState st).
Proof.
  unfold weatherTransition.
  destruct (weatherState st) eqn:W; unfold random; cbv beta iota zeta.
  - destruct (_ && _); [|left; cbn; exact W].
    right. destruct (0 <? _)%nat; reflexivity.
  - right. reflexivity.
  - right. reflexivity.
  - right. reflexivity.
Qed.

(** The state machine changes the phase only when the timer has run out,
    or to clear a sky that a planet without weather should not have. *)
Lemma weatherMachine_state dt st :
  weatherState (weatherMachine E dt st) <> weatherState st ->
  (JS.gtb (weatherVolatility planet) 0 = true /\
   weatherTimer st - dt <= 0 /\
   weatherState (weatherMachine E dt st) = nextPhase (weatherState st)) \/
  (JS.gtb (weatherVolatility planet) 0 = false /\ weatherState st <> ws_clear).
Proof.
  unfold weatherMachine.
  destruct (JS.gtb (weatherVolatility planet) 0) eqn:V; cbv zeta.
  - intro D. left. split; [reflexivity|].
    destruct (JS.leb (weatherTimer (set_weatherTimer (weatherTimer st - dt) st)) 0) eqn:T.
    + split; [apply JSFacts.leb_le in T; exact T|].
      destruct (weatherTransition_state (set_weatherTimer (weatherTimer st - dt) st))
        as [S | S]; [|exact S].
      exfalso. apply D. rewrite S. reflexivity.
    + exfalso. apply D. reflexivity.
  - intro D. right. split; [reflexivity|]. intro C. apply D. cbn. congruence.
Qed.

Lemma updateWeather_state dt st :
  weatherState (updateWeather E dt st)
  = weatherState (weatherMachine E dt (weatherClock dt st)).
Proof. unfold updateWeather. apply weatherRamp_state. Qed.

Lemma updateWeather_calm dt st : calm E (updateWeather E dt st).
Proof.
  intro V. rewrite updateWeather_state. unfold weatherMachine. rewrite V. reflexivity.
Qed.

Lemma mainStep_weatherState dt st :
  weatherState (mainStep E dt st) = weatherState (updateWeather E dt st).
Proof. unfold mainStep. cbv zeta. apply afterWeather_keeps; reflexivity. Qed.

Lemma mainStep_weatherIntensity dt st :
  weatherIntensity (mainStep E dt st) = weatherIntensity (updateWeather E dt st).
Proof. unfold mainStep. cbv zeta. apply afterWeather_keeps; reflexivity. Qed.

Lemma update_calm dt st : calm E st -> calm E (update E dt st).
Proof.
  intros C V. unfold update.
  destruct (JS.gtb (hitStop st) 0); [exact (C V)|].
  destruct (JS.gtb (introTimer st) 0).
  - rewrite introStep_keeps by reflexivity. exact (C V).
  - rewrite mainStep_weatherState. apply updateWeather_calm. exact V.
Qed.

Lemma update_intensity dt st :
  0 <= weatherIntensity st <= 1 -> 0 <= weatherIntensity (update E dt st) <= 1.
Proof.
  intro I. unfold update.
  destruct (JS.gtb (hitStop st) 0); [exact I|].
  destruct (JS.gtb (introTimer st) 0).
  - rewrite introStep_keeps by reflexivity. exact I.
  - rewrite mainStep_weatherIntensity. apply updateWeather_intensity.
Qed.

Lemma act_weather st a :
  calm E st /\ 0 <= weatherIntensity st <= 1 ->
  calm E (act E st a) /\ 0 <= weatherIntensity (act E st a) <= 1.
Proof.
  intros [C I]. destruct a; cbn [act]; try (split; [exact C | exact I]).
  unfold loopFrame. destruct (isPlaying st); [|split; trivial].
  split; [apply update_calm; exact C | apply update_intensity; exact I].
Qed.

Lemma startMission_weather st :
  weatherState (startMission E st) = ws_clear /\
  weatherIntensity (startMission E st) == 0.
Proof.
  unfold startMission. cbv zeta.
  split.
  - rewrite fold_left_keeps; [reflexivity|]. intros; apply placeCore_keeps; reflexivity.
  - rewrite fold_left_keeps; [reflexivity|]. intros; apply placeCore_keeps; reflexivity.
Qed.

Lemma mission_weather actions :
  calm E (mission E actions) /\ 0 <= weatherIntensity (mission E actions) <= 1.
Proof.
  unfold mission.
  assert (H0 : calm E (missionStart E) /\ 0 <= weatherIntensity (missionStart E) <= 1).
  { destruct (startMission_weather (mountState E)) as [S I].
    unfold missionStart. split; [intros _; exact S|]. rewrite I. lra. }
  revert H0. generalize (missionStart E) as st.
  induction actions as [|a actions IH]; intros st H0; simpl; [exact H0|].
  apply IH. apply act_weather. exact H0.
Qed.

(** C6.  At every frame of every mission the weather update leaves the
    intensity within [0, 1], and it changes the phase only when the phase
    timer, counted down by this frame's [dt], is at or below [0]; the phase
    then moves one step along clear, buildup, active, fading, clear.  (The
    intensity is within [0, 1] before the update as well.) *)
Theorem weather_intensity_bounded_phase_on_expiry (actions : list Action) (dt : Q) :
  let st := mission E actions in
  let st' := updateWeather E dt st in
  0 <= weatherIntensity st <= 1 /\
  0 <= weatherIntensity st' <= 1 /\
  (weatherState st' <> weatherState st ->
   weatherTimer st - dt <= 0 /\ weatherState st' = nextPhase (weatherState st)).
Proof.
  cbv zeta. destruct (mission_weather actions) as [C I].
  split; [exact I|]. split; [apply updateWeather_intensity|].
  rewrite updateWeather_state. intro D.
  rewrite <- (weatherClock_state dt (mission E actions)) in D |- *.
  rewrite <- (weatherClock_timer dt (mission E actions)).
  destruct (weatherMachine_state dt _ D) as [(_ & T & N) | (V & N)].
  - split; trivial.
  - exfalso. apply N. rewrite weatherClock_state. apply C. exact V.
Qed.

End Weather.

(** The theorem on the emergency planet with every draw equal to 1/20: at
    the start of a mission a weather update over 1000 ticks runs the clear
    phase's timer (400) out and starts the buildup. *)
Lemma weather_intensity_bounded_phase_on_expiry_witness :
  let E := sampleEnv emergencyPlanet (1 # 20) in
  let st := mission E [] in
  weatherState st = ws_clear /\
  weatherState (updateWeather E 1000 st) = ws_buildup /\
  weatherTimer st - 1000 <= 0.
Proof.
  cbv zeta. split; [reflexivity|]. split; [reflexivity|].
  apply (weather_intensity_bounded_phase_on_expiry
           (sampleEnv emergencyPlanet (1 # 20)) [] 1000).
  vm_compute. discriminate.
Defined.
(** ** Map generation *)

Ltac jsb :=
  repeat match goal with
    | H : JS.ltb _ _ = true |- _ => apply JSFacts.ltb_lt in H
    | H : JS.ltb _ _ = false |- _ => apply JSFacts.ltb_ge in H
    | H : JS.gtb _ _ = true |- _ => apply JSFacts.gtb_gt in H
    | H : JS.gtb _ _ = false |- _ => apply JSFacts.gtb_le in H
    | H : JS.leb _ _ = true |- _ => apply JSFacts.leb_le in H
    | H : JS.leb _ _ = false |- _ => apply JSFacts.leb_gt in H
    | H : JS.geb _ _ = true |- _ => apply JSFacts.geb_ge in H
    | H : JS.geb _ _ = false |- _ => apply JSFacts.geb_lt in H
    end.

(** Case analysis on every test of the goal, outermost first. *)
Ltac tests :=
  repeat match goal with
    | |- context [if ?c then _ else _] =>
        lazymatch c with
        | context [if _ then _ else _] => fail
        | _ => destruct c eqn:?
        end
    end.

(** Case analysis on every scrutinee of the goal, innermost first. *)
Ltac cases :=
  repeat (cbv beta iota zeta; cbn [negb andb orb];
          match goal with
          | |- context [match ?x with _ => _ end] =>
              lazymatch x with
              | context [match _ with _ => _ end] => fail
              | _ => destruct x eqn:?
              end
          end).

(** Projections of a generation state that was just built. *)
Ltac gsimpl :=
  cbn [g_height g_style g_terrain g_hazards g_decorations g_vegetation g_rng fst snd
       withHeight withStyle pushTerrain pushHazard pushDecoration pushVegetation] in *.

(** ** What the steps of a segment leave alone

    As for the frame: [proj] is any observation of the generation state. *)

Section GenFrame.

Variable E : Env.
Variable A : Type.
Variable proj : GenState -> A.

Hypothesis G_draw : forall g, proj (snd (draw E g)) = proj g.
Hypothesis G_height : forall h g, proj (withHeight h g) = proj g.
Hypothesis G_style : forall s g, proj (withStyle s g) = proj g.
Hypothesis G_terrain : forall h g, proj (pushTerrain h g) = proj g.
Hypothesis G_hazard : forall h g, proj (pushHazard h g) = proj g.
Hypothesis G_decoration : forall d g, proj (pushDecoration d g) = proj g.
Hypothesis G_vegetation : forall v g, proj (pushVegetation v g) = proj g.

Ltac gsetters :=
  repeat first
    [ rewrite G_draw | rewrite G_height | rewrite G_style | rewrite G_terrain
    | rewrite G_hazard | rewrite G_decoration | rewrite G_vegetation ].

Ltac gscrut x :=
  lazymatch x with
  | (if ?c then _ else _) => gscrut c
  | (match ?y with _ => _ end) => gscrut y
  | _ =>
      let H := fresh "Hs" in
      destruct x eqn:H;
      try (apply (f_equal snd) in H; cbn [snd] in H; subst)
  end.

Ltac ghead :=
  lazymatch goal with
  | |- proj (if ?c then _ else _) = _ => gscrut c
  | |- proj (match ?x with _ => _ end) = _ => gscrut x
  | |- proj (snd (if ?c then _ else _)) = _ => gscrut c
  | |- proj (snd (match ?x with _ => _ end)) = _ => gscrut x
  end.

Ltac gframe :=
  repeat (cbv beta iota zeta; cbn [fst snd];
          gsetters; autorewrite with frame;
          try ghead);
  try reflexivity.

Lemma chooseStyle_keeps i g : proj (chooseStyle E i g) = proj g.
Proof. unfold chooseStyle. gframe. Qed.

Lemma styleDelta_keeps i g : proj (snd (styleDelta E i g)) = proj g.
Proof. unfold styleDelta. gframe. Qed.
#[local] Hint Rewrite styleDelta_keeps : frame.

Lemma styleHazard_keeps g : proj (snd (styleHazard E g)) = proj g.
Proof. unfold styleHazard. gframe. Qed.
#[local] Hint Rewrite styleHazard_keeps : frame.

Lemma hazardRoll_keeps i x g : proj (snd (hazardRoll E i x g)) = proj g.
Proof. unfold hazardRoll. gframe. Qed.
#[local] Hint Rewrite hazardRoll_keeps : frame.

Lemma extraHazards_keeps f x g : proj (extraHazards E f x g) = proj g.
Proof. unfold extraHazards. gframe. Qed.
#[local] Hint Rewrite extraHazards_keeps : frame.

Lemma placeDecoration_keeps f x g : proj (placeDecoration E f x g) = proj g.
Proof. unfold placeDecoration. gframe. Qed.
#[local] Hint Rewrite placeDecoration_keeps : frame.

Lemma placeVegetation_keeps f x g : proj (placeVegetation E f x g) = proj g.
Proof. unfold placeVegetation. gframe. Qed.
#[local] Hint Rewrite placeVegetation_keeps : frame.

End GenFrame.

Section Generation.

Variable E : Env.

Local Abbreviation M := (env_M E).
Local Abbreviation rnd := (env_rnd E).
Local Abbreviation planet := (env_planet E).

Lemma clampHeight_band h : inBand (clampHeight h).
Proof.
  unfold inBand, clampHeight, minH, maxH, LOGICAL_HEIGHT. cbv zeta.
  tests; jsb; split; lra.
Qed.

Lemma clampHeight_near h d :
  inBand h -> Qabs (clampHeight (h + d) - h) <= Qabs d + 2.
Proof.
  unfold inBand, clampHeight, minH, maxH, LOGICAL_HEIGHT. cbv zeta.
  intros [L U]. apply Qabs_Qle_condition.
  destruct (Qabs_Qle_condition d (Qabs d)) as [B _].
  specialize (B (Qle_refl _)). destruct B as [B1 B2].
  tests; jsb; split; lra.
Qed.

(** *** The height along a segment *)

Lemma hazardRoll_height i x g :
  inBand (g_height g) ->
  let h' := g_height (snd (hazardRoll E i x g)) in
  inBand h' /\ 0 <= h' - g_height g <= 40.
Proof.
  unfold inBand, minH, maxH, LOGICAL_HEIGHT. intros [L U].
  unfold hazardRoll, styleHazard, draw, maxH, LOGICAL_HEIGHT.
  cases; gsimpl; jsb; lra.
Qed.

(** Strips what leaves [proj] alone at the end of a segment. *)
Ltac tail_of proj :=
  rewrite ?(placeVegetation_keeps E _ proj), ?(placeDecoration_keeps E _ proj),
    ?(extraHazards_keeps E _ proj) by reflexivity.

(** The height stays in the band along a segment. *)
Lemma genSegment_band i g : inBand (g_height (genSegment E i g)).
Proof.
  unfold genSegment, genSegmentFlag. cbv zeta.
  destruct (styleDelta E i (chooseStyle E i g)) as [delta g2].
  set (g3 := withHeight (clampHeight (g_height g2 + delta)) g2).
  assert (B3 : inBand (g_height g3)) by (apply clampHeight_band).
  pose proof (hazardRoll_height i (ofNat i * segmentWidth) g3 B3) as HH.
  destruct (hazardRoll E i (ofNat i * segmentWidth) g3) as [f g4].
  cbn [snd] in *. cbv zeta in HH.
  tail_of g_height. cbn [g_height pushTerrain]. tail_of g_height.
  apply HH.
Qed.

Lemma genLoop_band n g0 : inBand (g_height g0) -> inBand (g_height (genLoop E n g0)).
Proof.
  intro B. destruct n as [|n]; simpl; [exact B | apply genSegment_band].
Qed.

Lemma genStart_band cursor : inBand (g_height (genStart E cursor)).
Proof. unfold inBand, genStart, minH, maxH, LOGICAL_HEIGHT. cbn. lra. Qed.

(** The draws are in [0, 1) and sine and cosine in [-1, 1]. *)
Hypothesis rnd_range : forall n, 0 <= rnd n < 1.
Hypothesis sin_range : forall a, -(1) <= sin M a <= 1.
Hypothesis cos_range : forall a, -(1) <= cos M a <= 1.

Lemma plateau_step r : 0 <= r < 1 -> -(40) <= inject_Z (JS.floor (r * 3) - 1) * 40 <= 40.
Proof.
  intros [R0 R1]. unfold JS.floor.
  assert (L : (0 <= Qfloor (r * 3))%Z).
  { change 0%Z with (Qfloor 0). apply Qfloor_resp_le. lra. }
  assert (U : (Qfloor (r * 3) < 3)%Z).
  { rewrite Zlt_Qlt. apply Qle_lt_trans with (r * 3); [apply Qfloor_le|].
    change (inject_Z 3) with 3. lra. }
  assert (B : -(1) <= inject_Z (Qfloor (r * 3) - 1) <= 1).
  { split.
    - change (-(1)) with (inject_Z (-1)). rewrite <- Zle_Qle. lia.
    - change 1 with (inject_Z 1). rewrite <- Zle_Qle. lia. }
  lra.
Qed.

Lemma styleDelta_bound i g :
  Qabs (fst (styleDelta E i g)) <= styleMaxDelta (g_style g).
Proof.
  unfold styleDelta, draw.
  pose proof (rnd_range (g_rng g)) as R.
  destruct (g_style g) as [[| | |]|]; cbv beta iota zeta; cbn [styleMaxDelta fst].
  - pose proof (sin_range (ofNat i * (1 # 10))) as Sn.
    pose proof (cos_range (ofNat i * (5 # 100))) as Cs.
    apply Qabs_Qle_condition. lra.
  - apply Qabs_Qle_condition. lra.
  - destruct (_ =? _)%Z; cbn [fst]; apply Qabs_Qle_condition; lra.
  - destruct (_ =? _)%Z; cbn [fst]; [|apply Qabs_Qle_condition; lra].
    apply Qabs_Qle_condition. apply plateau_step. exact R.
  - apply Qabs_Qle_condition. lra.
Qed.

(** The height and the style after segment [i]. *)
Lemma genSegment_height i g :
  inBand (g_height g) ->
  inBand (g_height (genSegment E i g)) /\
  Qabs (g_height (genSegment E i g) - g_height g)
  <= styleMaxDelta (g_style (genSegment E i g)) + 42.
Proof.
  intro B. unfold genSegment, genSegmentFlag. cbv zeta.
  destruct (styleDelta E i (chooseStyle E i g)) as [delta g2] eqn:D.
  pose proof (styleDelta_bound i (chooseStyle E i g)) as DB.
  rewrite D in DB. cbn [fst] in DB.
  assert (H2 : g_height g2 = g_height g).
  { replace g2 with (snd (styleDelta E i (chooseStyle E i g))) by (rewrite D; reflexivity).
    rewrite (styleDelta_keeps E _ g_height) by reflexivity.
    apply chooseStyle_keeps; reflexivity. }
  assert (S2 : g_style g2 = g_style (chooseStyle E i g)).
  { replace g2 with (snd (styleDelta E i (chooseStyle E i g))) by (rewrite D; reflexivity).
    apply styleDelta_keeps; reflexivity. }
  set (g3 := withHeight (clampHeight (g_height g2 + delta)) g2).
  destruct (hazardRoll E i (ofNat i * segmentWidth) g3) as [f g4] eqn:HR.
  cbn [snd].
  tail_of g_height. tail_of g_style.
  cbn [g_style pushTerrain g_height].
  tail_of g_height. tail_of g_style.
  assert (B3 : inBand (g_height g3)) by (apply clampHeight_band).
  pose proof (hazardRoll_height i (ofNat i * segmentWidth) g3 B3) as HH.
  rewrite HR in HH. cbn [snd] in HH. cbv zeta in HH. destruct HH as [B4 Up].
  assert (S4 : g_style g4 = g_style g3).
  { replace g4 with (snd (hazardRoll E i (ofNat i * segmentWidth) g3))
      by (rewrite HR; reflexivity).
    apply hazardRoll_keeps; reflexivity. }
  split; [exact B4|].
  rewrite S4. cbn [g3 g_style withHeight]. rewrite S2.
  pose proof (clampHeight_near (g_height g) delta B) as N.
  cbn [g3 g_height withHeight] in Up. rewrite H2 in Up.
  apply Qabs_Qle_condition. apply Qabs_Qle_condition in N.
  lra.
Qed.

Lemma genSegment_terrain i g :
  g_terrain (genSegment E i g) = g_terrain g ++ [g_height (genSegment E i g)].
Proof.
  unfold genSegment, genSegmentFlag. cbv zeta.
  destruct (styleDelta E i (chooseStyle E i g)) as [delta g2] eqn:D.
  assert (T2 : g_terrain g2 = g_terrain g).
  { replace g2 with (snd (styleDelta E i (chooseStyle E i g))) by (rewrite D; reflexivity).
    rewrite (styleDelta_keeps E _ g_terrain) by reflexivity.
    apply chooseStyle_keeps; reflexivity. }
  destruct (hazardRoll E i _ _) as [f g4] eqn:HR.
  cbn [snd].
  tail_of g_terrain. tail_of g_height.
  cbn [g_terrain g_height pushTerrain].
  tail_of g_terrain. tail_of g_height.
  replace g4 with (snd (hazardRoll E i (ofNat i * segmentWidth)
                          (withHeight (clampHeight (g_height g2 + delta)) g2)))
    by (rewrite HR; reflexivity).
  rewrite (hazardRoll_keeps E _ g_terrain) by reflexivity.
  cbn [g_terrain withHeight]. rewrite T2. reflexivity.
Qed.

Lemma genLoop_length n g0 :
  length (g_terrain (genLoop E n g0)) = (length (g_terrain g0) + n)%nat.
Proof.
  induction n as [|n IH]; simpl; [lia|].
  rewrite genSegment_terrain, length_app, IH. simpl. lia.
Qed.

(** Sample [k] of the terrain is the height after segment [k]. *)
Lemma genLoop_nth n k g0 :
  g_terrain g0 = [] -> (k < n)%nat ->
  nth k (g_terrain (genLoop E n g0)) 0 = g_height (genLoop E (S k) g0).
Proof.
  intros T0. induction n as [|n IH]; intro K; [lia|].
  cbn [genLoop]. rewrite genSegment_terrain.
  pose proof (genLoop_length n g0) as Len. rewrite T0 in Len. simpl in Len.
  destruct (Nat.eq_dec k n) as [->|Ne].
  - rewrite app_nth2 by lia. rewrite Len, Nat.sub_diag. reflexivity.
  - rewrite app_nth1 by lia. apply IH. lia.
Qed.


End Generation.


(** ** Hazards, vegetation and the style of a segment *)

Section Segments.

Variable E : Env.

Local Abbreviation planet := (env_planet E).

(** *** Hazards and vegetation of one segment *)

(** The hazard roll either digs a pit with one strip of lava, acid, geyser or
    electricity and raises the flag, or adds no strip at all. *)
Lemma hazardRoll_hazards i x g :
  let r := hazardRoll E i x g in
  (fst r = true ->
   exists k, g_hazards (snd r) = g_hazards g ++ [mkHazard x segmentWidth k] /\
             (k = lava \/ k = acid \/ k = geyser \/ k = electric)) /\
  (fst r = false -> g_hazards (snd r) = g_hazards g).
Proof.
  unfold hazardRoll, styleHazard, colourHazard, draw.
  cases; gsimpl; (split; intros F); try discriminate; try reflexivity;
    eexists; (split; [reflexivity | tauto]).
Qed.

Lemma extraHazards_flagged x g : extraHazards E true x g = g.
Proof. reflexivity. Qed.

Lemma placeDecoration_flagged x g : placeDecoration E true x g = g.
Proof. reflexivity. Qed.

Lemma placeVegetation_flagged x g : placeVegetation E true x g = g.
Proof. reflexivity. Qed.

Lemma extraHazards_hazards f x g :
  exists hs, g_hazards (extraHazards E f x g) = g_hazards g ++ hs /\
             Forall (fun h => htype h = spikes \/ htype h = ice) hs.
Proof.
  unfold extraHazards, draw.
  cases; gsimpl; rewrite <- ?app_assoc;
    first [ eexists; split; [reflexivity|]; repeat constructor; cbn; auto; fail
          | exists []; rewrite app_nil_r; split; [reflexivity | constructor] ].
Qed.

(** C4, amended.  In every segment: when the hazard roll places its strip
    (lava, acid, geyser or electricity, in a pit), that strip is the only one
    of the segment and neither a decoration nor a plant is placed; without
    that strip, the segment gets at most floor spikes and ice, and these do
    not keep plants away. *)
Theorem pit_hazard_excludes_vegetation (i : nat) (g : GenState) :
  let r := genSegmentFlag E i g in
  (fst r = true ->
   g_vegetation (snd r) = g_vegetation g /\
   g_decorations (snd r) = g_decorations g /\
   exists k, g_hazards (snd r) = g_hazards g ++ [mkHazard (ofNat i * segmentWidth) segmentWidth k]
             /\ (k = lava \/ k = acid \/ k = geyser \/ k = electric)) /\
  (fst r = false ->
   exists hs, g_hazards (snd r) = g_hazards g ++ hs /\
              Forall (fun h => htype h = spikes \/ htype h = ice) hs).
Proof.
  unfold genSegmentFlag. cbv zeta.
  destruct (styleDelta E i (chooseStyle E i g)) as [delta g2] eqn:D.
  assert (K : forall (A : Type) (proj : GenState -> A),
             (forall g, proj (snd (draw E g)) = proj g) ->
             (forall s g, proj (withStyle s g) = proj g) ->
             proj g2 = proj g).
  { intros A proj P1 P2.
    replace g2 with (snd (styleDelta E i (chooseStyle E i g))) by (rewrite D; reflexivity).
    rewrite (styleDelta_keeps E _ proj) by assumption.
    apply chooseStyle_keeps; assumption. }
  set (g3 := withHeight (clampHeight (g_height g2 + delta)) g2).
  pose proof (hazardRoll_hazards i (ofNat i * segmentWidth) g3) as HZ.
  pose proof (hazardRoll_keeps E _ g_vegetation (fun _ => eq_refl) (fun _ _ => eq_refl)
                (fun _ _ => eq_refl) i (ofNat i * segmentWidth) g3) as HV.
  pose proof (hazardRoll_keeps E _ g_decorations (fun _ => eq_refl) (fun _ _ => eq_refl)
                (fun _ _ => eq_refl) i (ofNat i * segmentWidth) g3) as HD.
  destruct (hazardRoll E i (ofNat i * segmentWidth) g3) as [f g4].
  cbn [fst snd] in *. cbv zeta in HZ. destruct HZ as [HZ1 HZ0].
  assert (H3 : g_hazards g3 = g_hazards g) by (apply (K _ g_hazards); reflexivity).
  assert (V3 : g_vegetation g3 = g_vegetation g) by (apply (K _ g_vegetation); reflexivity).
  assert (D3 : g_decorations g3 = g_decorations g)
    by (apply (K _ g_decorations); reflexivity).
  split; intro F; subst f.
  - rewrite extraHazards_flagged, placeDecoration_flagged, placeVegetation_flagged.
    cbn [g_vegetation g_decorations g_hazards pushTerrain].
    rewrite HV, HD, V3, D3. split; [reflexivity|]. split; [reflexivity|].
    destruct (HZ1 eq_refl) as (k & Hk & Kk). exists k. rewrite Hk, H3. auto.
  - rewrite (placeVegetation_keeps E _ g_hazards), (placeDecoration_keeps E _ g_hazards)
      by reflexivity.
    cbn [g_hazards pushTerrain].
    destruct (extraHazards_hazards false (ofNat i * segmentWidth) g4) as (hs & Hs & Fs).
    exists hs. rewrite Hs, (HZ0 eq_refl), H3. auto.
Qed.

(** *** Without biomes, without weather traits *)

Lemma chooseStyle_none i g :
  allowedBiomes planet = [] -> g_style g = None -> g_style (chooseStyle E i g) = None.
Proof.
  intros B S. unfold chooseStyle. destruct (_ =? _)%Z; [|exact S].
  unfold draw. cbv beta iota zeta. rewrite B. cbn [length withStyle g_style].
  unfold JS.index. destruct (_ <? _)%Z; [reflexivity|].
  destruct (Z.to_nat _); reflexivity.
Qed.

Lemma genSegment_style i g :
  g_style (genSegment E i g) = g_style (chooseStyle E i g).
Proof.
  unfold genSegment, genSegmentFlag. cbv zeta.
  destruct (styleDelta E i (chooseStyle E i g)) as [delta g2] eqn:D.
  destruct (hazardRoll E i _ _) as [f g4] eqn:HR. cbn [snd].
  rewrite (placeVegetation_keeps E _ g_style), (placeDecoration_keeps E _ g_style)
    by reflexivity.
  cbn [g_style pushTerrain].
  rewrite (extraHazards_keeps E _ g_style) by reflexivity.
  replace g4 with (snd (hazardRoll E i (ofNat i * segmentWidth)
                          (withHeight (clampHeight (g_height g2 + delta)) g2)))
    by (rewrite HR; reflexivity).
  rewrite (hazardRoll_keeps E _ g_style) by reflexivity.
  cbn [g_style withHeight].
  replace g2 with (snd (styleDelta E i (chooseStyle E i g))) by (rewrite D; reflexivity).
  apply styleDelta_keeps; reflexivity.
Qed.

Lemma genLoop_none n cursor :
  allowedBiomes planet = [] -> g_style (genLoop E n (genStart E cursor)) = None.
Proof.
  intro B. induction n as [|n IH]; simpl.
  - rewrite B. reflexivity.
  - rewrite genSegment_style. apply chooseStyle_none; assumption.
Qed.

End Segments.

(** The theorem on the first pit of the emergency planet (segment 11, every
    draw equal to 1/20). *)
Lemma pit_hazard_excludes_vegetation_witness :
  let E := sampleEnv emergencyPlanet (1 # 20) in
  let g := genLoop E 11 (genStart E 0) in
  fst (genSegmentFlag E 11 g) = true /\
  g_vegetation (snd (genSegmentFlag E 11 g)) = g_vegetation g.
Proof.
  cbv zeta. split; [vm_compute; reflexivity|].
  apply (pit_hazard_excludes_vegetation (sampleEnv emergencyPlanet (1 # 20)) 11).
  vm_compute. reflexivity.
Defined.

(** C4, as stated, fails: on the emergency planet with every draw equal to
    1/20, segment 0 gets floor spikes and a plant. *)
Lemma spikes_with_vegetation_counterexample :
  ~ HazardExcludesVegetation (sampleEnv emergencyPlanet (1 # 20)) 0
      (genStart (sampleEnv emergencyPlanet (1 # 20)) 0).
Proof.
  unfold HazardExcludesVegetation. intro H.
  assert (D : g_hazards (genSegment (sampleEnv emergencyPlanet (1 # 20)) 0
                           (genStart (sampleEnv emergencyPlanet (1 # 20)) 0))
              <> g_hazards (genStart (sampleEnv emergencyPlanet (1 # 20)) 0)).
  { vm_compute. discriminate. }
  specialize (H D). vm_compute in H. discriminate.
Qed.
(** ** Empty configuration *)

Section EmptyConfig.

Variable E : Env.

Local Abbreviation planet := (env_planet E).

Lemma weatherTransition_clear st :
  weatherTraits planet = [] -> clearSky st -> clearSky (weatherTransition E st).
Proof.
  intros T [S W]. unfold weatherTransition. rewrite S, T.
  unfold random. cbv beta iota zeta. cbn [length Nat.ltb Nat.leb].
  rewrite andb_false_r. split; [exact S | exact W].
Qed.

Lemma updateWeather_clear dt st :
  weatherTraits planet = [] -> clearSky st -> clearSky (updateWeather E dt st).
Proof.
  intros T C. unfold updateWeather.
  assert (C1 : clearSky (weatherClock dt st)).
  { destruct C as [S W]. split.
    - rewrite weatherClock_keeps by reflexivity. exact S.
    - rewrite weatherClock_keeps by reflexivity. exact W. }
  assert (C2 : clearSky (weatherMachine E dt (weatherClock dt st))).
  { unfold weatherMachine. destruct (JS.gtb _ _); cbv zeta; [|split; reflexivity].
    destruct (JS.leb _ _); [apply weatherTransition_clear; trivial|]; exact C1. }
  destruct C2 as [S W]. split.
  - rewrite weatherRamp_keeps by reflexivity. exact S.
  - rewrite weatherRamp_keeps by reflexivity. exact W.
Qed.

Lemma update_clear dt st :
  weatherTraits planet = [] -> clearSky st -> clearSky (update E dt st).
Proof.
  intros T C. unfold update.
  destruct (JS.gtb (hitStop st) 0); [exact C|].
  destruct (JS.gtb (introTimer st) 0).
  - destruct C as [S W]. split; rewrite introStep_keeps by reflexivity; assumption.
  - unfold mainStep. cbv zeta.
    destruct (updateWeather_clear dt st T C) as [S W].
    split; rewrite afterWeather_keeps by reflexivity; assumption.
Qed.

Lemma mission_clear actions :
  weatherTraits planet = [] -> clearSky (mission E actions).
Proof.
  intro T. unfold mission.
  assert (H0 : clearSky (missionStart E)).
  { unfold missionStart, startMission. cbv zeta.
    split; (rewrite fold_left_keeps; [reflexivity|]);
      intros; apply placeCore_keeps; reflexivity. }
  revert H0. generalize (missionStart E) as st.
  induction actions as [|a actions IH]; intros st H0; simpl; [exact H0|].
  apply IH. destruct a; cbn [act]; try exact H0.
  unfold loopFrame. destruct (isPlaying st); [|exact H0].
  apply update_clear; assumption.
Qed.

(** C8, amended.  Without biomes the generator has no default set to fall
    back on: it runs without any style (every segment is generated with an
    undefined style) and still produces all 350 samples, each within the
    height band.  Without weather traits the sky stays clear for the whole
    mission. *)
Theorem empty_config_runs_without_default_biome :
  (allowedBiomes planet = [] ->
   forall cursor i : nat,
     styleOfSegment E cursor i = None /\
     length (g_terrain (generateMap E cursor)) = segments /\
     ((i < segments)%nat ->
      100 <= nth i (g_terrain (generateMap E cursor)) 0 <= 550)) /\
  (weatherTraits planet = [] ->
   forall actions : list Action,
     weatherState (mission E actions) = ws_clear /\
     currentWeather (mission E actions) = clear).
Proof.
  split.
  - intros B cursor i. split; [apply genLoop_none; exact B|].
    split; [unfold generateMap; rewrite genLoop_length; reflexivity|].
    intro Hi. unfold generateMap. rewrite genLoop_nth by (reflexivity || exact Hi).
    pose proof (genLoop_band E (S i) (genStart E cursor) (genStart_band E cursor)) as B1.
    unfold inBand, minH, maxH, LOGICAL_HEIGHT in B1.
    change (600 - 50) with 550 in B1. exact B1.
  - intros T actions. apply mission_clear. exact T.
Qed.

End EmptyConfig.

(** The theorem on the planet without biomes and traits. *)
Lemma empty_config_runs_without_default_biome_witness :
  styleOfSegment (sampleEnv barePlanet (1 # 20)) 0 3 = None /\
  weatherState (mission (sampleEnv barePlanet (1 # 20)) [Frame 1; Frame 1]) = ws_clear.
Proof.
  destruct (empty_config_runs_without_default_biome (sampleEnv barePlanet (1 # 20)))
    as [G W].
  split.
  - apply (G eq_refl 0%nat 3%nat).
  - apply (W eq_refl [Frame 1; Frame 1]).
Defined.

(** C8, as stated, fails: on the planet without biomes the first segment is
    generated in no biome at all, default or other. *)
Lemma no_default_biome_counterexample :
  ~ UsesSomeBiome (sampleEnv barePlanet (1 # 20)) 0 0.
Proof.
  unfold UsesSomeBiome. intros [b Hb]. vm_compute in Hb. discriminate.
Qed.
(** ** Elite enemies *)

Section Elite.

Variable E : Env.

Lemma floor_double b : JS.floor (inject_Z b * 2) = (2 * b)%Z.
Proof.
  unfold JS.floor. rewrite <- (Qfloor_Z (2 * b)).
  apply Qfloor_comp. rewrite inject_Z_mult. change (inject_Z 2) with 2. ring.
Qed.

Lemma floor_triple b : JS.floor (inject_Z (2 * b) * (15 # 10)) = (3 * b)%Z.
Proof.
  unfold JS.floor. rewrite <- (Qfloor_Z (3 * b)).
  apply Qfloor_comp. rewrite !inject_Z_mult.
  change (inject_Z 2) with 2. change (inject_Z 3) with 3. field.
Qed.

Lemma inject_double b : inject_Z (2 * b) == 2 * inject_Z b.
Proof. rewrite inject_Z_mult. reflexivity. Qed.

Lemma inject_triple b : inject_Z (3 * b) == 3 * inject_Z b.
Proof. rewrite inject_Z_mult. reflexivity. Qed.

(** The enemy that [spawnEnemy] appends, by archetype and rarity. *)
Lemma spawnEnemy_spawned x groundY fa fr st :
  exists e a,
    enemies (spawnEnemy E x groundY fa fr st) = enemies st ++ [e] /\
    archetype e = Some a /\
    (fa = None \/ fa = Some a) /\
    ((a <> sandworm /\
      ((rarity e = Some common /\ fr <> Some elite /\ health e = commonHealth E a) \/
       (rarity e = Some elite /\ fr <> Some common /\ health e == 2 * commonHealth E a)))
     \/
     (a = sandworm /\ rarity e = Some elite /\
      ((fr <> Some elite /\
        health e = inject_Z (JS.floor (commonHealth E a * (15 # 10)))) \/
       (fr <> Some common /\ health e == 3 * commonHealth E a)))).
Proof.
  unfold spawnEnemy, random. cbv beta iota zeta.
  set (rolled := rollArchetype (env_rnd E (rngPos st))).
  destruct fa as [a|]; [|set (a := rolled)];
    (destruct fr as [[|]|];
     destruct a eqn:A; cbn [isHornetOrSpore EnemyArchetype_beq];
     cbv beta iota zeta; cbn [fst snd set_rngPos rngPos];
     repeat match goal with
       | |- context [if JS.gtb ?u ?v then _ else _] => destruct (JS.gtb u v)
       end;
     cbv beta iota zeta; cbn [enemies set_enemies set_rngPos];
     eexists; exists a; subst a;
     (split; [rewrite ?A; reflexivity|]);
     cbn [archetype rarity health]; rewrite ?A;
     (split; [reflexivity|]); (split; [auto|]);
     unfold commonHealth, difficultyMult; cbn [spawnStatsOf];
     rewrite ?floor_double, ?floor_triple;
     first
       [ left; split; [discriminate|]; left;
         split; [reflexivity|]; split; [discriminate|]; reflexivity
       | left; split; [discriminate|]; right;
         split; [reflexivity|]; split; [discriminate|]; apply inject_double
       | right; split; [reflexivity|]; split; [reflexivity|]; left;
         split; [discriminate|]; reflexivity
       | right; split; [reflexivity|]; split; [reflexivity|]; right;
         split; [discriminate|]; apply inject_triple ]).
Qed.

Lemma scoreAward_elite e a :
  archetype e = Some a -> rarity e = Some elite ->
  scoreAward E e == 2 * commonScore E a.
Proof.
  intros A R. unfold scoreAward, isElite, commonScore. rewrite R, A. ring.
Qed.

Lemma scoreAward_common e a :
  archetype e = Some a -> rarity e = Some common ->
  scoreAward E e = commonScore E a.
Proof.
  intros A R. unfold scoreAward, isElite, commonScore. rewrite R, A. reflexivity.
Qed.

(** The guard that [placeCore] posts next to a core of tier 2 or 3. *)
Lemma placeCore_guard i st :
  enemies (placeCore E i st) = enemies st \/
  exists e a,
    enemies (placeCore E i st) = enemies st ++ [e] /\
    archetype e = Some a /\ (a = sentinel \/ a = dasher) /\
    rarity e = Some elite /\ health e = guardHp E a.
Proof.
  unfold placeCore, random. cbv beta iota zeta.
  destruct (2 <=? _)%Z; [|left; reflexivity].
  right. cbn [enemies set_enemies set_loot set_rngPos].
  destruct (JS.gtb _ _); eexists; eexists;
    (split; [reflexivity|]); cbn [archetype rarity health]; auto.
Qed.


End Elite.


(** ** Combat *)

Section Combat.

Variable E : Env.

Local Abbreviation K := (env_K E).

Lemma frontal_hit proj enemy :
  frontal proj enemy ->
  (facingRight enemy && JS.ltb (X (vel proj)) 0)
  || (negb (facingRight enemy) && JS.gtb (X (vel proj)) 0) = true.
Proof.
  intros [[F V] | [F V]]; rewrite F; cbn [negb andb orb].
  - apply JSFacts.ltb_lt in V. rewrite V. reflexivity.
  - apply JSFacts.gtb_gt in V. rewrite V. reflexivity.
Qed.

Lemma inState_iff s e : inState s e = true <-> aiState e = Some s.
Proof.
  unfold inState. destruct (aiState e) as [t|]; [|split; discriminate].
  split.
  - intro H. apply internal_AiState_dec_bl in H. congruence.
  - intro H. injection H as ->. apply internal_AiState_dec_lb. reflexivity.
Qed.

Lemma inState_false s e : aiState e <> Some s -> inState s e = false.
Proof.
  intro N. destruct (inState s e) eqn:I; [|reflexivity].
  apply inState_iff in I. contradiction.
Qed.

Lemma applyHit_health proj enemy :
  health (applyHit E proj enemy) = health enemy - inject_Z (finalDmg E proj).
Proof.
  unfold applyHit. cbv zeta.
  destruct (inState idle _); reflexivity.
Qed.


(** C9.  A player at 100 health whose hit timer is 0 and who overlaps a
    crawler loses exactly 15 health (85 are left) and gets the fixed
    invulnerability time; while the hit timer is positive, contact with any
    enemy changes nothing. *)
Theorem contact_hit_costs_15_then_invulnerable :
  (forall (ent : Entity) (st : GameState),
     checkCollision (player st) ent = true ->
     archetype ent = Some crawler ->
     hitTimer (player st) == 0 ->
     health (player st) == 100 ->
     health (player (contactDamage E ent st)) == 85 /\
     hitTimer (player (contactDamage E ent st)) = INVULNERABILITY_FRAMES (PHYSICS K)) /\
  (forall (ent : Entity) (st : GameState),
     0 < hitTimer (player st) -> contactDamage E ent st = st).
Proof.
  split.
  - intros ent st C A T H. unfold contactDamage. cbv zeta. rewrite C.
    unfold isArch. rewrite A. cbn [EnemyArchetype_beq negb andb].
    assert (L : JS.leb (hitTimer (player st)) 0 = true).
    { apply JSFacts.leb_le. rewrite T. apply Qle_refl. }
    rewrite L. cbn. split; [rewrite H; reflexivity | reflexivity].
  - intros ent st T. unfold contactDamage. cbv zeta.
    assert (L : JS.leb (hitTimer (player st)) 0 = false)
      by (apply JSFacts.leb_gt; exact T).
    rewrite L. destruct (_ && _); reflexivity.
Qed.

End Combat.



(** The player of the mounted state (100 health, hit timer 0) touched by a
    crawler. *)
Lemma contact_hit_costs_15_then_invulnerable_witness :
  let E := sampleEnv emergencyPlanet (1 # 2) in
  health (player (contactDamage E (sampleEnemy crawler chase 110 100 30) (mountState E)))
  == 85.
Proof.
  cbv zeta.
  apply (proj1 (contact_hit_costs_15_then_invulnerable (sampleEnv emergencyPlanet (1 # 2))));
    reflexivity.
Defined.
(** ** The boss trigger *)

Lemma lootType_core_or_not (l : option LootType) :
  l = Some loot_core \/ l <> Some loot_core.
Proof. destruct l as [[| |]|]; (left; reflexivity) || (right; discriminate). Qed.

Section Boss.

Variable E : Env.

(** Closes the side conditions of a frame lemma at [bossView]. *)
Ltac view_kept lemma := apply lemma; intros; reflexivity.

Lemma queueMessage_view t st : bossView E (queueMessage t st) = bossView E st.
Proof. reflexivity. Qed.

Lemma spawnBoss_inactive st :
  bossActive st = false ->
  bossView E (spawnBoss E st)
  = (true, coresCollected st, totalCoresNeeded st, S (bossSpawns st)).
Proof. intro B. unfold spawnBoss. rewrite B. reflexivity. Qed.

Lemma spawnBoss_active st : bossActive st = true -> spawnBoss E st = st.
Proof. intro B. unfold spawnBoss. rewrite B. reflexivity. Qed.

(** What a core pickup does to the view. *)
Lemma pickUp_core_view item st :
  lootType item = Some loot_core ->
  bossView E (pickUp E item st)
  = if (totalCoresNeeded st <=? coresCollected st + 1)%Z
    then if bossActive st
         then (true, (coresCollected st + 1)%Z, totalCoresNeeded st, bossSpawns st)
         else (true, (coresCollected st + 1)%Z, totalCoresNeeded st, S (bossSpawns st))
    else (bossActive st, (coresCollected st + 1)%Z, totalCoresNeeded st, bossSpawns st).
Proof.
  intro L. unfold pickUp. rewrite L. cbv zeta.
  repeat match goal with
    | |- context [if (?a =? ?b)%Z then _ else _] => destruct (a =? b)%Z
    end;
    cbn [totalCoresNeeded coresCollected queueMessage set_messageQueue set_score
         set_coresCollected];
    (destruct (_ <=? _)%Z; [|reflexivity]);
    unfold spawnBoss;
    cbn [bossActive queueMessage set_messageQueue set_score set_coresCollected];
    destruct (bossActive st) eqn:B; unfold bossView;
    cbn [bossActive coresCollected totalCoresNeeded queueMessage set_messageQueue
         set_score set_coresCollected];
    rewrite ?B; reflexivity.
Qed.

Lemma pickUp_other_view item st :
  lootType item <> Some loot_core -> bossView E (pickUp E item st) = bossView E st.
Proof.
  intro L. unfold pickUp.
  destruct (lootType item) as [[| |]|]; try congruence; try reflexivity.
  destruct (weaponType item); reflexivity.
Qed.

Lemma pickUp_inv item st : bossInv E st -> bossInv E (pickUp E item st).
Proof.
  unfold bossInv. intro I.
  destruct (lootType_core_or_not (lootType item)) as [L | L].
  - rewrite (pickUp_core_view item st L).
    unfold bossView, bossInvOf in *.
    destruct I as [C [(B & S & D) | (B & S & D1 & D2)]]; rewrite B, S.
    + destruct (_ <=? _)%Z eqn:T; [apply Z.leb_le in T | apply Z.leb_gt in T];
        (split; [lia|]); [right | left]; repeat split; try lia.
    + destruct (_ <=? _)%Z eqn:T; [apply Z.leb_le in T | apply Z.leb_gt in T];
        (split; [lia|]); [right | lia]; repeat split; try lia.
  - rewrite (pickUp_other_view item st L). exact I.
Qed.

(** Rewrites with a frame lemma at [bossView]. *)
Ltac view_step lemma := rewrite (lemma E _ (bossView E)) by (intros; reflexivity).

Lemma lootStep_inv dt item st : bossInv E st -> bossInv E (snd (lootStep E dt item st)).
Proof.
  intro I. unfold lootStep. cbv zeta.
  destruct (checkCollision _ _); cbn [snd]; [apply pickUp_inv|]; exact I.
Qed.

Lemma lootLoop_inv dt todo done st : bossInv E st -> bossInv E (lootLoop E dt todo done st).
Proof.
  revert done st. induction todo as [|item todo IH]; intros done st I; simpl.
  - exact I.
  - pose proof (lootStep_inv dt item st I) as I'.
    destruct (lootStep E dt item st) as [item' st']. apply IH. exact I'.
Qed.

Lemma beforeLoot_view dt st :
  bossView E (projectilesPhase E dt (enemiesPhase E dt (playerPhase E dt
                (updateWeather E dt st))))
  = bossView E st.
Proof.
  view_step projectilesPhase_keeps. view_step enemiesPhase_keeps.
  view_step playerPhase_keeps. view_step updateWeather_keeps. reflexivity.
Qed.

Lemma update_inv dt st : bossInv E st -> bossInv E (update E dt st).
Proof.
  intro I. unfold update.
  destruct (JS.gtb (hitStop st) 0); [exact I|].
  destruct (JS.gtb (introTimer st) 0).
  - unfold bossInv. view_step introStep_keeps. exact I.
  - unfold mainStep. cbv zeta. unfold bossInv.
    rewrite (checkGameOver_keeps _ (bossView E)) by (intros; reflexivity).
    rewrite (compact_keeps _ (bossView E)) by (intros; reflexivity).
    apply lootLoop_inv. unfold bossInv. rewrite beforeLoot_view. exact I.
Qed.

Lemma act_inv st a : bossInv E st -> bossInv E (act E st a).
Proof.
  intro I. destruct a; cbn [act]; try exact I.
  unfold loopFrame. destruct (isPlaying st); [apply update_inv|]; exact I.
Qed.

Lemma missionStart_inv : bossInv E (missionStart E).
Proof.
  unfold bossInv, missionStart, startMission. cbv zeta.
  rewrite (fold_left_keeps _ (bossView E))
    by (intros; apply (placeCore_keeps E _ (bossView E)); intros; reflexivity).
  unfold bossView, bossInvOf, bossSpawns. cbn. split; [lia|]. left. auto.
Qed.

Lemma mission_inv actions : bossInv E (mission E actions).
Proof.
  unfold mission. generalize missionStart_inv. generalize (missionStart E) as st.
  induction actions as [|a actions IH]; intros st I; simpl; [exact I|].
  apply IH. apply act_inv. exact I.
Qed.


End Boss.

(** ** A frame of zero length *)

Lemma trunc_compat a b : a == b -> JS.trunc a = JS.trunc b.
Proof.
  intro H. unfold JS.trunc. rewrite H.
  destruct (Qle_bool 0 b); [apply Qfloor_comp | apply Qceiling_comp]; exact H.
Qed.

Lemma sampleWeight_compat a b : a == b -> sampleWeight a == sampleWeight b.
Proof.
  intro H. unfold sampleWeight, JS.rem.
  rewrite (trunc_compat (a / 50) (b / 50)) by (rewrite H; reflexivity).
  rewrite H. reflexivity.
Qed.

(** The ground height does not tell two equal abscissas apart. *)
Lemma groundHeight_compat terrain a b :
  a == b -> groundHeight terrain a == groundHeight terrain b.
Proof.
  intro H. unfold groundHeight, getGroundHeightAt, sampleIndex1, sampleIndex2, JS.floor.
  rewrite (Qfloor_comp (a / 50) (b / 50)) by (rewrite H; reflexivity).
  destruct (Nat.eqb _ _); [reflexivity|]. cbv zeta.
  destruct (JS.index terrain _) as [h1|]; [|reflexivity].
  destruct (JS.index terrain _) as [h2|]; [|reflexivity].
  rewrite (sampleWeight_compat a b H). reflexivity.
Qed.

Section ZeroFrame.

Variable E : Env.

(** Closes a frame lemma at an observation of the player's body or of the
    terrain. *)
Ltac kept lemma :=
  apply lemma; intros; try reflexivity; unfold body; cbn [player set_player]; congruence.

Lemma body_eq a b :
  body a = body b ->
  pos (player a) = pos (player b) /\ size (player a) = size (player b).
Proof. unfold body. intro H. injection H as P S. split; assumption. Qed.

Lemma beforeMove_body dt st :
  let st' := shoot E (jumpAndJetpack E dt
               (moveHorizontal E dt (hazardUnder (updateAim E (tickTimers dt st)))
                  (updateAim E (tickTimers dt st)))) in
  body st' = body st /\ terrain st' = terrain st.
Proof.
  cbv zeta. split.
  - rewrite (shoot_keeps E _ body), (jumpAndJetpack_keeps E _ body),
      (moveHorizontal_keeps E _ body), (updateAim_keeps E _ body)
      by (intros; try reflexivity; unfold body; cbn [player set_player]; congruence).
    kept (tickTimers_keeps _ body).
  - rewrite (shoot_keeps E _ terrain), (jumpAndJetpack_keeps E _ terrain),
      (moveHorizontal_keeps E _ terrain), (updateAim_keeps E _ terrain)
      by (intros; reflexivity).
    kept (tickTimers_keeps _ terrain).
Qed.

(** Integration over a frame of zero length moves nothing. *)
Lemma integratePlayer_zero st :
  let st' := integratePlayer E 0 st in
  X (pos (player st')) == X (pos (player st)) /\
  Y (pos (player st')) == Y (pos (player st)) /\
  size (player st') = size (player st) /\ terrain st' = terrain st.
Proof.
  unfold integratePlayer. cbv zeta. cbn. repeat split; ring.
Qed.

(** Landing: a player who was not below the ground stays where it is. *)
Lemma resolveGround_pos groundY st x y :
  X (pos (player st)) == x -> Y (pos (player st)) == y ->
  0 <= x -> y + Y (size (player st)) <= groundY ->
  X (pos (player (resolveGround groundY st))) == x /\
  Y (pos (player (resolveGround groundY st))) == y.
Proof.
  intros Hx Hy X0 G. unfold resolveGround. cbv zeta.
  set (p1 := if JS.geb _ _ then _ else _).
  assert (P1 : X (pos p1) == x /\ Y (pos p1) == y).
  { unfold p1. destruct (JS.geb _ _) eqn:L.
    - apply JSFacts.geb_ge in L.
      unfold setPosY, setVelY.
      cbn [pos set_isGrounded set_pos set_vel X Y]. split; [exact Hx | lra].
    - cbn [pos set_isGrounded]. split; assumption. }
  destruct P1 as [X1 Y1].
  assert (L : JS.ltb (X (pos p1)) 0 = false) by (apply JSFacts.ltb_ge; lra).
  rewrite L.
  destruct (JS.gtb _ _); cbn [player set_player pos set_health]; split; assumption.
Qed.

Lemma playerPhase_zero st :
  0 <= X (pos (player st)) -> onOrAboveGround st ->
  X (pos (player (playerPhase E 0 st))) == X (pos (player st)) /\
  Y (pos (player (playerPhase E 0 st))) == Y (pos (player st)).
Proof.
  intros X0 G. unfold playerPhase. cbv zeta.
  set (st5 := shoot E _).
  destruct (beforeMove_body 0 st) as [B5 T5]. fold st5 in B5, T5.
  apply body_eq in B5. destruct B5 as [P5 S5].
  destruct (integratePlayer_zero st5) as (X6 & Y6 & S6 & T6).
  set (st6 := integratePlayer E 0 st5) in *.
  set (groundY := groundAt st6 (X (pos (player st6)) + 16)).
  set (h := hazardUnder _).
  assert (B7 : body (hazardEffects E h groundY st6) = body st6)
    by (kept (hazardEffects_keeps E _ body)).
  apply body_eq in B7. destruct B7 as [P7 S7].
  assert (F : forall s, pos (player (squadTrigger E (trackCamera s))) = pos (player s)).
  { intro s.
    rewrite (squadTrigger_keeps E _ (fun s => pos (player s))) by (intros; reflexivity).
    apply (trackCamera_keeps _ (fun s => pos (player s))); intros; reflexivity. }
  rewrite F.
  rewrite P5 in X6, Y6. rewrite S5 in S6.
  assert (GY : groundY == groundAt st (X (pos (player st)) + 16)).
  { unfold groundY, groundAt. rewrite T6, T5.
    apply groundHeight_compat. rewrite X6. reflexivity. }
  apply resolveGround_pos.
  - rewrite P7. exact X6.
  - rewrite P7. exact Y6.
  - exact X0.
  - rewrite S7, S6, GY. exact G.
Qed.

Lemma afterPlayer_pos dt st :
  pos (player (checkGameOver (compact (lootPhase E dt (projectilesPhase E dt
                   (enemiesPhase E dt st))))))
  = pos (player st).
Proof.
  pose (pp := fun s : GameState => pos (player s)).
  change (pp (checkGameOver (compact (lootPhase E dt (projectilesPhase E dt
                (enemiesPhase E dt st))))) = pp st).
  rewrite (checkGameOver_keeps _ pp), (compact_keeps _ pp) by (intros; reflexivity).
  rewrite (lootPhase_keeps E _ pp), (projectilesPhase_keeps E _ pp)
    by (intros; try reflexivity; unfold pp; cbn [player set_player]; congruence).
  apply (enemiesPhase_keeps E _ pp);
    intros; try reflexivity; unfold pp; cbn [player set_player]; congruence.
Qed.

Lemma introStep_zero st :
  onOrAboveGround st ->
  X (pos (player (introStep E 0 st))) == X (pos (player st)) /\
  Y (pos (player (introStep E 0 st))) == Y (pos (player st)).
Proof.
  unfold onOrAboveGround, introStep, groundAt. cbv zeta. intro G.
  cbn [player set_player set_introTimer pos size setPosY setVelY set_pos set_vel X Y
       terrain].
  destruct (JS.geb _ _) eqn:L.
  - apply JSFacts.geb_ge in L.
    destruct (JS.gtb _ _); cbn; split; try reflexivity; lra.
  - cbn. split; [reflexivity | ring].
Qed.


End ZeroFrame.


(** ** Tactics for the frame *)

(** Case analysis on every test and scrutinee of the goal, outermost
    first. *)
Ltac branches :=
  repeat match goal with
    | |- context [if ?c then _ else _] =>
        lazymatch c with
        | context [if _ then _ else _] => fail
        | context [match _ with _ => _ end] => fail
        | _ => destruct c eqn:?
        end
    | |- context [match ?c with _ => _ end] =>
        lazymatch c with
        | context [if _ then _ else _] => fail
        | context [match _ with _ => _ end] => fail
        | _ => destruct c eqn:?
        end
    end.

(** Projections of an entity or a state that was just assigned to. *)
Ltac esimpl :=
  cbn [pos vel size type health maxHealth isGrounded markedForDeletion facingRight
       animOffset hitTimer fuel maxFuel coyoteTimer archetype aiState attackTimer
       alertTimer rarity isBurrowed shieldHp lootType coreTier weaponType pierceCount
       isExplosive X Y
       set_pos set_vel set_health set_isGrounded set_markedForDeletion set_facingRight
       set_hitTimer set_fuel set_coyoteTimer set_aiState set_attackTimer set_alertTimer
       set_pierceCount setPosX setPosY setVelX setVelY
       player currentWeapon weaponCooldown enemies projectiles loot camera hazards keys
       touchInput mouse aimAngle score coresCollected totalCoresNeeded frameCount
       terrain isPlaying bossActive jumpLock introTimer lookDownTimer logicalWidth
       logicalHeight messageQueue nextSquadSpawnX timeOfDay weatherState currentWeather
       weatherIntensity weatherTimer hitStop rngPos events
       set_player set_currentWeapon set_weaponCooldown set_enemies set_projectiles
       set_loot set_camera set_keys set_touchInput set_mouse set_aimAngle set_score
       set_coresCollected set_frameCount set_isPlaying set_bossActive set_jumpLock
       set_introTimer set_lookDownTimer set_logicalWidth set_logicalHeight
       set_messageQueue set_nextSquadSpawnX set_timeOfDay set_weatherState
       set_currentWeather set_weatherIntensity set_weatherTimer set_hitStop set_rngPos
       set_events addScreenshake queueMessage fst snd] in *.

(** The same, on the goal only. *)
Ltac esimpl_goal :=
  cbn [pos vel size type health maxHealth isGrounded markedForDeletion facingRight
       animOffset hitTimer fuel maxFuel coyoteTimer archetype aiState attackTimer
       alertTimer rarity isBurrowed shieldHp lootType coreTier weaponType pierceCount
       isExplosive X Y
       set_pos set_vel set_health set_isGrounded set_markedForDeletion set_facingRight
       set_hitTimer set_fuel set_coyoteTimer set_aiState set_attackTimer set_alertTimer
       set_pierceCount setPosX setPosY setVelX setVelY
       player currentWeapon weaponCooldown enemies projectiles loot camera hazards keys
       touchInput mouse aimAngle score coresCollected totalCoresNeeded frameCount
       terrain isPlaying bossActive jumpLock introTimer lookDownTimer logicalWidth
       logicalHeight messageQueue nextSquadSpawnX timeOfDay weatherState currentWeather
       weatherIntensity weatherTimer hitStop rngPos events
       set_player set_currentWeapon set_weaponCooldown set_enemies set_projectiles
       set_loot set_camera set_keys set_touchInput set_mouse set_aimAngle set_score
       set_coresCollected set_frameCount set_isPlaying set_bossActive set_jumpLock
       set_introTimer set_lookDownTimer set_logicalWidth set_logicalHeight
       set_messageQueue set_nextSquadSpawnX set_timeOfDay set_weatherState
       set_currentWeather set_weatherIntensity set_weatherTimer set_hitStop set_rngPos
       set_events addScreenshake queueMessage fst snd].

(** ** The overlap tests *)

Lemma ltb_compat a b c d : a == c -> b == d -> JS.ltb a b = JS.ltb c d.
Proof.
  intros H1 H2. unfold JS.ltb. f_equal.
  destruct (Qle_bool b a) eqn:L1, (Qle_bool d c) eqn:L2; trivial.
  - apply Qle_bool_iff in L1. rewrite H1, H2 in L1. apply Qle_bool_iff in L1. congruence.
  - apply Qle_bool_iff in L2. rewrite <- H1, <- H2 in L2. apply Qle_bool_iff in L2.
    congruence.
Qed.

Lemma ltb_mono a b c d : c <= a -> b <= d -> JS.ltb a b = true -> JS.ltb c d = true.
Proof.
  intros H1 H2 H. apply JSFacts.ltb_lt in H. apply JSFacts.ltb_lt. lra.
Qed.

(** X1.  The overlap test of two boxes does not depend on their order; the
    inflated test with no padding is the plain test; and a hit with some
    padding is a hit with any larger padding (so the padding of 8 that the
    projectiles use never loses a hit of the plain test). *)
Theorem checkCollision_symmetric_padding_monotone (a b : Entity) :
  checkCollision a b = checkCollision b a /\
  checkCollisionInflated a b 0 = checkCollision a b /\
  (forall p q, p <= q ->
     checkCollisionInflated a b p = true -> checkCollisionInflated a b q = true).
Proof.
  split; [|split].
  - unfold checkCollision, JS.gtb.
    destruct (JS.ltb (X (pos a)) _), (JS.ltb (X (pos b)) _),
             (JS.ltb (Y (pos a)) _), (JS.ltb (Y (pos b)) _); reflexivity.
  - unfold checkCollisionInflated, checkCollision, JS.gtb.
    repeat (apply (f_equal2 andb)); apply ltb_compat; ring.
  - intros p q L. unfold checkCollisionInflated, JS.gtb.
    rewrite !andb_true_iff. intros [[[H1 H2] H3] H4].
    repeat split;
      [ revert H1 | revert H2 | revert H3 | revert H4 ]; apply ltb_mono; lra.
Qed.

Lemma checkCollision_symmetric_padding_monotone_witness :
  checkCollisionInflated (sampleShot 190 110) (sampleEnemy crawler idle 200 100 30) 8 = true.
Proof.
  apply (checkCollision_symmetric_padding_monotone
           (sampleShot 190 110) (sampleEnemy crawler idle 200 100 30)) with (p := 3).
  - vm_compute. discriminate.
  - vm_compute. reflexivity.
Defined.

(** ** The ground between the samples *)

Lemma floor_nonneg x : (0 <= JS.floor (x / 50))%Z -> 0 <= x.
Proof.
  unfold JS.floor. intro H.
  assert (L : 0 <= x / 50).
  { apply Qle_trans with (inject_Z (Qfloor (x / 50))); [|apply Qfloor_le].
    change 0 with (inject_Z 0). rewrite <- Zle_Qle. exact H. }
  assert (E : x == x / 50 * 50) by (field).
  rewrite E. nra.
Qed.

(** The interpolation weight of an abscissa that is not negative. *)
Lemma sampleWeight_range x : 0 <= x -> 0 <= sampleWeight x < 1.
Proof.
  intro Hx. unfold sampleWeight, JS.rem, JS.trunc.
  assert (L : 0 <= x / 50).
  { apply Qle_shift_div_l; [reflexivity | lra]. }
  apply Qle_bool_iff in L. rewrite L.
  pose proof (Qfloor_le (x / 50)) as F1.
  pose proof (Qlt_floor (x / 50)) as F2.
  rewrite inject_Z_plus in F2. change (inject_Z 1) with 1 in F2.
  set (f := inject_Z (Qfloor (x / 50))) in *.
  assert (E : x == x / 50 * 50) by field.
  split.
  - apply Qle_shift_div_l; [reflexivity|]. nra.
  - apply Qlt_shift_div_r; [reflexivity|]. nra.
Qed.

Lemma index_In {A : Type} (l : list A) i a : JS.index l i = Some a -> In a l.
Proof.
  unfold JS.index. destruct (i <? 0)%Z; [discriminate|]. apply nth_error_In.
Qed.

Lemma interpolation_between (terrain : list Q) (lo hi x : Q) :
  terrain <> [] ->
  Forall (fun h => lo <= h <= hi) terrain ->
  exists h, getGroundHeightAt terrain x = Some h /\ lo <= h <= hi.
Proof.
  intros Hne Hall.
  destruct (getGroundHeightAt_unfold terrain x Hne) as (h1 & h2 & I1 & I2 & G).
  rewrite G. eexists. split; [reflexivity|].
  rewrite Forall_forall in Hall.
  pose proof (Hall _ (index_In _ _ _ I1)) as B1.
  pose proof (Hall _ (index_In _ _ _ I2)) as B2.
  destruct (Z.eq_dec (sampleIndex1 terrain x) (sampleIndex2 terrain x)) as [Eq|Ne].
  - rewrite Eq, I2 in I1. injection I1 as <-.
    assert (R : h2 + (h2 - h2) * sampleWeight x == h2) by ring.
    rewrite R. exact B2.
  - assert (P : (0 <= JS.floor (x / 50))%Z).
    { unfold sampleIndex1, sampleIndex2 in Ne. lia. }
    pose proof (sampleWeight_range x (floor_nonneg x P)) as [T0 T1].
    set (t := sampleWeight x) in *.
    split; nra.
Qed.

(** X2.  Linear interpolation stays between the samples: on a terrain that
    is not empty and whose samples all lie in [lo, hi], the ground height at
    every abscissa (negative ones and ones beyond the last sample included)
    is defined and lies in [lo, hi]. *)
Theorem ground_between_samples (terrain : list Q) (lo hi x : Q) :
  terrain <> [] ->
  Forall (fun h => lo <= h <= hi) terrain ->
  exists h, getGroundHeightAt terrain x = Some h /\ lo <= h <= hi.
Proof. exact (interpolation_between terrain lo hi x). Qed.

Lemma ground_between_samples_witness :
  exists h, getGroundHeightAt [450; 440; 430] (-(75 # 1)) = Some h /\ 430 <= h <= 450.
Proof.
  apply (ground_between_samples [450; 440; 430] 430 450 (-(75 # 1))).
  - discriminate.
  - repeat constructor; vm_compute; discriminate.
Defined.

(** At a sample the ground has the height of the sample. *)
Lemma sample_weight_zero (k : nat) : sampleWeight (inject_Z (50 * Z.of_nat k)) == 0.
Proof.
  unfold sampleWeight, JS.rem, JS.trunc.
  assert (D : inject_Z (50 * Z.of_nat k) / 50 == inject_Z (Z.of_nat k)).
  { rewrite inject_Z_mult. change (inject_Z 50) with 50. field. }
  assert (L : 0 <= inject_Z (50 * Z.of_nat k) / 50).
  { rewrite D. change 0 with (inject_Z 0). rewrite <- Zle_Qle. lia. }
  apply Qle_bool_iff in L. rewrite L.
  rewrite (Qfloor_comp _ _ D), Qfloor_Z.
  rewrite inject_Z_mult. change (inject_Z 50) with 50. field.
Qed.

(** X3.  The interpolation passes through the samples: at the abscissa
    [50 * k] of sample [k] the ground height is (equal to) that sample. *)
Theorem ground_at_sample (terrain : list Q) (k : nat) (hk : Q) :
  nth_error terrain k = Some hk ->
  exists h, getGroundHeightAt terrain (inject_Z (50 * Z.of_nat k)) = Some h /\ h == hk.
Proof.
  intro N.
  assert (Hne : terrain <> []) by (intro; subst; destruct k; discriminate).
  assert (K : (k < length terrain)%nat) by (apply nth_error_Some; congruence).
  destruct (getGroundHeightAt_unfold terrain (inject_Z (50 * Z.of_nat k)) Hne)
    as (h1 & h2 & I1 & I2 & G).
  rewrite G. eexists. split; [reflexivity|].
  assert (F : JS.floor (inject_Z (50 * Z.of_nat k) / 50) = Z.of_nat k).
  { unfold JS.floor.
    assert (D : inject_Z (50 * Z.of_nat k) / 50 == inject_Z (Z.of_nat k)).
    { rewrite inject_Z_mult. change (inject_Z 50) with 50. field. }
    rewrite (Qfloor_comp _ _ D). apply Qfloor_Z. }
  assert (S1 : sampleIndex1 terrain (inject_Z (50 * Z.of_nat k)) = Z.of_nat k).
  { unfold sampleIndex1. rewrite F. lia. }
  rewrite S1 in I1. unfold JS.index in I1.
  destruct (Z.of_nat k <? 0)%Z eqn:T; [apply Z.ltb_lt in T; lia|].
  rewrite Nat2Z.id, N in I1. injection I1 as <-.
  rewrite sample_weight_zero. ring.
Qed.

Lemma ground_at_sample_witness :
  exists h, getGroundHeightAt [450; 440; 430] (inject_Z (50 * Z.of_nat 1)) = Some h
            /\ h == 440.
Proof.
  apply (ground_at_sample [450; 440; 430] 1 440). reflexivity.
Defined.

Section GeneratedGround.

Variable E : Env.

Lemma genLoop_terrain_band n g0 :
  inBand (g_height g0) -> Forall inBand (g_terrain g0) ->
  Forall inBand (g_terrain (genLoop E n g0)).
Proof.
  intros B T. induction n as [|n IH]; simpl; [exact T|].
  rewrite genSegment_terrain. apply Forall_app. split; [exact IH|].
  constructor; [apply genSegment_band | constructor].
Qed.

End GeneratedGround.

(** X4.  The ground of a generated map: whatever the planet and the draws,
    the map has 350 samples and the ground height is defined at every
    abscissa and lies between 100 and 550, so below the top of the logical
    screen and above its bottom edge at 600. *)
Theorem generated_ground_in_band (E : Env) (cursor : nat) (x : Q) :
  let terrain := g_terrain (generateMap E cursor) in
  length terrain = 350%nat /\
  exists h, getGroundHeightAt terrain x = Some h /\ 100 <= h <= 550.
Proof.
  cbv zeta.
  assert (Len : length (g_terrain (generateMap E cursor)) = 350%nat).
  { unfold generateMap. rewrite genLoop_length. reflexivity. }
  split; [exact Len|].
  apply interpolation_between.
  - intro T. rewrite T in Len. discriminate.
  - apply (genLoop_terrain_band E); [apply genStart_band | constructor].
Qed.

(** ** Score and player through a frame

    A relation [R] between the tally before and after is carried through
    [update] and through a mission, provided the six places that assign the
    score or the player respect it. *)

Section Tally.

Variable E : Env.
Variable R : Q * Entity -> Q * Entity -> Prop.
Variable ok : Q -> Prop.

Hypothesis R_refl : forall a, R a a.
Hypothesis R_trans : forall a b c, R a b -> R b c -> R a c.
Hypothesis R_playerPhase :
  forall dt st, ok dt -> R (tally st) (tally (playerPhase E dt st)).
Hypothesis R_contact : forall ent st, R (tally st) (tally (contactDamage E ent st)).
Hypothesis R_death : forall ent st, R (tally st) (tally (snd (deathCheck E ent st))).
Hypothesis R_hit : forall p st, R (tally st) (tally (snd (hitPlayer E p st))).
Hypothesis R_pick : forall item st, R (tally st) (tally (pickUp E item st)).
Hypothesis R_intro : forall dt st, ok dt -> R (tally st) (tally (introStep E dt st)).

(** Rewrites with a frame lemma at [tally]. *)
Ltac tally_step lemma := rewrite (lemma E _ tally) by (intros; reflexivity).

Lemma enemyStep_rel dt i st : R (tally st) (tally (enemyStep E dt i st)).
Proof.
  unfold enemyStep. destruct (nth_error (enemies st) i) as [ent|]; [|apply R_refl].
  cbv zeta.
  match goal with |- context [aggroRule E dt ?see ?e st] =>
    pose proof (aggroRule_keeps E _ tally) as A; specialize (A ltac:(intros; reflexivity));
    specialize (A dt see e st); destruct (aggroRule E dt see e st) as [e1 s1];
    cbn [snd] in A
  end.
  match goal with |- context [archetypeAI E dt ?see e1 s1] =>
    pose proof (archetypeAI_keeps E _ tally) as B;
    repeat (specialize (B ltac:(intros; reflexivity)));
    specialize (B dt see e1 s1); destruct (archetypeAI E dt see e1 s1) as [e2 s2];
    cbn [snd] in B
  end.
  match goal with |- context [deathCheck E ?e ?s] =>
    pose proof (R_death e s) as D; pose proof (R_contact e s2) as C;
    destruct (deathCheck E e s) as [e4 s4]; cbn [snd] in D
  end.
  change (tally (set_enemies _ s4)) with (tally s4).
  rewrite <- A, <- B. eapply R_trans; eassumption.
Qed.

Lemma enemiesPhase_rel dt st : R (tally st) (tally (enemiesPhase E dt st)).
Proof.
  unfold enemiesPhase. generalize (seq 0 (length (enemies st))) as l.
  intro l. revert st. induction l as [|i l IH]; intro st; simpl; [apply R_refl|].
  eapply R_trans; [apply enemyStep_rel | apply IH].
Qed.

Lemma projectileStep_rel dt p st : R (tally st) (tally (snd (projectileStep E dt p st))).
Proof.
  unfold projectileStep. cbv zeta.
  match goal with |- context [match type ?q with _ => _ end] => set (p1 := q) end.
  assert (H : exists p2 s2,
             match type p1 with
             | T_projectile =>
                 fold_left (fun ps index => resolveHit E index (fst ps) (snd ps))
                           (seq 0 (length (enemies st))) (p1, st)
             | T_enemy_projectile => hitPlayer E p1 st
             | _ => (p1, st)
             end = (p2, s2) /\ R (tally st) (tally s2)).
  { destruct (type p1).
    1,2,5,6: eexists _, _; split; [reflexivity | apply R_refl].
    - pose proof (resolveHits_keeps E _ tally) as K.
      repeat (specialize (K ltac:(intros; reflexivity))).
      specialize (K (seq 0 (length (enemies st))) p1 st).
      destruct (fold_left _ _ _) as [p2 s2]. cbn [snd] in K.
      eexists _, _. split; [reflexivity|]. rewrite K. apply R_refl.
    - pose proof (R_hit p1 st) as K.
      destruct (hitPlayer E p1 st) as [p2 s2]. cbn [snd] in K.
      eexists _, _. split; [reflexivity | exact K]. }
  destruct H as (p2 & s2 & -> & K).
  destruct (JS.gtb (Y (pos _)) _); cbn [snd]; [|exact K].
  destruct (isExplosive _); cbn [snd]; [|exact K].
  tally_step spawnExplosion_keeps. exact K.
Qed.

Lemma projectilesLoop_rel dt todo done st :
  R (tally st) (tally (projectilesLoop E dt todo done st)).
Proof.
  revert done st. induction todo as [|p todo IH]; intros done st; simpl.
  - apply R_refl.
  - pose proof (projectileStep_rel dt p st) as K.
    destruct (projectileStep E dt p st) as [p' st']. cbn [snd] in K.
    eapply R_trans; [exact K | apply IH].
Qed.

Lemma lootStep_rel dt item st : R (tally st) (tally (snd (lootStep E dt item st))).
Proof.
  unfold lootStep. cbv zeta.
  destruct (checkCollision _ _); cbn [snd]; [apply R_pick | apply R_refl].
Qed.

Lemma lootLoop_rel dt todo done st : R (tally st) (tally (lootLoop E dt todo done st)).
Proof.
  revert done st. induction todo as [|item todo IH]; intros done st; simpl.
  - apply R_refl.
  - pose proof (lootStep_rel dt item st) as K.
    destruct (lootStep E dt item st) as [item' st']. cbn [snd] in K.
    eapply R_trans; [exact K | apply IH].
Qed.

Lemma mainStep_rel dt st : ok dt -> R (tally st) (tally (mainStep E dt st)).
Proof.
  intro D. unfold mainStep. cbv zeta.
  rewrite (checkGameOver_keeps _ tally) by (intros; reflexivity).
  rewrite (compact_keeps _ tally) by (intros; reflexivity).
  eapply R_trans; [|apply lootLoop_rel].
  eapply R_trans; [|apply projectilesLoop_rel].
  eapply R_trans; [|apply enemiesPhase_rel].
  eapply R_trans; [|apply R_playerPhase; exact D].
  tally_step updateWeather_keeps. apply R_refl.
Qed.

Lemma update_rel dt st : ok dt -> R (tally st) (tally (update E dt st)).
Proof.
  intro D. unfold update.
  destruct (JS.gtb (hitStop st) 0); [apply R_refl|].
  destruct (JS.gtb (introTimer st) 0); [apply R_intro | apply mainStep_rel]; exact D.
Qed.

Lemma act_rel st a :
  match a with Frame dt => ok (frameLength dt) | _ => True end ->
  R (tally st) (tally (act E st a)).
Proof.
  destruct a; intro D; cbn [act]; try apply R_refl.
  unfold loopFrame. destruct (isPlaying st); [|apply R_refl].
  apply update_rel. exact D.
Qed.

Lemma actions_rel actions st :
  framesAre ok actions -> R (tally st) (tally (fold_left (act E) actions st)).
Proof.
  intro F. revert st. induction F as [|a actions D F IH]; intro st; simpl.
  - apply R_refl.
  - eapply R_trans; [apply act_rel; exact D | apply IH].
Qed.

End Tally.

(** ** The score *)

Section Score.

Variable E : Env.

Local Abbreviation K := (env_K E).

Hypothesis score_stats : forall a, 0 <= e_score (ENEMY_STATS K a).

Lemma scoreAward_nonneg ent : 0 <= scoreAward E ent.
Proof.
  unfold scoreAward, baseScoreFor, JS.orElse. cbv zeta.
  destruct (archetype ent) as [a|].
  - pose proof (score_stats a). destruct (Qeq_bool _ 0), (isElite ent); lra.
  - destruct (isElite ent); lra.
Qed.

Lemma deathCheck_score ent st : score st <= score (snd (deathCheck E ent st)).
Proof.
  unfold deathCheck. cbv zeta.
  destruct (_ || _); cbn [snd]; [|lra].
  destruct (JS.leb _ 0); cbn [snd]; [|lra].
  unfold random. cbv zeta.
  pose proof (scoreAward_nonneg (set_markedForDeletion true ent)) as A.
  cbn [snd fst].
  change (score (set_hitStop 3 ?s)) with (score s).
  destruct (isArch guardian _);
    [change (score (set_events ?e ?s)) with (score s)|];
    repeat match goal with
      | |- context [if ?c then _ else _] =>
          lazymatch c with
          | context [if _ then _ else _] => fail
          | _ => destruct c
          end
      end;
    rewrite ?(spawnLoot_keeps E _ score) by (intros; reflexivity);
    esimpl_goal; lra.
Qed.

Lemma pickUp_score item st : score st <= score (pickUp E item st).
Proof.
  unfold pickUp.
  destruct (lootType item) as [[| |]|]; try (esimpl; lra).
  - cbv zeta.
    repeat match goal with
      | |- context [if ?c then _ else _] =>
          lazymatch c with
          | context [if _ then _ else _] => fail
          | _ => destruct c
          end
      end;
      rewrite ?(spawnBoss_keeps E _ score) by (intros; reflexivity); esimpl; lra.
  - destruct (weaponType item); esimpl; lra.
Qed.

(** The score along a list of actions. *)
Lemma actions_score actions st : score st <= score (fold_left (act E) actions st).
Proof.
  apply (actions_rel E (fun a b => fst a <= fst b) (fun _ => True)); unfold tally;
    cbn [fst]; intros.
  - lra.
  - lra.
  - rewrite (playerPhase_keeps E _ score) by (intros; reflexivity). lra.
  - rewrite (contactDamage_keeps E _ score) by (intros; reflexivity). lra.
  - apply deathCheck_score.
  - rewrite (hitPlayer_keeps E _ score) by (intros; reflexivity). lra.
  - apply pickUp_score.
  - rewrite (introStep_keeps E _ score) by (intros; reflexivity). lra.
  - unfold framesAre. apply Forall_forall. intros [] _; exact I.
Qed.

Lemma mission_score (actions more : list Action) :
  0 <= score (mission E actions) <= score (mission E (actions ++ more)).
Proof.
  split.
  - unfold mission. eapply Qle_trans; [|apply actions_score].
    unfold missionStart, startMission. cbv zeta.
    rewrite (fold_left_keeps _ score)
      by (intros; apply (placeCore_keeps E _ score); intros; reflexivity).
    cbn. lra.
  - unfold mission. rewrite fold_left_app. apply actions_score.
Qed.

End Score.

(** X5.  The score never goes down: when no entry of [ENEMY_STATS] has a
    negative score, the score of a mission is at least 0 and whatever happens
    next (frames, input, the radio) leaves it at least as high as it is.  A
    kill adds the award of the enemy and a core adds 500; nothing takes
    points away. *)
Theorem score_never_decreases (E : Env) (actions more : list Action) :
  (forall a, 0 <= e_score (ENEMY_STATS (env_K E) a)) ->
  0 <= score (mission E actions) <= score (mission E (actions ++ more)).
Proof. intro score_stats. exact (mission_score E score_stats actions more). Qed.

Lemma score_never_decreases_witness :
  0 <= score (mission (Shipped.env sampleMath (fun _ => 1 # 2) emergencyPlanet
                                   App.INITIAL_UPGRADES) [Frame 1])
  <= score (mission (Shipped.env sampleMath (fun _ => 1 # 2) emergencyPlanet
                                 App.INITIAL_UPGRADES) ([Frame 1] ++ [Frame 1])).
Proof.
  refine (score_never_decreases
            (Shipped.env sampleMath (fun _ => 1 # 2) emergencyPlanet App.INITIAL_UPGRADES)
            [Frame 1] [Frame 1] _).
  intros []; vm_compute; discriminate.
Defined.

(** ** The health of the player *)

Section Health.

Variable E : Env.

Lemma tickTimers_vitals dt st : vitals (tickTimers dt st) = vitals st.
Proof. unfold tickTimers, vitals. cbv zeta. branches; reflexivity. Qed.

Lemma updateAim_vitals st : vitals (updateAim E st) = vitals st.
Proof. unfold updateAim, vitals. cbv zeta. branches; reflexivity. Qed.

Lemma moveHorizontal_vitals dt h st : vitals (moveHorizontal E dt h st) = vitals st.
Proof. unfold moveHorizontal, vitals. cbv zeta. branches; reflexivity. Qed.

Lemma jumpAndJetpack_vitals dt st : vitals (jumpAndJetpack E dt st) = vitals st.
Proof. unfold jumpAndJetpack, vitals. cbv zeta. branches; reflexivity. Qed.

Lemma shoot_vitals st : vitals (shoot E st) = vitals st.
Proof.
  unfold shoot. cbv zeta. destruct (_ && _); [|reflexivity].
  pose proof (spawnPlayerProjectile_keeps E _ player) as P.
  repeat (specialize (P ltac:(intros; reflexivity))).
  match goal with |- context [spawnPlayerProjectile E ?x ?y ?a ?w st] =>
    specialize (P x y a w st); destruct (spawnPlayerProjectile E x y a w st) as [r s]
  end.
  cbn [snd] in P. unfold vitals. esimpl. rewrite P. reflexivity.
Qed.

Lemma integratePlayer_vitals dt st : vitals (integratePlayer E dt st) = vitals st.
Proof. reflexivity. Qed.

Lemma hazardEffects_vitals h g st :
  maxHealth (player (hazardEffects E h g st)) = maxHealth (player st) /\
  health (player (hazardEffects E h g st)) <= health (player st).
Proof.
  unfold hazardEffects, hurtPlayer. cbv zeta.
  branches; esimpl; split; try reflexivity; lra.
Qed.

Lemma resolveGround_vitals g st :
  maxHealth (player (resolveGround g st)) = maxHealth (player st) /\
  (health (player (resolveGround g st)) = health (player st) \/
   health (player (resolveGround g st)) = 0).
Proof.
  unfold resolveGround. cbv zeta. branches; esimpl; auto.
Qed.

Hypothesis hull_ok : 0 <= maxHealthStat E.

Lemma vitals_eq a b :
  vitals a = vitals b ->
  health (player a) = health (player b) /\ maxHealth (player a) = maxHealth (player b).
Proof. unfold vitals. intro H. injection H as H1 H2. split; assumption. Qed.

Lemma playerPhase_within dt st :
  withinMaxHealth E (player st) -> withinMaxHealth E (player (playerPhase E dt st)).
Proof.
  unfold playerPhase. cbv zeta.
  rewrite (squadTrigger_keeps E _ player) by (intros; reflexivity).
  rewrite (trackCamera_keeps _ player) by (intros; reflexivity).
  set (st5 := shoot E _).
  set (st6 := integratePlayer E dt st5).
  set (groundY := groundAt st6 _). set (h := hazardUnder _).
  destruct (resolveGround_vitals groundY (hazardEffects E h groundY st6)) as [M3 H3].
  destruct (hazardEffects_vitals h groundY st6) as [M2 H2].
  assert (V : vitals st6 = vitals st).
  { unfold st6, st5.
    rewrite integratePlayer_vitals, shoot_vitals, jumpAndJetpack_vitals,
      moveHorizontal_vitals, updateAim_vitals. apply tickTimers_vitals. }
  apply vitals_eq in V. destruct V as [V1 V2].
  unfold withinMaxHealth. intros [M H]. rewrite M3, M2, V2. split; [exact M|].
  rewrite V1 in H2. destruct H3 as [-> | ->]; [lra | exact hull_ok].
Qed.

Lemma contactDamage_within ent st :
  withinMaxHealth E (player st) -> withinMaxHealth E (player (contactDamage E ent st)).
Proof.
  unfold contactDamage, withinMaxHealth. cbv zeta. intros [M H].
  branches; esimpl; split; trivial; lra.
Qed.

Lemma hitPlayer_within p st :
  withinMaxHealth E (player st) -> withinMaxHealth E (player (snd (hitPlayer E p st))).
Proof.
  unfold hitPlayer, withinMaxHealth. cbv zeta. intros [M H].
  branches; esimpl; split; trivial; lra.
Qed.

Lemma pickUp_within item st :
  withinMaxHealth E (player st) -> withinMaxHealth E (player (pickUp E item st)).
Proof.
  unfold withinMaxHealth. intros [M H]. unfold pickUp.
  destruct (lootType item) as [[| |]|]; [| |esimpl|]; try (split; assumption).
  - cbv zeta.
    branches; rewrite ?(spawnBoss_keeps E _ player) by (intros; reflexivity);
      esimpl; split; assumption.
  - destruct (weaponType item); split; assumption.
  - split; [exact M|]. rewrite M. apply Q.le_min_l.
Qed.

Lemma introStep_within dt st :
  withinMaxHealth E (player st) -> withinMaxHealth E (player (introStep E dt st)).
Proof.
  unfold introStep, withinMaxHealth. cbv zeta. intros [M H].
  branches; esimpl; split; trivial.
Qed.

End Health.

Lemma mission_withinMaxHealth (E : Env) (actions : list Action) :
  0 <= maxHealthStat E -> withinMaxHealth E (player (mission E actions)).
Proof.
  intro hull_ok.
  unfold mission.
  pose proof (actions_rel E
                (fun a b => withinMaxHealth E (snd a) -> withinMaxHealth E (snd b))
                (fun _ => True)) as A.
  cbv beta in A. unfold tally in A. cbn [snd] in A.
  apply A with (st := missionStart E); clear A; auto.
  - intros dt st _. apply playerPhase_within. exact hull_ok.
  - apply contactDamage_within.
  - intros ent st.
    rewrite (deathCheck_keeps E _ player) by (intros; reflexivity). trivial.
  - apply hitPlayer_within.
  - apply pickUp_within.
  - intros dt st _. apply introStep_within.
  - unfold framesAre. apply Forall_forall. intros [] _; exact I.
  - unfold missionStart, startMission. cbv zeta.
    rewrite (fold_left_keeps _ player)
      by (intros; apply (placeCore_keeps E _ player); intros; reflexivity).
    split; [reflexivity | cbn; lra].
Qed.

(** X6.  The health of the player stays within the maximum of the hull: in
    every mission, at every point, the maximum health is the one that the
    hull upgrade gives ([100 + 25 * (hull - 1)], when that is not negative)
    and the health does not exceed it.  Damage only lowers the health and a
    health pickup is capped at the maximum. *)
Theorem health_within_hull_maximum (E : Env) (actions : list Action) :
  0 <= maxHealthStat E ->
  maxHealth (player (mission E actions)) = maxHealthStat E /\
  health (player (mission E actions)) <= maxHealthStat E.
Proof.
  intro hull_ok. exact (mission_withinMaxHealth E actions hull_ok).
Qed.

Lemma health_within_hull_maximum_witness :
  health (player landedAndFiring) <= maxHealthStat (sampleEnv emergencyPlanet (1 # 2)).
Proof.
  apply (health_within_hull_maximum (sampleEnv emergencyPlanet (1 # 2))).
  vm_compute. discriminate.
Defined.

(** ** The fuel of the jetpack *)

Section Fuel.

Variable E : Env.

Local Abbreviation burn := (JETPACK_FUEL_CONSUMPTION (PHYSICS (env_K E))).
Local Abbreviation refill := (JETPACK_FUEL_RECHARGE (PHYSICS (env_K E))).

Lemma tank_eq a b :
  tank a = tank b ->
  fuel (player a) = fuel (player b) /\ maxFuel (player a) = maxFuel (player b).
Proof. unfold tank. intro H. injection H as H1 H2. split; assumption. Qed.

Lemma fuelWithin_tank a b :
  tank b = tank a -> fuelWithin E (player a) -> fuelWithin E (player b).
Proof.
  intros T (f & F & M & B). apply tank_eq in T. destruct T as [T1 T2].
  exists f. rewrite T1, T2. auto.
Qed.

Lemma tickTimers_tank dt st : tank (tickTimers dt st) = tank st.
Proof. unfold tickTimers, tank. cbv zeta. branches; reflexivity. Qed.

Lemma updateAim_tank st : tank (updateAim E st) = tank st.
Proof. unfold updateAim, tank. cbv zeta. branches; reflexivity. Qed.

Lemma moveHorizontal_tank dt h st : tank (moveHorizontal E dt h st) = tank st.
Proof. unfold moveHorizontal, tank. cbv zeta. branches; reflexivity. Qed.

Lemma shoot_tank st : tank (shoot E st) = tank st.
Proof.
  unfold shoot. cbv zeta. destruct (_ && _); [|reflexivity].
  pose proof (spawnPlayerProjectile_keeps E _ player) as P.
  repeat (specialize (P ltac:(intros; reflexivity))).
  match goal with |- context [spawnPlayerProjectile E ?x ?y ?a ?w st] =>
    specialize (P x y a w st); destruct (spawnPlayerProjectile E x y a w st) as [r s]
  end.
  cbn [snd] in P. unfold tank. esimpl. rewrite P. reflexivity.
Qed.

Lemma integratePlayer_tank dt st : tank (integratePlayer E dt st) = tank st.
Proof. reflexivity. Qed.

Lemma hazardEffects_tank h g st : tank (hazardEffects E h g st) = tank st.
Proof. unfold hazardEffects, hurtPlayer, tank. cbv zeta. branches; reflexivity. Qed.

Lemma resolveGround_tank g st : tank (resolveGround g st) = tank st.
Proof. unfold resolveGround, tank. cbv zeta. branches; reflexivity. Qed.

Lemma contactDamage_tank ent st : tank (contactDamage E ent st) = tank st.
Proof. unfold contactDamage, tank. cbv zeta. branches; reflexivity. Qed.

Lemma hitPlayer_tank p st : tank (snd (hitPlayer E p st)) = tank st.
Proof. unfold hitPlayer, tank. cbv zeta. branches; reflexivity. Qed.

Lemma pickUp_tank item st : tank (pickUp E item st) = tank st.
Proof.
  unfold pickUp, tank.
  destruct (lootType item) as [[| |]|]; try reflexivity.
  - cbv zeta.
    branches; rewrite ?(spawnBoss_keeps E _ player) by (intros; reflexivity);
      reflexivity.
  - destruct (weaponType item); reflexivity.
Qed.

Lemma introStep_tank dt st : tank (introStep E dt st) = tank st.
Proof. unfold introStep, tank. cbv zeta. branches; reflexivity. Qed.

Hypothesis burn_ok : 0 <= burn.
Hypothesis refill_ok : 0 <= refill.
Hypothesis capacity_ok : 0 <= maxFuelBase E.

Lemma min_between lo hi a b : lo <= a -> lo <= b -> a <= hi -> lo <= JS.min a b <= hi.
Proof.
  intros A B C. unfold JS.min. split.
  - apply Q.min_glb; assumption.
  - eapply Qle_trans; [apply Q.le_min_l | exact C].
Qed.

Lemma jumpAndJetpack_within dt st :
  0 <= dt <= 4 ->
  fuelWithin E (player st) -> fuelWithin E (player (jumpAndJetpack E dt st)).
Proof.
  intros D (f & F & M & B1 & B2).
  assert (P1 : 0 <= burn * dt) by nra.
  assert (P2 : burn * dt <= 4 * burn) by nra.
  assert (P3 : 0 <= refill * dt) by nra.
  unfold jumpAndJetpack, fuelWithin. cbv zeta.
  branches; esimpl;
    repeat match goal with
      | H : JS.ltb _ _ = true |- _ => apply JSFacts.ltb_lt in H
      | H : JS.gtb _ _ = true |- _ => apply JSFacts.gtb_gt in H
      | H : fuel (player st) = Some _, H' : fuel (player st) = Some _ |- _ =>
          rewrite H in H'; injection H' as H'; subst
      | H : maxFuel (player st) = Some _, H' : maxFuel (player st) = Some _ |- _ =>
          rewrite H in H'; injection H' as H'; subst
      | H : Some _ = Some _ |- _ => injection H as H; subst
      | H : _ && _ = true |- _ => apply andb_prop in H; destruct H
      end;
    try congruence;
    (eexists; split; [first [reflexivity | eassumption]
                     | split; [first [reflexivity | eassumption]|]]);
    try (split; lra);
    try (apply min_between; lra);
    match goal with
    | H : 0 < JS.min ?a ?b |- _ =>
        pose proof (min_between (- (4 * burn)) (maxFuelBase E) a b
                      ltac:(lra) ltac:(lra) ltac:(lra));
        split; lra
    end.
Qed.

Lemma playerPhase_fuel dt st :
  0 <= dt <= 4 ->
  fuelWithin E (player st) -> fuelWithin E (player (playerPhase E dt st)).
Proof.
  intros D W. unfold playerPhase. cbv zeta.
  rewrite (squadTrigger_keeps E _ player) by (intros; reflexivity).
  rewrite (trackCamera_keeps _ player) by (intros; reflexivity).
  eapply fuelWithin_tank; [apply resolveGround_tank|].
  eapply fuelWithin_tank; [apply hazardEffects_tank|].
  eapply fuelWithin_tank; [apply integratePlayer_tank|].
  eapply fuelWithin_tank; [apply shoot_tank|].
  apply jumpAndJetpack_within; [exact D|].
  eapply fuelWithin_tank; [apply moveHorizontal_tank|].
  eapply fuelWithin_tank; [apply updateAim_tank|].
  eapply fuelWithin_tank; [apply tickTimers_tank|].
  exact W.
Qed.

Lemma mission_fuelWithin actions :
  framesAre (fun d => 0 <= d) actions ->
  fuelWithin E (player (mission E actions)).
Proof.
  intro Fr. unfold mission.
  pose proof (actions_rel E
                (fun a b => fuelWithin E (snd a) -> fuelWithin E (snd b))
                (fun d => 0 <= d <= 4)) as A.
  cbv beta in A. unfold tally in A. cbn [snd] in A.
  apply A with (st := missionStart E); clear A; auto.
  - intros dt st D. apply playerPhase_fuel. exact D.
  - intros ent st. apply fuelWithin_tank, contactDamage_tank.
  - intros ent st.
    rewrite (deathCheck_keeps E _ player) by (intros; reflexivity). trivial.
  - intros p st. apply fuelWithin_tank, hitPlayer_tank.
  - intros item st. apply fuelWithin_tank, pickUp_tank.
  - intros dt st _. apply fuelWithin_tank, introStep_tank.
  - unfold framesAre in *. eapply Forall_impl; [|exact Fr].
    intros [dt| | | | |]; trivial. cbv beta. intro N. split; [exact N|].
    unfold frameLength in *. destruct (JS.gtb dt 4) eqn:G; [lra|].
    apply JSFacts.gtb_le in G. exact G.
  - unfold missionStart, startMission. cbv zeta.
    rewrite (fold_left_keeps _ player)
      by (intros; apply (placeCore_keeps E _ player); intros; reflexivity).
    exists (maxFuelBase E). cbn [player fuel maxFuel].
    split; [reflexivity|split; [reflexivity|split; lra]].
Qed.

End Fuel.

(** X7.  The fuel of the jetpack stays within the tank: when no frame has a
    negative length and neither the consumption nor the recharge rate nor
    the capacity is negative, the capacity is at every point of a mission
    the one that the thrusters upgrade gives ([100 * (1 + 0.2 * (thrusters -
    1))]), and the fuel is at most that capacity and at least minus what four
    units of time burn: the jetpack thrusts only with fuel above zero, but
    the last burn is not cut at zero. *)
Theorem fuel_within_tank (E : Env) (actions : list Action) :
  0 <= JETPACK_FUEL_CONSUMPTION (PHYSICS (env_K E)) ->
  0 <= JETPACK_FUEL_RECHARGE (PHYSICS (env_K E)) ->
  0 <= maxFuelBase E ->
  framesAre (fun d => 0 <= d) actions ->
  exists f,
    fuel (player (mission E actions)) = Some f /\
    maxFuel (player (mission E actions)) = Some (maxFuelBase E) /\
    - (4 * JETPACK_FUEL_CONSUMPTION (PHYSICS (env_K E))) <= f /\ f <= maxFuelBase E.
Proof.
  intros B R C Fr. exact (mission_fuelWithin E B R C actions Fr).
Qed.

Lemma fuel_within_tank_witness :
  exists f,
    fuel (player (mission (Shipped.env sampleMath (fun _ => 1 # 2) emergencyPlanet
                                       App.INITIAL_UPGRADES)
                          [Frame 1; Keys (fun _ => true); Frame (33 # 2)])) = Some f
    /\ - (6) <= f /\ f <= 100.
Proof.
  destruct (fuel_within_tank
              (Shipped.env sampleMath (fun _ => 1 # 2) emergencyPlanet
                           App.INITIAL_UPGRADES)
              [Frame 1; Keys (fun _ => true); Frame (33 # 2)])
    as (f & F & _ & L & U).
  - vm_compute. discriminate.
  - vm_compute. discriminate.
  - vm_compute. discriminate.
  - repeat constructor; vm_compute; discriminate.
  - exists f. split; [exact F|]. split.
    + eapply Qle_trans; [|exact L]. vm_compute. discriminate.
    + eapply Qle_trans; [exact U|]. vm_compute. discriminate.
Defined.

(** ** The left edge of the world *)

Section LeftEdge.

Variable E : Env.

Lemma resolveGround_right_of_edge g st : 0 <= X (pos (player (resolveGround g st))).
Proof.
  unfold resolveGround. cbv zeta. branches; esimpl; jsb; lra.
Qed.

Lemma playerPhase_right_of_edge dt st : 0 <= X (pos (player (playerPhase E dt st))).
Proof.
  unfold playerPhase. cbv zeta.
  rewrite (squadTrigger_keeps E _ player) by (intros; reflexivity).
  rewrite (trackCamera_keeps _ player) by (intros; reflexivity).
  apply resolveGround_right_of_edge.
Qed.

Lemma contactDamage_pos ent st : pos (player (contactDamage E ent st)) = pos (player st).
Proof. unfold contactDamage. cbv zeta. branches; reflexivity. Qed.

Lemma hitPlayer_pos p st : pos (player (snd (hitPlayer E p st))) = pos (player st).
Proof. unfold hitPlayer. cbv zeta. branches; reflexivity. Qed.

Lemma pickUp_pos item st : pos (player (pickUp E item st)) = pos (player st).
Proof.
  unfold pickUp. cbv zeta.
  branches; rewrite ?(spawnBoss_keeps E _ player) by (intros; reflexivity); reflexivity.
Qed.

Lemma introStep_posX dt st : X (pos (player (introStep E dt st))) = X (pos (player st)).
Proof. unfold introStep. cbv zeta. branches; reflexivity. Qed.

End LeftEdge.

(** X8.  The player never leaves the world on the left: in every mission,
    at every point, the abscissa of the player is at least 0.  (The landing
    clamps it; nothing else that moves the player comes after the clamp in a
    frame.) *)
Theorem player_never_left_of_world (E : Env) (actions : list Action) :
  0 <= X (pos (player (mission E actions))).
Proof.
  unfold mission.
  pose proof (actions_rel E
                (fun a b => 0 <= X (pos (snd a)) -> 0 <= X (pos (snd b)))
                (fun _ => True)) as A.
  cbv beta in A. unfold tally in A. cbn [snd] in A.
  apply A with (st := missionStart E); clear A; auto.
  - intros dt st _ _. apply playerPhase_right_of_edge.
  - intros ent st. rewrite contactDamage_pos. trivial.
  - intros ent st.
    rewrite (deathCheck_keeps E _ player) by (intros; reflexivity). trivial.
  - intros p st. rewrite hitPlayer_pos. trivial.
  - intros item st. rewrite pickUp_pos. trivial.
  - intros dt st _. rewrite introStep_posX. trivial.
  - unfold framesAre. apply Forall_forall. intros [] _; exact I.
  - unfold missionStart, startMission. cbv zeta.
    rewrite (fold_left_keeps _ player)
      by (intros; apply (placeCore_keeps E _ player); intros; reflexivity).
    cbn. lra.
Qed.

(** ** The end of a frame *)

Section FrameEnd.

Variable E : Env.

Lemma filter_alive l : Forall (fun e => markedForDeletion e = false) (filter alive l).
Proof.
  apply Forall_forall. intros e H. apply filter_In in H. destruct H as [_ H].
  unfold alive in H. apply negb_true_iff in H. exact H.
Qed.

Lemma mainStep_noneMarked dt st : noneMarked (mainStep E dt st).
Proof.
  unfold mainStep. cbv zeta.
  match goal with |- noneMarked (checkGameOver (compact ?s)) => generalize s end.
  intro s. unfold noneMarked.
  rewrite (checkGameOver_keeps _ enemies), (checkGameOver_keeps _ projectiles),
    (checkGameOver_keeps _ loot) by (intros; reflexivity).
  unfold compact. cbn [enemies projectiles loot set_enemies set_projectiles set_loot
                       set_frameCount].
  repeat split; apply filter_alive.
Qed.

Lemma collections_noneMarked a b : collections a = collections b -> noneMarked b -> noneMarked a.
Proof.
  unfold collections, noneMarked. intro H. injection H as -> -> ->. trivial.
Qed.

Lemma update_noneMarked dt st : noneMarked st -> noneMarked (update E dt st).
Proof.
  intro N. unfold update.
  destruct (JS.gtb (hitStop st) 0); [exact N|].
  destruct (JS.gtb (introTimer st) 0); [|apply mainStep_noneMarked].
  apply (collections_noneMarked _ st); [|exact N].
  apply (introStep_keeps E _ collections); intros; reflexivity.
Qed.

Lemma act_noneMarked st a : noneMarked st -> noneMarked (act E st a).
Proof.
  intro N. destruct a; cbn [act]; try exact N.
  unfold loopFrame. destruct (isPlaying st); [apply update_noneMarked|]; exact N.
Qed.

Lemma placeCore_noneMarked i st : noneMarked st -> noneMarked (placeCore E i st).
Proof.
  unfold noneMarked, placeCore, random. cbv zeta. intros (N1 & N2 & N3).
  destruct (2 <=? _)%Z;
    cbn [enemies projectiles loot set_enemies set_loot set_rngPos fst snd];
    repeat split; trivial; apply Forall_app; split; trivial;
    repeat constructor.
Qed.

Lemma missionStart_noneMarked : noneMarked (missionStart E).
Proof.
  unfold missionStart, startMission. cbv zeta.
  match goal with |- noneMarked (fold_left _ ?l ?s) =>
    assert (N : noneMarked s) by (repeat split; constructor);
    generalize l; revert N; generalize s
  end.
  intros s N l. revert s N. induction l as [|i l IH]; intros s N; simpl; [exact N|].
  apply IH. apply placeCore_noneMarked. exact N.
Qed.

End FrameEnd.

(** X9.  No dead entity outlives a frame: at every point of every mission
    (between two frames, that is) no enemy, no projectile and no loot item
    is marked for deletion.  Every frame proper ends by removing the marked
    entities of the three collections, and the landing sequence and the
    hit-stop frames mark nothing. *)
Theorem no_marked_entity_between_frames (E : Env) (actions : list Action) :
  noneMarked (mission E actions).
Proof.
  unfold mission. generalize (missionStart_noneMarked E).
  generalize (missionStart E) as st.
  induction actions as [|a actions IH]; intros st N; simpl; [exact N|].
  apply IH. apply act_noneMarked. exact N.
Qed.

(** ** Defeat *)

Section Defeat.

Variable E : Env.

Lemma verdict_eq a b :
  verdict a = verdict b -> isPlaying a = isPlaying b /\ gameOvers a = gameOvers b.
Proof. unfold verdict. intro H. injection H as H1 H2. split; assumption. Qed.

Lemma beforeCheck_verdict dt st :
  verdict (compact (lootPhase E dt (projectilesPhase E dt (enemiesPhase E dt
             (playerPhase E dt (updateWeather E dt st))))))
  = verdict st.
Proof.
  rewrite (compact_keeps _ verdict) by (intros; reflexivity).
  rewrite (lootPhase_keeps E _ verdict) by (intros; reflexivity).
  rewrite (projectilesPhase_keeps E _ verdict) by (intros; reflexivity).
  rewrite (enemiesPhase_keeps E _ verdict) by (intros; reflexivity).
  rewrite (playerPhase_keeps E _ verdict) by (intros; reflexivity).
  apply (updateWeather_keeps E _ verdict); intros; reflexivity.
Qed.

Lemma checkGameOver_inv st :
  isPlaying st = true -> gameOvers st = 0%nat -> defeatInv (checkGameOver st).
Proof.
  intros P G. unfold checkGameOver, defeatInv.
  destruct (JS.leb (health (player st)) 0) eqn:H.
  - right. apply JSFacts.leb_le in H. cbv zeta. unfold gameOvers in *.
    cbn [isPlaying events player set_isPlaying set_events filter length].
    rewrite G. auto.
  - left. auto.
Qed.

Lemma update_defeat dt st :
  isPlaying st = true -> gameOvers st = 0%nat -> defeatInv (update E dt st).
Proof.
  intros P G. unfold update.
  destruct (JS.gtb (hitStop st) 0); [left; auto|].
  destruct (JS.gtb (introTimer st) 0).
  - assert (V : verdict (introStep E dt st) = verdict st)
      by (apply (introStep_keeps E _ verdict); intros; reflexivity).
    apply verdict_eq in V. destruct V as [V1 V2]. left. split; congruence.
  - unfold mainStep. cbv zeta.
    pose proof (beforeCheck_verdict dt st) as V.
    match type of V with verdict ?s = _ => generalize dependent s end.
    intros s V. apply verdict_eq in V. destruct V as [V1 V2].
    apply checkGameOver_inv; congruence.
Qed.

Lemma act_defeat st a : defeatInv st -> defeatInv (act E st a).
Proof.
  intro I. destruct a; cbn [act]; try exact I.
  unfold loopFrame. destruct (isPlaying st) eqn:P; [|exact I].
  destruct I as [[_ G] | [C _]]; [|congruence].
  apply update_defeat; assumption.
Qed.

Lemma mission_defeat actions : defeatInv (mission E actions).
Proof.
  unfold mission.
  assert (I : defeatInv (missionStart E)).
  { left. unfold missionStart, startMission. cbv zeta.
    rewrite (fold_left_keeps _ isPlaying), (fold_left_keeps _ gameOvers)
      by (intros; apply (placeCore_keeps E); intros; reflexivity).
    split; reflexivity. }
  revert I. generalize (missionStart E) as st.
  induction actions as [|a actions IH]; intros st I; simpl; [exact I|].
  apply IH. apply act_defeat. exact I.
Qed.

(** Once the loop has stopped, nothing that happens changes the world. *)
Lemma stopped_world actions st :
  isPlaying st = false ->
  world (fold_left (act E) actions st) = world st /\
  isPlaying (fold_left (act E) actions st) = false.
Proof.
  revert st. induction actions as [|a actions IH]; intros st P; simpl; [auto|].
  assert (S : world (act E st a) = world st /\ isPlaying (act E st a) = false).
  { destruct a; cbn [act]; auto. unfold loopFrame. rewrite P. auto. }
  destruct S as [W P']. destruct (IH _ P') as [W' P'']. split; congruence.
Qed.

End Defeat.

(** X10.  Defeat is reported once and is final.  In every mission the defeat
    was reported at most once, and it was reported exactly when the loop has
    stopped; the player is then at no health, and whatever happens next
    (frames, input, the radio) changes neither the player, nor the
    collections, the score, the cores, the frame counter or the reports. *)
Theorem defeat_reported_once_and_final (E : Env) (actions : list Action) :
  let st := mission E actions in
  (gameOvers st <= 1)%nat /\
  (gameOvers st = 1%nat <-> isPlaying st = false) /\
  (isPlaying st = false ->
   health (player st) <= 0 /\
   forall more, world (mission E (actions ++ more)) = world st).
Proof.
  cbv zeta. pose proof (mission_defeat E actions) as I.
  unfold defeatInv in I. split; [|split].
  - destruct I as [[_ G] | [_ [G _]]]; lia.
  - destruct I as [[P G] | [P [G _]]]; rewrite P, G; split; congruence.
  - intro P. destruct I as [[P' _] | [_ [_ H]]]; [congruence|].
    split; [exact H|]. intro more. unfold mission. rewrite fold_left_app.
    apply stopped_world. exact P.
Qed.

Lemma defeat_reported_once_and_final_witness :
  gameOvers (mission noHullEnv (repeat (Frame 4) 26)) = 1%nat /\
  world (mission noHullEnv (repeat (Frame 4) 26 ++ [Frame 1; Keys (fun _ => true); Frame 1]))
  = world (mission noHullEnv (repeat (Frame 4) 26)).
Proof.
  pose proof (defeat_reported_once_and_final noHullEnv (repeat (Frame 4) 26)) as H.
  cbv zeta in H. destruct H as (_ & I & F).
  assert (P : isPlaying (mission noHullEnv (repeat (Frame 4) 26)) = false)
    by (vm_compute; reflexivity).
  split.
  - apply I. exact P.
  - apply (F P).
Defined.

(** ** The landing sequence *)

Section Landing.

Variable E : Env.

Lemma introStep_timer dt st : introTimer (introStep E dt st) <= introTimer st - dt.
Proof.
  unfold introStep. cbv zeta. branches; esimpl; jsb; lra.
Qed.

Lemma introStep_beyond dt st : beyondLanding (introStep E dt st) = beyondLanding st.
Proof.
  unfold introStep, beyondLanding. cbv zeta. branches; reflexivity.
Qed.

Lemma beyondLanding_runs a b :
  beyondLanding a = beyondLanding b -> hitStop a = hitStop b /\ isPlaying a = isPlaying b.
Proof. unfold beyondLanding. intro H. injection H. auto. Qed.

Lemma act_landing d st a :
  0 < d ->
  match a with Frame dt => d <= frameLength dt | _ => True end ->
  landingRuns st ->
  landingRuns (act E st a) /\
  (introTimer (act E st a) <= 0 \/
   introTimer (act E st a)
   <= introTimer st - (match a with Frame _ => d | _ => 0 end)).
Proof.
  intros D F L. destruct a; cbn [act];
    try (split; [exact L | right; cbn [introTimer set_keys set_touchInput set_mouse
                                       set_logicalWidth set_logicalHeight
                                       set_messageQueue]; lra]).
  unfold loopFrame, update. fold (frameLength dt).
  destruct (JS.gtb (introTimer st) 0) eqn:T.
  - apply JSFacts.gtb_gt in T. destruct (L T) as [H P]. rewrite P.
    apply JSFacts.gtb_le in H. rewrite H.
    pose proof (introStep_timer (frameLength dt) st) as C.
    destruct (beyondLanding_runs _ _ (introStep_beyond (frameLength dt) st)) as [H' P'].
    split; [|right; lra].
    intros _. rewrite H', P'. apply JSFacts.gtb_le in H. auto.
  - apply JSFacts.gtb_le in T.
    assert (K : introTimer
                  (if isPlaying st
                   then if JS.gtb (hitStop st) 0 then set_hitStop (hitStop st - 1) st
                        else mainStep E (frameLength dt) st
                   else st) = introTimer st).
    { destruct (isPlaying st); [|reflexivity].
      destruct (JS.gtb (hitStop st) 0); [reflexivity|].
      apply (mainStep_keeps E _ introTimer); intros; reflexivity. }
    split; [|left; rewrite K; exact T].
    intro C. rewrite K in C. lra.
Qed.

Lemma actions_landing d actions st :
  0 < d -> framesAre (fun dt => d <= dt) actions -> landingRuns st ->
  introTimer (fold_left (act E) actions st) <= 0 \/
  introTimer (fold_left (act E) actions st)
  <= introTimer st - d * inject_Z (Z.of_nat (frameCountOf actions)).
Proof.
  intros D F. revert st.
  induction F as [|a actions Fa F IH]; intros st L; cbn [fold_left].
  - right. unfold frameCountOf. cbn [filter length].
    change (inject_Z (Z.of_nat 0)) with 0. lra.
  - destruct (act_landing d st a D Fa L) as [L' C].
    destruct (IH _ L') as [Z | B]; [left; exact Z|].
    assert (N : 0 <= inject_Z (Z.of_nat (frameCountOf actions))).
    { change 0 with (inject_Z 0). rewrite <- Zle_Qle. lia. }
    destruct a; unfold frameCountOf in *; cbn [filter length] in *;
      try (destruct C as [C | C]; [left; nra | right; lra]).
    rewrite Nat2Z.inj_succ, <- Z.add_1_r, inject_Z_plus.
    change (inject_Z 1) with 1.
    destruct C as [C | C]; [left; nra | right; lra].
Qed.

End Landing.



(** ** The kind of weather *)

Section WeatherKind.

Variable E : Env.

Local Abbreviation planet := (env_planet E).

Lemma pickAt_In {A : Type} (d : A) (l : list A) r : pickAt d l r = d \/ In (pickAt d l r) l.
Proof.
  unfold pickAt. destruct (JS.index l _) eqn:I; [right | left; reflexivity].
  unfold JS.index in I. destruct (_ <? 0)%Z; [discriminate|].
  apply nth_error_In in I. exact I.
Qed.

Lemma weatherTransition_sky st :
  skyOf planet (sky st) -> skyOf planet (sky (weatherTransition E st)).
Proof.
  unfold skyOf, sky, weatherTransition. cbn [fst snd]. intros [K C].
  destruct (weatherState st) eqn:W; unfold random; cbv beta iota zeta.
  - specialize (C eq_refl).
    destruct (_ && _); [|esimpl; rewrite W; auto].
    destruct (0 <? _)%nat; esimpl; [|split; [auto | discriminate]].
    split; [|discriminate].
    match goal with |- context [pickAt clear ?l ?r] =>
      destruct (pickAt_In clear l r) as [P | P]; [left; exact P | right]
    end.
    apply filter_In in P. apply P.
  - esimpl. split; [exact K | discriminate].
  - esimpl. split; [exact K | discriminate].
  - esimpl. auto.
Qed.

Lemma updateWeather_sky dt st :
  skyOf planet (sky st) -> skyOf planet (sky (updateWeather E dt st)).
Proof.
  intro S. unfold updateWeather.
  rewrite (weatherRamp_keeps _ sky) by (intros; reflexivity).
  unfold weatherMachine.
  destruct (JS.gtb (weatherVolatility planet) 0); cbv zeta.
  - assert (S' : skyOf planet
                   (sky (set_weatherTimer (weatherTimer (weatherClock dt st) - dt)
                                          (weatherClock dt st)))).
    { change (sky (set_weatherTimer _ ?s)) with (sky s).
      rewrite (weatherClock_keeps _ sky) by (intros; reflexivity). exact S. }
    destruct (JS.leb _ 0); [apply weatherTransition_sky|]; exact S'.
  - unfold skyOf, sky. esimpl. auto.
Qed.

Lemma update_sky dt st : skyOf planet (sky st) -> skyOf planet (sky (update E dt st)).
Proof.
  intro S. unfold update.
  destruct (JS.gtb (hitStop st) 0); [exact S|].
  destruct (JS.gtb (introTimer st) 0).
  - rewrite (introStep_keeps E _ sky) by (intros; reflexivity). exact S.
  - unfold mainStep. cbv zeta.
    rewrite (afterWeather_keeps E _ sky) by (intros; reflexivity).
    apply updateWeather_sky. exact S.
Qed.

Lemma act_sky st a : skyOf planet (sky st) -> skyOf planet (sky (act E st a)).
Proof.
  intro S. destruct a; cbn [act]; try exact S.
  unfold loopFrame. destruct (isPlaying st); [apply update_sky|]; exact S.
Qed.

End WeatherKind.

(** X12.  The weather is the planet's: at every point of every mission the
    kind of weather is clear or one of the planet's weather traits, and it is
    clear while the phase is clear.  (A storm picks its kind among the traits
    other than clear.) *)
Theorem weather_kind_among_traits (E : Env) (actions : list Action) :
  let st := mission E actions in
  (currentWeather st = clear \/ In (currentWeather st) (weatherTraits (env_planet E))) /\
  (weatherState st = ws_clear -> currentWeather st = clear).
Proof.
  cbv zeta. change (skyOf (env_planet E) (sky (mission E actions))).
  unfold mission.
  assert (S : skyOf (env_planet E) (sky (missionStart E))).
  { unfold missionStart, startMission. cbv zeta.
    rewrite (fold_left_keeps _ sky)
      by (intros; apply (placeCore_keeps E); intros; reflexivity).
    unfold skyOf, sky. cbn. auto. }
  revert S. generalize (missionStart E) as st.
  induction actions as [|a actions IH]; intros st S; simpl; [exact S|].
  apply IH. apply act_sky. exact S.
Qed.

(** ** The enemies through a frame *)

(** Case analysis as [branches] does it, with the pairs taken apart on the
    way. *)
Ltac paths :=
  repeat (cbv beta iota zeta;
          match goal with
          | |- context [if ?c then _ else _] =>
              lazymatch c with
              | context [if _ then _ else _] => fail
              | context [match _ with _ => _ end] => fail
              | _ => destruct c eqn:?
              end
          | |- context [match ?c with _ => _ end] =>
              lazymatch c with
              | context [if _ then _ else _] => fail
              | context [match _ with _ => _ end] => fail
              | _ => destruct c eqn:?
              end
          end).

Section Identity.

Variable E : Env.

Lemma identity_parts e e' :
  identity e' = identity e -> archetype e' = archetype e /\ isBurrowed e' = isBurrowed e.
Proof. unfold identity. intro H. injection H. auto. Qed.

Lemma set_hitTimer_identity v e : identity (set_hitTimer v e) = identity e.
Proof. reflexivity. Qed.

Lemma setVelX_identity v e : identity (setVelX v e) = identity e.
Proof. reflexivity. Qed.

Lemma separation_identity dt i j others ent :
  identity (separation E dt i j others ent) = identity ent.
Proof.
  revert j ent. induction others as [|o others IH]; intros j ent; simpl; [reflexivity|].
  rewrite IH. paths; reflexivity.
Qed.

Lemma aggroRule_identity dt see ent st :
  identity (fst (aggroRule E dt see ent st)) = identity ent.
Proof. unfold aggroRule, random. paths; reflexivity. Qed.

Lemma aiNeutral_identity see ent st : identity (fst (aiNeutral E see ent st)) = identity ent.
Proof. unfold aiNeutral, landOn, random. paths; reflexivity. Qed.

Lemma aiCrawler_identity dt see ent : identity (aiCrawler dt see ent) = identity ent.
Proof. unfold aiCrawler. paths; reflexivity. Qed.

Lemma aiHornet_identity dt see ent st : identity (aiHornet E dt see ent st) = identity ent.
Proof. unfold aiHornet. paths; reflexivity. Qed.

Lemma aiSentinel_identity dt see ent st :
  identity (fst (aiSentinel E dt see ent st)) = identity ent.
Proof. unfold aiSentinel. paths; reflexivity. Qed.

Lemma aiDasher_identity dt see ent st :
  identity (fst (aiDasher E dt see ent st)) = identity ent.
Proof. unfold aiDasher, random. paths; reflexivity. Qed.

Lemma aiGuardian_identity dt see ent st :
  identity (fst (aiGuardian E dt see ent st)) = identity ent.
Proof. unfold aiGuardian, random. paths; reflexivity. Qed.

Lemma aiShielder_identity dt ent st : identity (aiShielder dt ent st) = identity ent.
Proof. unfold aiShielder. paths; reflexivity. Qed.

Lemma aiSandworm_identity dt ent st :
  identity (fst (aiSandworm E dt ent st)) = identity ent.
Proof. unfold aiSandworm. paths; reflexivity. Qed.

Lemma archetypeAI_identity dt see ent st :
  identity (fst (archetypeAI E dt see ent st)) = identity ent.
Proof.
  unfold archetypeAI.
  destruct (archetype ent) as [[]|]; cbn [fst];
    auto using aiNeutral_identity, aiCrawler_identity, aiHornet_identity,
      aiSentinel_identity, aiDasher_identity, aiGuardian_identity, aiShielder_identity,
      aiSandworm_identity.
Qed.

Lemma enemyPhysics_identity dt see ent : identity (enemyPhysics E dt see ent) = identity ent.
Proof. unfold enemyPhysics, landOn. paths; reflexivity. Qed.

Lemma deathCheck_identity ent st : identity (fst (deathCheck E ent st)) = identity ent.
Proof. unfold deathCheck, random. paths; reflexivity. Qed.

Lemma applyHit_identity p e : identity (applyHit E p e) = identity e.
Proof. unfold applyHit. paths; reflexivity. Qed.

Lemma explodeOn_identity x y e : identity (explodeOn E x y e) = identity e.
Proof. unfold explodeOn. paths; reflexivity. Qed.

End Identity.

(** *** The roster

    A property [P] of single enemies that depends on their identity only
    holds of all enemies after a step if it did before, provided it holds of
    the enemies that the step brings in. *)

Lemma rollArchetype_not_guardian r : rollArchetype r <> guardian.
Proof. unfold rollArchetype. branches; discriminate. Qed.

Lemma replaceAt_Forall {A : Type} (P : A -> Prop) i e l :
  Forall P l -> P e -> Forall P (replaceAt i e l).
Proof.
  intros F Pe. revert i. induction F as [|a l Pa F IH]; intro i; simpl.
  - destruct i; constructor.
  - destruct i; constructor; auto.
Qed.

Lemma replaceAt_length {A : Type} i (e : A) l : length (replaceAt i e l) = length l.
Proof.
  revert i. induction l as [|a l IH]; intro i; destruct i; simpl; auto.
Qed.

Section Roster.

Variable E : Env.
Variable P : Entity -> Prop.

Hypothesis P_same : forall e e', identity e' = identity e -> P e -> P e'.
Hypothesis P_spawnEnemy :
  forall x gy fa fr st,
    fa <> Some guardian ->
    Forall P (enemies st) -> Forall P (enemies (spawnEnemy E x gy fa fr st)).

Local Abbreviation roster := (fun st : GameState => Forall P (enemies st)).

(** A step that leaves the enemies alone. *)
Ltac same_enemies lemma :=
  rewrite (lemma E _ enemies) by (intros; reflexivity).

(** No squad has a guardian among its members. *)
Lemma swarmMembers_no_guardian t n i st :
  t <> guardian -> Forall (fun m => arch m <> guardian) (fst (swarmMembers E t n i st)).
Proof.
  intro T. revert i st. induction n as [|n IH]; intros i st; simpl; [constructor|].
  unfold random. cbv zeta.
  specialize (IH (S i) (set_rngPos (S (rngPos st)) st)).
  destruct (swarmMembers E t n (S i) _) as [ms g]. cbn [fst] in *.
  constructor; [exact T | exact IH].
Qed.

Lemma squadMembersOf_no_guardian th st :
  Forall (fun m => arch m <> guardian) (fst (squadMembersOf E th st)).
Proof.
  unfold squadMembersOf, random. cbv zeta.
  destruct th; cbn [fst].
  - repeat constructor; discriminate.
  - apply Forall_forall. intros m H. apply in_map_iff in H. destruct H as (i & <- & _).
    discriminate.
  - constructor; [discriminate|].
    apply Forall_forall. intros m H. apply in_map_iff in H. destruct H as (i & <- & _).
    discriminate.
  - repeat constructor; discriminate.
  - apply swarmMembers_no_guardian. destruct (JS.gtb _ _); discriminate.
  - repeat constructor; discriminate.
  - repeat constructor; discriminate.
Qed.

Lemma promoteAlpha_no_guardian ms :
  Forall (fun m => arch m <> guardian) ms ->
  Forall (fun m => arch m <> guardian) (promoteAlpha ms).
Proof.
  intro F. unfold promoteAlpha. cbv zeta.
  destruct (nth_error ms _) as [m|] eqn:N; [|exact F].
  apply replaceAt_Forall; [exact F|]. cbn [arch].
  rewrite Forall_forall in F. apply F. eapply nth_error_In. exact N.
Qed.

Lemma spawnMember_roster x m st :
  arch m <> guardian -> roster st -> roster (spawnMember E x m st).
Proof.
  intros A R. unfold spawnMember. cbv zeta. apply P_spawnEnemy; [congruence | exact R].
Qed.

Lemma spawnSquad_roster x st : roster st -> roster (spawnSquad E x st).
Proof.
  intro R. unfold spawnSquad, random. cbv zeta.
  match goal with |- context [squadMembersOf E ?th ?s] =>
    pose proof (squadMembersOf_no_guardian th s) as G;
    pose proof (squadMembersOf_keeps E _ enemies) as K;
    repeat (specialize (K ltac:(intros; reflexivity)));
    specialize (K th s);
    destruct (squadMembersOf E th s) as [ms g]
  end.
  cbn [fst snd] in *.
  match goal with |- context [fold_left _ ?l ?s] =>
    assert (G' : Forall (fun m => arch m <> guardian) l)
      by (destruct (_ && _); [apply promoteAlpha_no_guardian|]; exact G);
    assert (R' : roster s) by (cbn [enemies set_rngPos]; rewrite K; exact R);
    revert R'; generalize s; revert G'; generalize l
  end.
  intros l G'. induction G' as [|m l A G' IH]; intros s R'; simpl; [exact R'|].
  apply IH. apply spawnMember_roster; assumption.
Qed.

Lemma squadTrigger_roster st : roster st -> roster (squadTrigger E st).
Proof.
  intro R. unfold squadTrigger, random. cbv zeta.
  destruct (negb _); [|exact R]. destruct (JS.gtb _ _); [|exact R].
  cbn [enemies set_nextSquadSpawnX set_rngPos]. apply spawnSquad_roster. exact R.
Qed.

Lemma playerPhase_roster dt st : roster st -> roster (playerPhase E dt st).
Proof.
  intro R. unfold playerPhase. cbv zeta. apply squadTrigger_roster.
  rewrite (trackCamera_keeps _ enemies), (resolveGround_keeps _ enemies)
    by (intros; reflexivity).
  same_enemies hazardEffects_keeps. same_enemies integratePlayer_keeps.
  same_enemies shoot_keeps. same_enemies jumpAndJetpack_keeps.
  same_enemies moveHorizontal_keeps. same_enemies updateAim_keeps.
  rewrite (tickTimers_keeps _ enemies) by (intros; reflexivity). exact R.
Qed.

Lemma guardianSummon_roster ent st : roster st -> roster (guardianSummon E ent st).
Proof.
  intro R. unfold guardianSummon, random. cbv zeta.
  apply P_spawnEnemy; [discriminate | exact R].
Qed.

Lemma archetypeAI_roster dt see ent st :
  roster st -> roster (snd (archetypeAI E dt see ent st)).
Proof.
  intro R. unfold archetypeAI.
  destruct (archetype ent) as [[]|]; cbn [snd]; try exact R.
  - same_enemies aiSentinel_keeps. exact R.
  - same_enemies aiDasher_keeps. exact R.
  - unfold aiGuardian, random. cbv zeta.
    destruct (timerExpired _); cbn [snd]; [|exact R].
    destruct (JS.ltb _ _); cbn [snd].
    + same_enemies guardianSpread_keeps. exact R.
    + cbn [repeatN]. apply guardianSummon_roster, guardianSummon_roster. exact R.
  - same_enemies aiNeutral_keeps. exact R.
  - same_enemies aiSandworm_keeps. exact R.
Qed.

Lemma enemyStep_roster dt i st : roster st -> roster (enemyStep E dt i st).
Proof.
  intro R. unfold enemyStep.
  destruct (nth_error (enemies st) i) as [ent|] eqn:N; [|exact R].
  assert (Pe : P ent).
  { pose proof R as R0. rewrite Forall_forall in R0. apply R0.
    eapply nth_error_In. exact N. }
  cbv zeta.
  match goal with |- context [aggroRule E dt ?see ?e st] =>
    assert (I0 : identity e = identity ent)
      by (destruct (negb _), (JS.gtb _ 0);
          rewrite ?set_hitTimer_identity, ?separation_identity, ?setVelX_identity;
          reflexivity);
    pose proof (aggroRule_keeps E _ enemies) as A;
    specialize (A ltac:(intros; reflexivity)); specialize (A dt see e st);
    pose proof (aggroRule_identity E dt see e st) as I1;
    destruct (aggroRule E dt see e st) as [e1 s1]; cbn [fst snd] in A, I1
  end.
  match goal with |- context [archetypeAI E dt ?see e1 s1] =>
    assert (R1 : roster s1) by (cbv beta; rewrite A; exact R);
    pose proof (archetypeAI_roster dt see e1 s1 R1) as R2;
    pose proof (archetypeAI_identity E dt see e1 s1) as I2;
    destruct (archetypeAI E dt see e1 s1) as [e2 s2]; cbn [fst snd] in R2, I2
  end.
  match goal with |- context [deathCheck E ?e ?s] =>
    assert (I3 : identity e = identity e2) by apply enemyPhysics_identity;
    pose proof (deathCheck_keeps E _ enemies) as D;
    repeat (specialize (D ltac:(intros; reflexivity))); specialize (D e s);
    pose proof (deathCheck_identity E e s) as I4;
    destruct (deathCheck E e s) as [e4 s4]; cbn [fst snd] in D, I4
  end.
  cbn [enemies set_enemies]. apply replaceAt_Forall.
  - rewrite D. same_enemies contactDamage_keeps. exact R2.
  - apply (P_same ent); [congruence | exact Pe].
Qed.

Lemma enemiesPhase_roster dt st : roster st -> roster (enemiesPhase E dt st).
Proof.
  unfold enemiesPhase. generalize (seq 0 (length (enemies st))) as l.
  intro l. revert st. induction l as [|i l IH]; intros st R; simpl; [exact R|].
  apply IH. apply enemyStep_roster. exact R.
Qed.

Lemma spawnExplosion_roster x y st : roster st -> roster (spawnExplosion E x y st).
Proof.
  intro R. unfold spawnExplosion. cbv zeta. cbn [enemies set_enemies addScreenshake set_camera].
  apply Forall_forall. intros e H. apply in_map_iff in H. destruct H as (e0 & <- & H).
  apply (P_same e0); [apply explodeOn_identity|].
  pose proof R as R0. rewrite Forall_forall in R0. apply R0. exact H.
Qed.

Lemma resolveHit_roster i p st : roster st -> roster (snd (resolveHit E i p st)).
Proof.
  intro R. unfold resolveHit.
  destruct (nth_error (enemies st) i) as [enemy|] eqn:N; [|exact R].
  destruct (_ && _); [|exact R].
  destruct (damageBlocked p enemy); [exact R|].
  destruct (isExplosive p); cbn [snd]; [apply spawnExplosion_roster; exact R|].
  cbv zeta.
  assert (R' : Forall P (replaceAt i (applyHit E p enemy) (enemies st))).
  { apply replaceAt_Forall; [exact R|].
    apply (P_same enemy); [apply applyHit_identity|].
    pose proof R as R0. rewrite Forall_forall in R0. apply R0.
    eapply nth_error_In. exact N. }
  destruct (0 <? _)%Z; exact R'.
Qed.

Lemma resolveHits_roster l p st :
  roster st ->
  roster (snd (fold_left (fun ps index => resolveHit E index (fst ps) (snd ps)) l (p, st))).
Proof.
  revert p st. induction l as [|i l IH]; intros p st R; simpl; [exact R|].
  pose proof (resolveHit_roster i p st R) as R'.
  destruct (resolveHit E i p st) as [p' st']. apply IH. exact R'.
Qed.

Lemma projectileStep_roster dt p st : roster st -> roster (snd (projectileStep E dt p st)).
Proof.
  intro R. unfold projectileStep. cbv zeta.
  match goal with |- context [match type ?q with _ => _ end] => set (p1 := q) end.
  assert (H : exists p2 s2,
             match type p1 with
             | T_projectile =>
                 fold_left (fun ps index => resolveHit E index (fst ps) (snd ps))
                           (seq 0 (length (enemies st))) (p1, st)
             | T_enemy_projectile => hitPlayer E p1 st
             | _ => (p1, st)
             end = (p2, s2) /\ roster s2).
  { destruct (type p1).
    1,2,5,6: eexists _, _; split; [reflexivity | exact R].
    - pose proof (resolveHits_roster (seq 0 (length (enemies st))) p1 st R) as K.
      destruct (fold_left _ _ _) as [p2 s2]. eexists _, _. split; [reflexivity | exact K].
    - pose proof (hitPlayer_keeps E _ enemies) as K.
      repeat (specialize (K ltac:(intros; reflexivity))). specialize (K p1 st).
      destruct (hitPlayer E p1 st) as [p2 s2]. cbn [snd] in K.
      eexists _, _. split; [reflexivity|]. cbv beta. rewrite K. exact R. }
  destruct H as (p2 & s2 & -> & K).
  destruct (JS.gtb (Y (pos _)) _); cbn [snd]; [|exact K].
  destruct (isExplosive _); cbn [snd]; [|exact K].
  apply spawnExplosion_roster. exact K.
Qed.

Lemma projectilesLoop_roster dt todo done st :
  roster st -> roster (projectilesLoop E dt todo done st).
Proof.
  revert done st. induction todo as [|p todo IH]; intros done st R; simpl.
  - exact R.
  - pose proof (projectileStep_roster dt p st R) as K.
    destruct (projectileStep E dt p st) as [p' st']. apply IH. exact K.
Qed.

Lemma compact_roster st : roster st -> roster (compact st).
Proof.
  intro R. unfold compact. cbn [enemies set_enemies set_projectiles set_loot set_frameCount].
  apply Forall_forall. intros e H. apply filter_In in H.
  pose proof R as R0. rewrite Forall_forall in R0. apply R0. apply H.
Qed.

(** The frame up to the loot. *)
Lemma beforeLoot_roster dt st :
  roster st ->
  roster (projectilesPhase E dt (enemiesPhase E dt (playerPhase E dt
            (updateWeather E dt st)))).
Proof.
  intro R. apply projectilesLoop_roster, enemiesPhase_roster, playerPhase_roster.
  cbv beta. same_enemies updateWeather_keeps. exact R.
Qed.

(** The rest of the frame, for a property that the guardian and the guards
    of the cores have. *)
Hypothesis P_boss : forall st, roster st -> roster (spawnBoss E st).
Hypothesis P_placeCore : forall i st, roster st -> roster (placeCore E i st).

Lemma pickUp_roster item st : roster st -> roster (pickUp E item st).
Proof.
  intro R. unfold pickUp.
  destruct (lootType item) as [[| |]|]; try exact R.
  - cbv zeta. branches; try apply P_boss; exact R.
  - destruct (weaponType item); exact R.
Qed.

Lemma lootLoop_roster dt todo done st : roster st -> roster (lootLoop E dt todo done st).
Proof.
  revert done st. induction todo as [|item todo IH]; intros done st R; simpl.
  - exact R.
  - assert (K : roster (snd (lootStep E dt item st))).
    { unfold lootStep. cbv zeta.
      destruct (checkCollision _ _); cbn [snd]; [apply pickUp_roster|]; exact R. }
    destruct (lootStep E dt item st) as [item' st']. apply IH. exact K.
Qed.

Lemma update_roster dt st : roster st -> roster (update E dt st).
Proof.
  intro R. unfold update.
  destruct (JS.gtb (hitStop st) 0); [exact R|].
  destruct (JS.gtb (introTimer st) 0).
  - cbv beta. same_enemies introStep_keeps. exact R.
  - unfold mainStep. cbv zeta. cbv beta.
    rewrite (checkGameOver_keeps _ enemies) by (intros; reflexivity).
    apply compact_roster, lootLoop_roster, beforeLoot_roster. exact R.
Qed.

Lemma actions_roster actions st : roster st -> roster (fold_left (act E) actions st).
Proof.
  revert st. induction actions as [|a actions IH]; intros st R; simpl; [exact R|].
  apply IH. destruct a; cbn [act]; try exact R.
  unfold loopFrame. destruct (isPlaying st); [apply update_roster|]; exact R.
Qed.

Lemma missionStart_roster : roster (missionStart E).
Proof.
  unfold missionStart, startMission. cbv beta zeta.
  match goal with |- Forall P (enemies (fold_left _ ?l ?s)) =>
    assert (R : Forall P (enemies s)) by constructor;
    generalize l; revert R; generalize s
  end.
  intros s R l. revert s R.
  induction l as [|i l IH]; intros s R; simpl; [exact R|].
  apply IH, P_placeCore. exact R.
Qed.

End Roster.

(** *** What the spawner makes *)

Section Spawned.

Variable E : Env.

(** The enemy that [spawnEnemy] appends: its archetype is the forced one or
    the rolled one, it is burrowed exactly when it is a sandworm, it is
    whole and it is not marked. *)
Lemma spawnEnemy_made x groundY fa fr st :
  exists e a,
    enemies (spawnEnemy E x groundY fa fr st) = enemies st ++ [e] /\
    archetype e = Some a /\
    (fa = Some a \/ (fa = None /\ a = rollArchetype (env_rnd E (rngPos st)))) /\
    isBurrowed e = (match a with sandworm => true | _ => false end) /\
    type e = T_enemy /\ markedForDeletion e = false /\ health e = maxHealth e.
Proof.
  unfold spawnEnemy, random. cbv beta iota zeta.
  set (rolled := rollArchetype (env_rnd E (rngPos st))).
  destruct fa as [a|]; [|set (a := rolled)];
    (destruct fr as [[|]|];
     destruct a eqn:A; cbn [isHornetOrSpore EnemyArchetype_beq];
     cbv beta iota zeta; cbn [fst snd set_rngPos rngPos];
     repeat match goal with
       | |- context [if JS.gtb ?u ?v then _ else _] => destruct (JS.gtb u v)
       end;
     cbv beta iota zeta; cbn [enemies set_enemies set_rngPos];
     eexists; exists a; subst a;
     (split; [rewrite ?A; reflexivity|]);
     cbn [archetype isBurrowed type markedForDeletion health maxHealth]; rewrite ?A;
     repeat split; auto).
Qed.

End Spawned.

(** ** Sandworms *)

Section Sandworm.

Variable E : Env.

Lemma burrowed_same e e' :
  identity e' = identity e -> burrowedIfSandworm e -> burrowedIfSandworm e'.
Proof.
  intros I B A. destruct (identity_parts e e' I) as [I1 I2]. rewrite I2. apply B. congruence.
Qed.

Lemma burrowed_spawnEnemy x gy fa fr st :
  fa <> Some guardian ->
  Forall burrowedIfSandworm (enemies st) ->
  Forall burrowedIfSandworm (enemies (spawnEnemy E x gy fa fr st)).
Proof.
  intros _ F.
  destruct (spawnEnemy_made E x gy fa fr st) as (e & a & -> & A & _ & B & _).
  apply Forall_app. split; [exact F|]. constructor; [|constructor].
  intro S. rewrite B. rewrite A in S. injection S as ->. reflexivity.
Qed.

Lemma burrowed_spawnBoss st :
  Forall burrowedIfSandworm (enemies st) ->
  Forall burrowedIfSandworm (enemies (spawnBoss E st)).
Proof.
  intro F. unfold spawnBoss. destruct (bossActive st); [exact F|]. cbv zeta. esimpl.
  apply Forall_app. split; [exact F|]. constructor; [|constructor]. discriminate.
Qed.

Lemma burrowed_placeCore i st :
  Forall burrowedIfSandworm (enemies st) ->
  Forall burrowedIfSandworm (enemies (placeCore E i st)).
Proof.
  intro F. unfold placeCore, random. cbv zeta.
  destruct (2 <=? _)%Z; esimpl; [|exact F].
  apply Forall_app. split; [exact F|]. constructor; [|constructor].
  unfold burrowedIfSandworm. esimpl. destruct (JS.gtb _ _); discriminate.
Qed.

End Sandworm.

(** X13.  A sandworm never surfaces.  [spawnEnemy] makes every sandworm
    burrowed and nothing assigns the flag afterwards: from a state whose
    sandworms are burrowed (the start of a mission is one: it has no
    sandworm) every state that any frames, input and radio ticks lead to has
    its sandworms burrowed.  So a sandworm's own behaviour does nothing (it
    never fires), and a projectile of the player that reaches it is blocked:
    the hit resolution destroys the projectile and leaves the state as it is,
    or does nothing at all.  (An explosion next to it still hurts it.) *)
Theorem sandworm_stays_burrowed (E : Env) (st0 : GameState) (actions : list Action) :
  Forall burrowedIfSandworm (enemies st0) ->
  let st := fold_left (act E) actions st0 in
  forall i e,
    nth_error (enemies st) i = Some e ->
    archetype e = Some sandworm ->
    isBurrowed e = true /\
    (forall dt see s, archetypeAI E dt see e s = (e, s)) /\
    (forall proj,
       resolveHit E i proj st = (proj, st) \/
       resolveHit E i proj st = (set_markedForDeletion true proj, st)).
Proof.
  intros F0 st i e N A.
  assert (B : isBurrowed e = true).
  { pose proof (actions_roster E burrowedIfSandworm (burrowed_same)
                  (burrowed_spawnEnemy E) (burrowed_spawnBoss E) actions st0 F0) as F.
    rewrite Forall_forall in F. apply F; [|exact A]. eapply nth_error_In. exact N. }
  split; [exact B|]. split.
  - intros dt see s. unfold archetypeAI, aiSandworm. rewrite A, B. reflexivity.
  - intro proj. unfold resolveHit. rewrite N.
    destruct (_ && _); [|left; reflexivity].
    unfold damageBlocked, isArch. rewrite A, B. cbn. right. reflexivity.
Qed.

(** The state at the start of a mission has no sandworm, so the theorem
    covers every mission. *)
Lemma missionStart_burrowed (E : Env) : Forall burrowedIfSandworm (enemies (missionStart E)).
Proof.
  apply missionStart_roster. apply burrowed_placeCore.
Qed.

(** The theorem on a sandworm that [spawnEnemy] puts into the mounted state,
    after a frame: a blaster shot that reaches it is destroyed. *)
Lemma sandworm_stays_burrowed_witness :
  let E := sampleEnv emergencyPlanet (1 # 2) in
  let st := fold_left (act E) [Frame 1]
                      (spawnEnemy E 200 132 (Some sandworm) None (mountState E)) in
  resolveHit E 0 (sampleShot 190 110) st = (set_markedForDeletion true (sampleShot 190 110), st).
Proof.
  cbv zeta.
  pose proof (sandworm_stays_burrowed (sampleEnv emergencyPlanet (1 # 2))
                (spawnEnemy (sampleEnv emergencyPlanet (1 # 2)) 200 132 (Some sandworm)
                            None (mountState (sampleEnv emergencyPlanet (1 # 2))))
                [Frame 1]) as T.
  cbv zeta in T.
  destruct (T ltac:(repeat constructor) 0%nat _ ltac:(vm_compute; reflexivity) eq_refl)
    as (_ & _ & H).
  destruct (H (sampleShot 190 110)) as [C | C]; [|exact C].
  exfalso. apply (f_equal (fun ps => markedForDeletion (fst ps))) in C.
  vm_compute in C. discriminate.
Defined.

(** ** Victory *)

Section Victory.

Variable E : Env.

Lemma notGuardian_same e e' : identity e' = identity e -> notGuardian e -> notGuardian e'.
Proof.
  unfold notGuardian. intros I G. destruct (identity_parts e e' I) as [I1 _]. congruence.
Qed.

Lemma notGuardian_spawnEnemy x gy fa fr st :
  fa <> Some guardian ->
  Forall notGuardian (enemies st) ->
  Forall notGuardian (enemies (spawnEnemy E x gy fa fr st)).
Proof.
  intros G F.
  destruct (spawnEnemy_made E x gy fa fr st) as (e & a & -> & A & [Fa | [_ Fa]] & _).
  - apply Forall_app. split; [exact F|]. constructor; [|constructor].
    unfold notGuardian. congruence.
  - apply Forall_app. split; [exact F|]. constructor; [|constructor].
    unfold notGuardian. rewrite A, Fa. intro C. injection C as C.
    exact (rollArchetype_not_guardian _ C).
Qed.

(** The death of an enemy other than the guardian reports nothing. *)
Lemma deathCheck_events ent st :
  notGuardian ent -> events (snd (deathCheck E ent st)) = events st.
Proof.
  unfold notGuardian. intro G. unfold deathCheck.
  destruct (_ || _); [|reflexivity]. cbv zeta.
  destruct (JS.leb _ 0); [|reflexivity].
  assert (NG : isArch guardian (set_markedForDeletion true ent) = false).
  { unfold isArch. cbn [archetype set_markedForDeletion].
    destruct (archetype ent) as [[]|]; try reflexivity. congruence. }
  rewrite NG. unfold random. cbv zeta. cbn [snd fst].
  change (events (set_hitStop 3 ?s)) with (events s).
  destruct (JS.ltb _ _); [|destruct (JS.ltb _ _)];
    rewrite ?(spawnLoot_keeps E _ events) by (intros; reflexivity); reflexivity.
Qed.

Lemma deathCheck_quiet ent st :
  notGuardian ent -> victories (snd (deathCheck E ent st)) = victories st.
Proof. intro G. unfold victories. rewrite deathCheck_events by exact G. reflexivity. Qed.

Lemma enemyStep_quiet dt i st :
  Forall notGuardian (enemies st) -> victories (enemyStep E dt i st) = victories st.
Proof.
  intro R. unfold enemyStep.
  destruct (nth_error (enemies st) i) as [ent|] eqn:N; [|reflexivity].
  assert (Pe : notGuardian ent).
  { rewrite Forall_forall in R. apply R. eapply nth_error_In. exact N. }
  cbv zeta.
  match goal with |- context [aggroRule E dt ?see ?e st] =>
    assert (I0 : identity e = identity ent)
      by (destruct (negb _), (JS.gtb _ 0);
          rewrite ?set_hitTimer_identity, ?separation_identity, ?setVelX_identity;
          reflexivity);
    pose proof (aggroRule_keeps E _ victories) as A;
    specialize (A ltac:(intros; reflexivity)); specialize (A dt see e st);
    pose proof (aggroRule_identity E dt see e st) as I1;
    destruct (aggroRule E dt see e st) as [e1 s1]; cbn [fst snd] in A, I1
  end.
  match goal with |- context [archetypeAI E dt ?see e1 s1] =>
    pose proof (archetypeAI_keeps E _ victories) as B;
    repeat (specialize (B ltac:(intros; reflexivity))); specialize (B dt see e1 s1);
    pose proof (archetypeAI_identity E dt see e1 s1) as I2;
    destruct (archetypeAI E dt see e1 s1) as [e2 s2]; cbn [fst snd] in B, I2
  end.
  match goal with |- context [deathCheck E ?e ?s] =>
    assert (I3 : identity e = identity e2) by apply enemyPhysics_identity;
    assert (G : notGuardian e)
      by (apply (notGuardian_same ent); [congruence | exact Pe]);
    pose proof (deathCheck_quiet e s G) as D;
    destruct (deathCheck E e s) as [e4 s4]; cbn [snd] in D
  end.
  change (victories (set_enemies _ s4)) with (victories s4).
  rewrite D. rewrite (contactDamage_keeps E _ victories) by (intros; reflexivity).
  congruence.
Qed.

Lemma enemiesPhase_quiet dt st :
  Forall notGuardian (enemies st) -> victories (enemiesPhase E dt st) = victories st.
Proof.
  unfold enemiesPhase. generalize (seq 0 (length (enemies st))) as l.
  intro l. revert st. induction l as [|i l IH]; intros st R; simpl; [reflexivity|].
  rewrite IH; [apply enemyStep_quiet; exact R|].
  apply (enemyStep_roster E notGuardian notGuardian_same notGuardian_spawnEnemy).
  exact R.
Qed.

(** Once the guardian is active it stays so. *)
Lemma pickUp_active item st : bossActive st = true -> bossActive (pickUp E item st) = true.
Proof.
  intro B. unfold pickUp.
  destruct (lootType item) as [[| |]|]; try exact B.
  - cbv zeta. branches; rewrite ?spawnBoss_active; esimpl; exact B.
  - destruct (weaponType item); exact B.
Qed.

(** A pickup leaves the enemies and the reports alone, or it calls the
    guardian. *)
Lemma pickUp_beforeBoss item st : beforeBoss st -> beforeBoss (pickUp E item st).
Proof.
  intros [B | [R V]]; [left; apply pickUp_active; exact B|].
  destruct (bossActive (pickUp E item st)) eqn:B'; [left; exact B'|].
  right. unfold pickUp in *.
  destruct (lootType item) as [[| |]|]; try (split; assumption).
  - cbv zeta in *. revert B'. unfold spawnBoss.
    branches; esimpl; try discriminate; intros _; split; assumption.
  - destruct (weaponType item); split; assumption.
Qed.

Lemma lootLoop_beforeBoss dt todo done st :
  beforeBoss st -> beforeBoss (lootLoop E dt todo done st).
Proof.
  revert done st. induction todo as [|item todo IH]; intros done st J; simpl.
  - exact J.
  - assert (K : beforeBoss (snd (lootStep E dt item st))).
    { unfold lootStep. cbv zeta.
      destruct (checkCollision _ _); cbn [snd]; [apply pickUp_beforeBoss|]; exact J. }
    destruct (lootStep E dt item st) as [item' st']. apply IH. exact K.
Qed.

Lemma bossView_active a b : bossView E a = bossView E b -> bossActive a = bossActive b.
Proof. unfold bossView. intro H. injection H. auto. Qed.

Lemma beforeLoot_beforeBoss dt st :
  beforeBoss st ->
  beforeBoss (projectilesPhase E dt (enemiesPhase E dt (playerPhase E dt
                (updateWeather E dt st)))).
Proof.
  intro J.
  pose proof (bossView_active _ _ (beforeLoot_view E dt st)) as B.
  destruct J as [A | [R Q0]]; [left; congruence | right].
  split.
  - apply (beforeLoot_roster E notGuardian notGuardian_same notGuardian_spawnEnemy).
    exact R.
  - rewrite (projectilesPhase_keeps E _ victories) by (intros; reflexivity).
    rewrite enemiesPhase_quiet.
    + rewrite (playerPhase_keeps E _ victories) by (intros; reflexivity).
      rewrite (updateWeather_keeps E _ victories) by (intros; reflexivity). exact Q0.
    + apply (playerPhase_roster E notGuardian notGuardian_spawnEnemy).
      rewrite (updateWeather_keeps E _ enemies) by (intros; reflexivity). exact R.
Qed.

Lemma compact_beforeBoss st : beforeBoss st -> beforeBoss (checkGameOver (compact st)).
Proof.
  unfold beforeBoss.
  rewrite (checkGameOver_keeps _ bossActive), (checkGameOver_keeps _ enemies),
    (checkGameOver_keeps _ victories) by (intros; reflexivity).
  intros [B | [R V]]; [left; exact B | right]. split; [|exact V].
  apply (compact_roster notGuardian). exact R.
Qed.

Lemma update_beforeBoss dt st : beforeBoss st -> beforeBoss (update E dt st).
Proof.
  intro J. unfold update.
  destruct (JS.gtb (hitStop st) 0); [exact J|].
  destruct (JS.gtb (introTimer st) 0).
  - unfold beforeBoss.
    rewrite (introStep_keeps E _ bossActive), (introStep_keeps E _ enemies),
      (introStep_keeps E _ victories) by (intros; reflexivity).
    exact J.
  - unfold mainStep. cbv zeta.
    apply compact_beforeBoss, lootLoop_beforeBoss, beforeLoot_beforeBoss. exact J.
Qed.

Lemma placeCore_notGuardian i st :
  Forall notGuardian (enemies st) -> Forall notGuardian (enemies (placeCore E i st)).
Proof.
  intro F. unfold placeCore, random. cbv zeta.
  destruct (2 <=? _)%Z; esimpl; [|exact F].
  apply Forall_app. split; [exact F|]. constructor; [|constructor].
  unfold notGuardian. esimpl. destruct (JS.gtb _ _); discriminate.
Qed.

Lemma mission_beforeBoss actions : beforeBoss (mission E actions).
Proof.
  unfold mission.
  assert (J : beforeBoss (missionStart E)).
  { right. split.
    - apply missionStart_roster. apply placeCore_notGuardian.
    - unfold missionStart, startMission. cbv zeta.
      rewrite (fold_left_keeps _ victories)
        by (intros; apply (placeCore_keeps E); intros; reflexivity).
      reflexivity. }
  revert J. generalize (missionStart E) as st.
  induction actions as [|a actions IH]; intros st J; simpl; [exact J|].
  apply IH. destruct a; cbn [act]; try exact J.
  unfold loopFrame. destruct (isPlaying st); [apply update_beforeBoss|]; exact J.
Qed.

End Victory.

(** X14.  No victory without the cores.  At every point of every mission: a
    guardian is among the enemies only when the boss is active, and a victory
    was reported only when the boss is active; and the boss is active only
    when the cores that the mission needs were all collected.  (Nothing but
    [spawnBoss] makes a guardian: the roll of [spawnEnemy], the squads and
    the guards of the cores never do.) *)
Theorem no_victory_without_all_cores (E : Env) (actions : list Action) :
  let st := mission E actions in
  (forall e, In e (enemies st) -> archetype e = Some guardian -> bossActive st = true) /\
  ((0 < victories st)%nat -> bossActive st = true) /\
  (bossActive st = true -> (totalCoresNeeded st <= coresCollected st)%Z).
Proof.
  cbv zeta. pose proof (mission_beforeBoss E actions) as J.
  pose proof (mission_inv E actions) as I.
  unfold bossInv, bossView, bossInvOf in I.
  split; [|split].
  - intros e H A. destruct J as [B | [R _]]; [exact B|].
    rewrite Forall_forall in R. exfalso. exact (R e H A).
  - intro V. destruct J as [B | [_ Z]]; [exact B | lia].
  - intro B. destruct I as [_ [(B' & _) | (_ & _ & T & _)]]; [congruence | exact T].
Qed.

(** ** The planet generator *)

Module PlanetGeneratorFacts.

Import PlanetGenerator.

(** An index that [Math.floor(r * n)] computes from a draw is below [n]. *)
Lemma floor_draw (r : Q) (n : Z) :
  0 <= r < 1 -> (0 < n)%Z -> (0 <= JS.floor (r * inject_Z n) < n)%Z.
Proof.
  intros [R0 R1] N. unfold JS.floor.
  assert (Nq : 0 < inject_Z n) by (change 0 with (inject_Z 0); rewrite <- Zlt_Qlt; exact N).
  split.
  - rewrite <- (Qfloor_Z 0). apply Qfloor_resp_le. change (inject_Z 0) with 0. nra.
  - assert (L : r * inject_Z n < inject_Z n) by nra.
    pose proof (Qfloor_le (r * inject_Z n)) as F.
    rewrite Zlt_Qlt. lra.
Qed.

Lemma pickAt_In_range {A : Type} (d : A) (l : list A) (r : Q) :
  0 <= r < 1 -> l <> [] -> In (pickAt d l r) l.
Proof.
  intros R Hne. unfold pickAt.
  assert (N : (0 < Z.of_nat (length l))%Z) by (destruct l; [congruence | simpl; lia]).
  pose proof (floor_draw r _ R N) as F.
  destruct (JSFacts.index_Some l _ F) as [a Ha]. rewrite Ha.
  unfold JS.index in Ha. destruct (_ <? 0)%Z; [discriminate|].
  eapply nth_error_In. exact Ha.
Qed.

Lemma clamp_range x lo hi : lo <= hi -> lo <= clamp x lo hi <= hi.
Proof.
  intro L. unfold clamp, JS.min, JS.max. split.
  - apply Q.min_glb; [apply Q.le_max_r | exact L].
  - apply Q.le_min_r.
Qed.

(** Rounding to hundredths keeps a number between two hundredths. *)
Lemma toFixed2_range (k m : Z) (x : Q) :
  inject_Z k / 100 <= x <= inject_Z m / 100 ->
  inject_Z k / 100 <= toFixed2 x <= inject_Z m / 100.
Proof.
  intros [L U]. unfold toFixed2, JS.floor.
  assert (Lk : inject_Z k <= x * 100 + (1 # 2)).
  { assert (inject_Z k == inject_Z k / 100 * 100) by field. nra. }
  assert (Um : x * 100 + (1 # 2) < inject_Z (m + 1)).
  { rewrite inject_Z_plus. change (inject_Z 1) with 1.
    assert (inject_Z m == inject_Z m / 100 * 100) by field. nra. }
  assert (F1 : (k <= Qfloor (x * 100 + (1 # 2)))%Z).
  { rewrite <- (Qfloor_Z k). apply Qfloor_resp_le. exact Lk. }
  assert (F2 : (Qfloor (x * 100 + (1 # 2)) <= m)%Z).
  { assert (Qfloor (x * 100 + (1 # 2)) < m + 1)%Z; [|lia].
    rewrite Zlt_Qlt. eapply Qle_lt_trans; [apply Qfloor_le | exact Um]. }
  rewrite Zle_Qle in F1, F2.
  split; apply Qmult_le_compat_r; try assumption; vm_compute; discriminate.
Qed.

Lemma toFixed2_unit x : 0 <= x <= 1 -> 0 <= toFixed2 x <= 1.
Proof.
  intro H. pose proof (toFixed2_range 0 100 x) as T.
  change (inject_Z 0) with 0 in T. change (inject_Z 100) with 100 in T.
  assert (A : 0 / 100 == 0) by reflexivity. assert (B : 100 / 100 == 1) by reflexivity.
  rewrite A, B in T. apply T. exact H.
Qed.

Lemma toFixed2_gravity x :
  (85 # 100) <= x <= (140 # 100) -> (85 # 100) <= toFixed2 x <= (140 # 100).
Proof.
  intro H. pose proof (toFixed2_range 85 140 x) as T.
  change (inject_Z 85) with 85 in T. change (inject_Z 140) with 140 in T.
  assert (A : 85 / 100 == 85 # 100) by reflexivity.
  assert (B : 140 / 100 == 140 # 100) by reflexivity.
  rewrite A, B in T. apply T. exact H.
Qed.

Lemma BIOMES_ok t : In t BIOMES -> templateOk t.
Proof.
  unfold BIOMES. cbn [In].
  intros [<- | [<- | [<- | [<- | [<- | []]]]]]; unfold templateOk;
    cbn [allowedStyles t_atmosphere t_ground t_flora baseVegDensity baseWeatherVol
         probableWeather];
    repeat split; try discriminate; try reflexivity; cbn [In]; auto;
    repeat constructor; cbn [In]; intuition discriminate.
Qed.

Lemma validTemplatesFor_spec i :
  validTemplatesFor i <> [] /\
  (forall t, In t (validTemplatesFor i) ->
     In t BIOMES /\
     (i = 0%Z -> t_type t = "Volcanic"%string \/ t_type t = "Desert"%string) /\
     ((2 < i)%Z -> t_type t = "Ice"%string \/ t_type t = "Void"%string)).
Proof.
  unfold validTemplatesFor.
  destruct (i =? 0)%Z eqn:Z0; [|destruct (2 <? i)%Z eqn:Z2].
  - apply Z.eqb_eq in Z0. vm_compute filter. cbn [length Nat.eqb].
    split; [discriminate|]. intros t [<- | [<- | []]];
      (split; [unfold BIOMES; cbn [In]; auto 10|]); (split; [auto | lia]).
  - apply Z.eqb_neq in Z0. apply Z.ltb_lt in Z2. vm_compute filter.
    cbn [length Nat.eqb].
    split; [discriminate|]. intros t [<- | [<- | []]];
      (split; [unfold BIOMES; cbn [In]; auto 10|]); (split; [congruence | auto]).
  - apply Z.eqb_neq in Z0. apply Z.ltb_ge in Z2. cbn [length Nat.eqb BIOMES].
    split; [discriminate|]. intros t H. split; [exact H|]. split; [congruence | lia].
Qed.

Section Generated.

Variable rnd : nat -> Q.
Hypothesis rnd_range : forall n, 0 <= rnd n < 1.

Lemma randInt_range lo hi n :
  (lo <= hi)%Z -> (lo <= fst (randInt lo hi rnd n) <= hi)%Z.
Proof.
  intro L. cbv [randInt bind random ret fst].
  pose proof (floor_draw (rnd n) (hi - lo + 1) (rnd_range n) ltac:(lia)). lia.
Qed.

(** The template of a generated planet. *)
Lemma generated_template i n :
  template (fst (generateSinglePlanet i rnd n))
  = pickAt noTemplate (validTemplatesFor i) (rnd (3 + n)).
Proof. reflexivity. Qed.

Lemma generated_template_valid i n :
  In (template (fst (generateSinglePlanet i rnd n))) (validTemplatesFor i).
Proof.
  rewrite generated_template.
  apply pickAt_In_range; [apply rnd_range | apply validTemplatesFor_spec].
Qed.

Lemma generated_wellFormed i n :
  wellFormed (planetData (fst (generateSinglePlanet i rnd n))).
Proof.
  pose proof (generated_template_valid i n) as V.
  destruct (validTemplatesFor_spec i) as [_ Spec]. destruct (Spec _ V) as [B _].
  clear Spec.
  apply BIOMES_ok in B. rewrite generated_template in B.
  destruct B as (B1 & _ & _ & _ & B5 & B6 & B7 & B8 & B9 & B10).
  change (3 + n)%nat with (S (S (S n))) in *.
  unfold wellFormed.
  cbv [generateSinglePlanet bind pick random ret randInt fst snd planetData allowedBiomes
       weatherTraits enemyDensity gravity rareLootChance vegetationDensity
       weatherVolatility].
  set (t := pickAt noTemplate (validTemplatesFor i) (rnd (S (S (S n))))) in *.
  split; [exact B1|].
  assert (W : forall b : bool,
             unique (if b then probableWeather t ++ [clear] else probableWeather t)
             = probableWeather t) by (intros []; assumption).
  rewrite W. split; [exact B9|]. split; [exact B10|].
  split.
  { eexists. split; [reflexivity|].
    pose proof (floor_draw (rnd (S (S (S (S (S n)))))) (9 - 2 + 1)
                  (rnd_range _) ltac:(lia)). lia. }
  split.
  { apply toFixed2_gravity. pose proof (rnd_range (S (S (S (S n))))) as R. lra. }
  split.
  { apply toFixed2_unit. pose proof (rnd_range (S (S (S (S (S (S n))))))) as R. lra. }
  split.
  - apply toFixed2_unit.
    destruct (JS.ltb _ _).
    + unfold JS.min. split; [|apply Q.le_min_l].
      apply Q.min_glb; [lra|].
      pose proof (clamp_range (baseVegDensity t
                               + (rnd (S (S (S (S (S (S (S n))))))) * (4 # 10) - (2 # 10)))
                              0 1 ltac:(lra)). lra.
    + apply clamp_range. lra.
  - apply toFixed2_unit.
    destruct (JS.ltb _ _); [lra|]. apply clamp_range. lra.
Qed.

End Generated.

End PlanetGeneratorFacts.

(** ** The styles of the segments *)

Section Styles.

Variable E : Env.

Local Abbreviation planet := (env_planet E).

Hypothesis rnd_range : forall n, 0 <= env_rnd E n < 1.
Hypothesis some_biome : allowedBiomes planet <> [].

Lemma chooseStyle_styled i g : styled E g -> styled E (chooseStyle E i g).
Proof.
  intro S. unfold chooseStyle. destruct (_ =? _)%Z; [|exact S].
  unfold draw. cbv beta iota zeta. unfold styled. cbn [g_style withStyle].
  assert (N : (0 < Z.of_nat (length (allowedBiomes planet)))%Z)
    by (destruct (allowedBiomes planet); [congruence | simpl; lia]).
  pose proof (PlanetGeneratorFacts.floor_draw (env_rnd E (g_rng g)) _
                (rnd_range _) N) as F.
  destruct (JSFacts.index_Some (allowedBiomes planet) _ F) as [b Hb].
  exists b. split; [exact Hb|].
  unfold JS.index in Hb. destruct (_ <? 0)%Z; [discriminate|].
  eapply nth_error_In. exact Hb.
Qed.

Lemma genLoop_styled n cursor : styled E (genLoop E n (genStart E cursor)).
Proof.
  induction n as [|n IH]; simpl.
  - unfold styled, genStart. cbn [g_style].
    destruct (allowedBiomes planet) as [|b l]; [congruence|].
    exists b. split; [reflexivity | left; reflexivity].
  - unfold styled. rewrite genSegment_style. apply chooseStyle_styled. exact IH.
Qed.

End Styles.

(** X15.  The styles of a map are the planet's: when the planet allows some
    biome style and the draws are in [0, 1), every segment of every map is
    generated in a style, and that style is one of the planet's
    [allowedBiomes]. *)
Theorem segments_use_planet_biomes (E : Env) (cursor i : nat) :
  (forall n, 0 <= env_rnd E n < 1) ->
  allowedBiomes (env_planet E) <> [] ->
  exists b, styleOfSegment E cursor i = Some b /\ In b (allowedBiomes (env_planet E)).
Proof.
  intros R B. unfold styleOfSegment. apply genLoop_styled; assumption.
Qed.

Lemma segments_use_planet_biomes_witness :
  exists b, styleOfSegment (sampleEnv emergencyPlanet (1 # 20)) 0 3 = Some b
            /\ In b [crags].
Proof.
  apply (segments_use_planet_biomes (sampleEnv emergencyPlanet (1 # 20)) 0 3).
  - intro n. vm_compute. split; discriminate || reflexivity.
  - discriminate.
Defined.

(** ** The cores of a mission *)

Section Cores.

Variable E : Env.

(** The abscissa of core [i] of [total]. *)
Lemma core_abscissa (i : nat) (total : Z) :
  (Z.of_nat i < total)%Z ->
  0 < mapWidth * ((ofNat i + 1) / (inject_Z total + 1)) < mapWidth.
Proof.
  intro L. unfold mapWidth, segments, segmentWidth, ofNat.
  change (inject_Z (Z.of_nat 350) * 50) with 17500.
  assert (I0 : 0 <= inject_Z (Z.of_nat i))
    by (change 0 with (inject_Z 0); rewrite <- Zle_Qle; lia).
  assert (I1 : inject_Z (Z.of_nat i) < inject_Z total) by (rewrite <- Zlt_Qlt; exact L).
  set (a := inject_Z (Z.of_nat i)) in *. set (t := inject_Z total) in *.
  assert (P : 0 < (a + 1) / (t + 1) < 1).
  { split.
    - apply Qlt_shift_div_l; lra.
    - apply Qlt_shift_div_r; lra. }
  nra.
Qed.

(** [placeCore] adds one core and leaves the count that the mission needs
    alone. *)
Lemma placeCore_loot i st :
  (Z.of_nat i < totalCoresNeeded st)%Z ->
  exists core, loot (placeCore E i st) = loot st ++ [core] /\ coreInMap core.
Proof.
  intro L. unfold placeCore, random. cbv zeta.
  eexists. split.
  - destruct (2 <=? _)%Z; esimpl; reflexivity.
  - unfold coreInMap. esimpl. split; [reflexivity|]. split; [reflexivity|].
    apply core_abscissa. exact L.
Qed.

Lemma placeCores_loot (n : nat) st :
  (Z.of_nat n <= totalCoresNeeded st)%Z ->
  let st' := fold_left (fun st i => placeCore E i st) (seq 0 n) st in
  exists cores, loot st' = loot st ++ cores /\ length cores = n /\ Forall coreInMap cores.
Proof.
  cbv zeta. induction n as [|n IH]; intro L.
  - exists []. rewrite app_nil_r. repeat split; constructor.
  - rewrite seq_S, fold_left_app. cbn [fold_left Nat.add].
    destruct IH as (cores & Hl & Hn & Hc); [lia|].
    set (s := fold_left _ (seq 0 n) st) in *.
    assert (T : totalCoresNeeded s = totalCoresNeeded st).
    { unfold s. apply (fold_left_keeps _ totalCoresNeeded).
      intros; apply (placeCore_keeps E); intros; reflexivity. }
    destruct (placeCore_loot n s) as (core & Hk & Hi); [rewrite T; lia|].
    exists (cores ++ [core]). rewrite Hk, Hl, app_assoc.
    split; [reflexivity|]. split; [rewrite length_app, Hn; simpl; lia|].
    apply Forall_app. split; [exact Hc | constructor; [exact Hi | constructor]].
Qed.

Lemma missionStart_total :
  totalCoresNeeded (missionStart E)
  = (4 + JS.floor (enemyDensity (env_planet E) / (25 # 10)))%Z.
Proof.
  unfold missionStart, startMission. cbv zeta.
  rewrite (fold_left_keeps _ totalCoresNeeded)
    by (intros; apply (placeCore_keeps E); intros; reflexivity).
  reflexivity.
Qed.

End Cores.

(** X16.  A mission starts with the cores that it asks for: it needs
    [4 + floor(enemyDensity / 2.5)] cores, and when that count is not
    negative the mission starts with exactly that many cores as its loot, all
    of them inside the map (their abscissa is strictly between 0 and the
    width of the map, 17500) and none collected yet. *)
Theorem mission_starts_with_the_cores_it_needs (E : Env) :
  let st := missionStart E in
  totalCoresNeeded st = (4 + JS.floor (enemyDensity (env_planet E) / (25 # 10)))%Z /\
  coresCollected st = 0%Z /\
  ((0 <= totalCoresNeeded st)%Z ->
   Z.of_nat (length (loot st)) = totalCoresNeeded st /\ Forall coreInMap (loot st)).
Proof.
  cbv zeta. unfold missionStart, startMission. cbv zeta.
  match goal with |- context [fold_left _ (seq 0 (Z.to_nat (totalCoresNeeded ?s))) ?s] =>
    set (s0 := s)
  end.
  assert (T0 : totalCoresNeeded s0
               = (4 + JS.floor (enemyDensity (env_planet E) / (25 # 10)))%Z) by reflexivity.
  split; [|split].
  - rewrite (fold_left_keeps _ totalCoresNeeded)
      by (intros; apply (placeCore_keeps E); intros; reflexivity).
    exact T0.
  - rewrite (fold_left_keeps _ coresCollected)
      by (intros; apply (placeCore_keeps E); intros; reflexivity).
    reflexivity.
  - rewrite (fold_left_keeps _ totalCoresNeeded)
      by (intros; apply (placeCore_keeps E); intros; reflexivity).
    intro N.
    destruct (placeCores_loot E (Z.to_nat (totalCoresNeeded s0)) s0) as (cores & Hl & Hn & Hc);
      [lia|].
    rewrite Hl. change (loot s0) with (@nil Entity). cbn [app].
    split; [rewrite Hn; lia | exact Hc].
Qed.

Lemma mission_starts_with_the_cores_it_needs_witness :
  length (loot (missionStart (sampleEnv emergencyPlanet (1 # 2)))) = 6%nat.
Proof.
  destruct (mission_starts_with_the_cores_it_needs (sampleEnv emergencyPlanet (1 # 2)))
    as (T & _ & H).
  cbv zeta in *. rewrite T in H.
  destruct (H ltac:(vm_compute; discriminate)) as [L _].
  apply Nat2Z.inj. rewrite L. reflexivity.
Defined.

(** X17.  [randInt] and [pick] stay in range: for a draw in [0, 1),
    [randInt(min, max)] with [min <= max] is an integer from [min] to [max],
    both included, and [pick] returns an element of a list that is not
    empty (never [undefined]). *)
Theorem randInt_and_pick_in_range (rnd : nat -> Q) (n : nat) :
  (forall k, 0 <= rnd k < 1) ->
  (forall lo hi, (lo <= hi)%Z ->
     (lo <= fst (PlanetGenerator.randInt lo hi rnd n) <= hi)%Z) /\
  (forall (A : Type) (d : A) (arr : list A), arr <> [] ->
     In (fst (PlanetGenerator.pick d arr rnd n)) arr).
Proof.
  intro R. split.
  - intros lo hi L. apply PlanetGeneratorFacts.randInt_range; assumption.
  - intros A d arr Hne. cbv [PlanetGenerator.pick PlanetGenerator.bind
                             PlanetGenerator.random PlanetGenerator.ret fst].
    apply PlanetGeneratorFacts.pickAt_In_range; [apply R | exact Hne].
Qed.

Lemma randInt_and_pick_in_range_witness :
  (2 <= fst (PlanetGenerator.randInt 2 9 (fun _ => 99 # 100) 0%nat) <= 9)%Z.
Proof.
  apply (randInt_and_pick_in_range (fun _ => 99 # 100) 0%nat).
  - intro k. split; vm_compute; discriminate || reflexivity.
  - lia.
Defined.

(** X18.  Every generated planet is one that the engine can run: whatever
    the position in the system and the draws in [0, 1), the planet allows
    some biome style, lists clear weather and no trait twice, has an enemy
    density that is an integer from 2 to 9, a gravity from 0.85 to 1.40 (so
    never 0, which the jump divides by), and a loot chance, a vegetation
    density and a weather volatility from 0 to 1. *)
Theorem generated_planet_fits_engine (rnd : nat -> Q) (i : Z) (n : nat) :
  (forall k, 0 <= rnd k < 1) ->
  PlanetGenerator.wellFormed
    (PlanetGenerator.planetData (fst (PlanetGenerator.generateSinglePlanet i rnd n))).
Proof.
  intro R. apply PlanetGeneratorFacts.generated_wellFormed. exact R.
Qed.

Lemma generated_planet_fits_engine_witness :
  PlanetGenerator.wellFormed
    (PlanetGenerator.planetData
       (fst (PlanetGenerator.generateSinglePlanet 0 (fun _ => 1 # 2) 0%nat))).
Proof.
  apply (generated_planet_fits_engine (fun _ => 1 # 2) 0 0%nat).
  intro k. split; vm_compute; discriminate || reflexivity.
Defined.

(** X19.  Hot worlds near the star, cold ones far out: the planet at
    position 0 of a system is made from the Volcanic or the Desert template,
    a planet at a position above 2 from the Ice or the Void template, and
    every planet takes its biome styles and its enemy colour from its
    template. *)
Theorem template_follows_position (rnd : nat -> Q) (i : Z) (n : nat) :
  (forall k, 0 <= rnd k < 1) ->
  let p := fst (PlanetGenerator.generateSinglePlanet i rnd n) in
  let t := PlanetGenerator.template p in
  In t PlanetGenerator.BIOMES /\
  allowedBiomes (PlanetGenerator.planetData p) = PlanetGenerator.allowedStyles t /\
  enemyColor (PlanetGenerator.planetData p) = PlanetGenerator.t_enemy t /\
  (i = 0%Z -> PlanetGenerator.t_type t = "Volcanic"%string
              \/ PlanetGenerator.t_type t = "Desert"%string) /\
  ((2 < i)%Z -> PlanetGenerator.t_type t = "Ice"%string
                \/ PlanetGenerator.t_type t = "Void"%string).
Proof.
  intro R. cbv zeta.
  pose proof (PlanetGeneratorFacts.generated_template_valid rnd R i n) as V.
  destruct (PlanetGeneratorFacts.validTemplatesFor_spec i) as [_ Spec].
  destruct (Spec _ V) as (B & H0 & H2).
  split; [exact B|]. split; [reflexivity|]. split; [reflexivity|]. split; assumption.
Qed.

Lemma template_follows_position_witness :
  PlanetGenerator.t_type
    (PlanetGenerator.template
       (fst (PlanetGenerator.generateSinglePlanet 3 (fun _ => 1 # 2) 0%nat))) = "Ice"%string
  \/
  PlanetGenerator.t_type
    (PlanetGenerator.template
       (fst (PlanetGenerator.generateSinglePlanet 3 (fun _ => 1 # 2) 0%nat))) = "Void"%string.
Proof.
  apply (template_follows_position (fun _ => 1 # 2) 3 0%nat).
  - intro k. split; vm_compute; discriminate || reflexivity.
  - lia.
Defined.

Section StarSystem.

Import PlanetGenerator.

Variable rnd : nat -> Q.

Lemma generateSinglePlanet_draws i n : snd (generateSinglePlanet i rnd n) = (17 + n)%nat.
Proof. cbv [generateSinglePlanet bind pick random ret randInt snd]. reflexivity. Qed.

(** Planet [k] of the loop is the planet of position [i + k], made from the
    draws behind those of the planets before it. *)
Lemma planetsFrom_spec count i n :
  length (fst (planetsFrom i count rnd n)) = count /\
  forall k p, nth_error (fst (planetsFrom i count rnd n)) k = Some p ->
              p = fst (generateSinglePlanet (i + Z.of_nat k) rnd (17 * k + n)%nat).
Proof.
  revert i n. induction count as [|count IH]; intros i n.
  - split; [reflexivity|]. intros [|k] p H; discriminate.
  - assert (Eq : fst (planetsFrom i (S count) rnd n)
                = fst (generateSinglePlanet i rnd n)
                  :: fst (planetsFrom (i + 1) count rnd (17 + n)%nat)).
    { cbn [planetsFrom]. unfold bind, ret.
      pose proof (generateSinglePlanet_draws i n) as D.
      destruct (generateSinglePlanet i rnd n) as [p0 n0]. cbn [snd] in D. subst n0.
      destruct (planetsFrom (i + 1) count rnd (17 + n)%nat) as [rest n1]. reflexivity. }
    rewrite Eq. destruct (IH (i + 1)%Z (17 + n)%nat) as [L N].
    split; [cbn [length]; congruence|].
    intros [|k] p H; cbn [nth_error] in H.
    + injection H as <-. rewrite Z.add_0_r, Nat.mul_0_r. reflexivity.
    + rewrite (N k p H). f_equal. f_equal; lia.
Qed.

End StarSystem.

(** X20.  A star system has three to five planets, and the planet at
    position [k] of the list is the planet that [generateSinglePlanet] makes
    for position [k]: it orbits at [60 + 40 k], and it has all that the
    engine needs of a planet. *)
Theorem star_system_has_three_to_five_planets (rnd : nat -> Q) (n : nat) :
  (forall k, 0 <= rnd k < 1) ->
  let system := fst (PlanetGenerator.generateStarSystem rnd n) in
  (3 <= length system <= 5)%nat /\
  forall k p, nth_error system k = Some p ->
    PlanetGenerator.orbitRadius p = 60 + inject_Z (Z.of_nat k) * 40 /\
    PlanetGenerator.wellFormed (PlanetGenerator.planetData p) /\
    exists m, p = fst (PlanetGenerator.generateSinglePlanet (Z.of_nat k) rnd m).
Proof.
  intro R. cbv zeta.
  assert (Eq : fst (PlanetGenerator.generateStarSystem rnd n)
               = fst (PlanetGenerator.planetsFrom 0
                        (Z.to_nat (fst (PlanetGenerator.randInt 3 5 rnd n))) rnd
                        (snd (PlanetGenerator.randInt 3 5 rnd n)))).
  { unfold PlanetGenerator.generateStarSystem, PlanetGenerator.bind.
    destruct (PlanetGenerator.randInt 3 5 rnd n). reflexivity. }
  rewrite Eq. clear Eq.
  pose proof (PlanetGeneratorFacts.randInt_range rnd R 3 5 n ltac:(lia)) as C.
  destruct (PlanetGenerator.randInt 3 5 rnd n) as [count n0]. cbn [fst snd] in *.
  destruct (planetsFrom_spec rnd (Z.to_nat count) 0 n0) as [L N].
  split; [rewrite L; lia|].
  intros k p H. specialize (N k p H). rewrite Z.add_0_l in N. subst p.
  split; [reflexivity|]. split; [apply PlanetGeneratorFacts.generated_wellFormed; exact R|].
  eexists. reflexivity.
Qed.

Lemma star_system_has_three_to_five_planets_witness :
  (3 <= length (fst (PlanetGenerator.generateStarSystem (fun _ => 1 # 2) 0%nat)) <= 5)%nat.
Proof.
  apply (star_system_has_three_to_five_planets (fun _ => 1 # 2) 0%nat).
  intro k. split; vm_compute; discriminate || reflexivity.
Defined.

(** X21.  The engine on a generated planet.  With the draws in [0, 1), on a
    planet that the generator made every segment of the map is generated in
    one of the planet's biome styles (the case of a planet without biomes
    does not arise), the mission needs four to seven cores, and the gravity
    is positive. *)
Theorem engine_on_generated_planet (E : Env) (i : Z) (n cursor seg : nat) :
  (forall k, 0 <= env_rnd E k < 1) ->
  env_planet E
  = PlanetGenerator.planetData
      (fst (PlanetGenerator.generateSinglePlanet i (env_rnd E) n)) ->
  (exists b, styleOfSegment E cursor seg = Some b /\ In b (allowedBiomes (env_planet E))) /\
  (4 <= totalCoresNeeded (missionStart E) <= 7)%Z /\
  0 < gravity (env_planet E).
Proof.
  intros R P.
  pose proof (PlanetGeneratorFacts.generated_wellFormed (env_rnd E) R i n) as W.
  rewrite <- P in W. destruct W as (B & _ & _ & (d & Hd & D) & G & _).
  split; [unfold styleOfSegment; apply genLoop_styled; assumption|]. split; [|lra].
  rewrite missionStart_total, Hd.
  assert (C : (d = 2 \/ d = 3 \/ d = 4 \/ d = 5 \/ d = 6 \/ d = 7 \/ d = 8 \/ d = 9)%Z)
    by lia.
  destruct C as [-> | [-> | [-> | [-> | [-> | [-> | [-> | ->]]]]]]];
    vm_compute; split; discriminate.
Qed.

Lemma engine_on_generated_planet_witness :
  let rnd := fun _ : nat => 1 # 2 in
  let p := PlanetGenerator.planetData
             (fst (PlanetGenerator.generateSinglePlanet 0 rnd 0%nat)) in
  (4 <= totalCoresNeeded (missionStart (sampleEnv p (1 # 2))) <= 7)%Z.
Proof.
  cbv zeta.
  apply (engine_on_generated_planet
           (sampleEnv (PlanetGenerator.planetData
                         (fst (PlanetGenerator.generateSinglePlanet 0 (fun _ => 1 # 2) 0%nat)))
                      (1 # 2)) 0 0%nat 0%nat 0%nat).
  - intro k. split; vm_compute; discriminate || reflexivity.
  - reflexivity.
Defined.

(** ** The hangar *)

Module AppFacts.

Import App.

Lemma floor_half_nonneg c : (0 <= c)%Z -> 0 <= inject_Z (JS.floor (inject_Z c * (5 # 10))).
Proof.
  intro C. change 0 with (inject_Z 0). rewrite <- Zle_Qle.
  unfold JS.floor. rewrite <- (Qfloor_Z 0). apply Qfloor_resp_le.
  assert (0 <= inject_Z c) by (change 0 with (inject_Z 0); rewrite <- Zle_Qle; exact C).
  change (inject_Z 0) with 0. lra.
Qed.

(** The wallet is not negative and no level is below the first. *)
Definition sound (s : State) : Prop := 0 <= totalCores s /\ levelsFromOne (upgrades s).

Lemma handle_sound s e : honest e -> sound s -> sound (handle s e).
Proof.
  unfold sound, levelsFromOne. intros H (W & L1 & L2 & L3 & L4).
  destruct e; cbn [handle honest] in *.
  - cbn. auto.
  - unfold handleHyperspaceJump. destruct (JS.ltb _ _) eqn:T; cbn; [auto|].
    apply JSFacts.ltb_ge in T. repeat split; try assumption. lra.
  - cbn. auto.
  - unfold handleStartMission. destruct (negb _); cbn; auto.
  - unfold handleGameOver. cbv zeta. cbn [totalCores upgrades].
    pose proof (floor_half_nonneg _ H). repeat split; try assumption. lra.
  - unfold handleVictory. cbv zeta. cbn [totalCores upgrades].
    assert (0 <= inject_Z collectedCores)
      by (change 0 with (inject_Z 0); rewrite <- Zle_Qle; exact H).
    repeat split; try assumption. lra.
  - unfold buyUpgrade. cbv zeta. destruct (JS.geb _ _) eqn:T; [|auto].
    apply JSFacts.geb_ge in T. cbn [totalCores upgrades].
    destruct k; cbn [level withLevel hull weapon thrusters u_speed] in *;
      repeat split; try assumption; lra.
  - cbn. auto.
Qed.

End AppFacts.

(** X22.  The wallet is never overdrawn: after any events of the hangar and
    any ends of missions that report no negative number of cores, the
    number of cores held is not negative and no upgrade is below its first
    level.  A jump is paid only when a core is held and an upgrade only when
    its price is. *)
Theorem wallet_never_overdrawn (events : list App.Event) :
  Forall App.honest events ->
  0 <= App.totalCores (App.run events) /\
  App.levelsFromOne (App.upgrades (App.run events)).
Proof.
  intro H. change (AppFacts.sound (App.run events)). unfold App.run.
  assert (I : AppFacts.sound App.initial)
    by (unfold AppFacts.sound, App.levelsFromOne; cbn; repeat split; lra).
  revert I. generalize App.initial.
  induction H as [|e l He _ IH]; intros s I; cbn [fold_left]; [exact I|].
  apply IH. apply AppFacts.handle_sound; assumption.
Qed.

Lemma wallet_never_overdrawn_witness :
  0 <= App.totalCores
         (App.run [App.EnterShip; App.HyperspaceJump; App.BuyUpgrade App.k_speed;
                   App.SelectPlanet; App.StartMission; App.GameOver 120 3%Z;
                   App.BuyUpgrade App.k_hull]).
Proof.
  apply wallet_never_overdrawn.
  repeat constructor; cbn; lia.
Defined.

(** X23.  An upgrade is bought at its price or not at all: with fewer cores
    than the base cost times the level held, [buyUpgrade] changes nothing;
    otherwise it takes exactly that price from the wallet, raises that
    upgrade by one level and leaves the other three.  In both cases the
    wallet plus the cores spent on the levels held is what it was. *)
Theorem upgrade_bought_at_its_price (k : App.UpgradeKey) (s : App.State) :
  let cost := App.UPGRADE_COSTS k * App.level (App.upgrades s) k in
  let s' := App.buyUpgrade k s in
  App.worth s' == App.worth s /\
  App.status s' = App.status s /\
  (App.totalCores s < cost -> s' = s) /\
  (cost <= App.totalCores s ->
   App.totalCores s' = App.totalCores s - cost /\
   App.level (App.upgrades s') k = App.level (App.upgrades s) k + 1 /\
   forall k', k' <> k ->
     App.level (App.upgrades s') k' = App.level (App.upgrades s) k').
Proof.
  cbv zeta. unfold App.buyUpgrade. cbv zeta.
  destruct (JS.geb _ _) eqn:T.
  - apply JSFacts.geb_ge in T. split; [|split; [reflexivity|split]].
    + unfold App.worth, App.spentOn.
      destruct k; cbn [App.totalCores App.upgrades App.level App.withLevel
                         App.UPGRADE_COSTS hull weapon thrusters u_speed]; field.
    + intro L. exfalso. lra.
    + intros _. split; [reflexivity|]. split.
      * destruct k; reflexivity.
      * intros k' N. destruct k, k'; try reflexivity; congruence.
  - apply JSFacts.geb_lt in T. split; [reflexivity|split; [reflexivity|split]].
    + reflexivity.
    + intro L. exfalso. lra.
Qed.

(** X24.  The upgrades that the hangar can hold fit the engine: after any
    events that report no negative number of cores, a mission run with the
    upgrades held has a hull of at least 100, at least 100 units of fuel
    and speed and damage factors of at least 1, and at every point of the
    mission the health of the player is at most that hull. *)
Theorem hangar_upgrades_fit_engine
  (K : Constants) (M : MathLib) (rnd : nat -> Q) (planet : PlanetData)
  (events : list App.Event) (actions : list Action) :
  Forall App.honest events ->
  let E := mkEnv K M rnd planet (App.upgrades (App.run events)) in
  100 <= maxHealthStat E /\ 100 <= maxFuelBase E /\
  1 <= moveSpeedMult E /\ 1 <= damageMultStat E /\
  health (player (mission E actions)) <= maxHealthStat E.
Proof.
  intros H E.
  assert (S0 : AppFacts.sound (App.run events)).
  { unfold App.run.
    assert (I : AppFacts.sound App.initial)
      by (unfold AppFacts.sound, App.levelsFromOne; cbn; repeat split; lra).
    revert I. generalize App.initial.
    induction H as [|e l He _ IH]; intros s I; cbn [fold_left]; [exact I|].
    apply IH. apply AppFacts.handle_sound; assumption. }
  destruct S0 as (_ & L1 & L2 & L3 & L4).
  assert (A : 100 <= maxHealthStat E).
  { unfold maxHealthStat, E. cbn [env_upgrades]. lra. }
  split; [exact A|].
  split; [unfold maxFuelBase, fuelCapacityMult, E; cbn [env_upgrades]; lra|].
  split; [unfold moveSpeedMult, E; cbn [env_upgrades]; lra|].
  split; [unfold damageMultStat, E; cbn [env_upgrades]; lra|].
  apply (mission_withinMaxHealth E actions). lra.
Qed.

Lemma hangar_upgrades_fit_engine_witness :
  100 <= maxHealthStat
           (mkEnv Shipped.constants sampleMath (fun _ => 1 # 2) emergencyPlanet
                  (App.upgrades (App.run [App.EnterShip; App.BuyUpgrade App.k_hull]))).
Proof.
  refine (proj1 (hangar_upgrades_fit_engine
                   Shipped.constants sampleMath (fun _ => 1 # 2) emergencyPlanet
                   [App.EnterShip; App.BuyUpgrade App.k_hull] [Frame 1] _)).
  repeat constructor.
Defined.

